(** * Agent Connect: the peer protocol engine

    A shallow embedding of the JavaScript sources of Agent Connect
    (lib/crypto.js, lib/auth.js, lib/config.js, lib/heartbeat.js,
    lib/telegram.js, scripts/server.js, scripts/send-message.js,
    scripts/add-friend.js, scripts/accept-friend.js,
    scripts/remove-friend.js, scripts/cancel-request.js, scripts/group.js,
    scripts/reply.js, scripts/watchdog.js), the properties the
    specification states about them, and further properties of the code.

    Conventions.
    - A JavaScript number that the code only uses as an integer is a [Z];
      [NaN] is [None] in an [option Z].
    - A JavaScript string is the [string] of the bytes of its text in
      (generalised) UTF-8: one byte for a code unit below 128, two or three
      bytes for another code unit of the basic plane (a lone surrogate
      included), four bytes for a surrogate pair. Its [length] is
      [code_unit_length]. The code concatenates strings next to ASCII
      text only, where concatenation is that of the bytes. A [Buffer] is a
      [list byte].
    - The directory [friends/] is a finite map from the stem [k] of a file
      [friends/k.json] to the record the file holds. The functions of
      lib/config.js reach a file through [path.join(FRIENDS_DIR, name +
      '.json')]: [friend_file] says which file of [friends/] a name leads
      to, if any. The files are documents the code wrote: records whose
      fields have the types of [Friend]. No document is assumed to lie at a
      path outside [friends/] that a name leads to.
    - A request body is a JSON value whose fields [from], [token],
      [webhook_url], [message] and [message_type] are strings when they are
      present ([Body]); statements about requests speak of such bodies.
    - [Date.now()] and [new Date()] are arguments of the functions that read
      the clock; [crypto.randomBytes] is an argument of [encryptMessage].
    - Paths are POSIX paths. *)

From Stdlib Require Import ZArith Lia.
From Stdlib.Strings Require Import Byte Ascii String.
From stdpp Require Import gmap strings list.

#[global] Instance byte_eq_decision : EqDecision byte := Byte.byte_eq_dec.

(** ** JavaScript helpers *)

(** What evaluating a block gives: a value, or an exception on its way up. *)
Inductive completion (A : Type) : Type :=
  | Normal (a : A)
  | Thrown.
Arguments Normal {A} a.
Arguments Thrown {A}.

Definition bind_completion {A B} (c : completion A) (k : A → completion B) : completion B :=
  match c with
  | Normal a => k a
  | Thrown => Thrown
  end.

(** A primitive that signals failure by throwing. *)
Definition or_throw {A} (o : option A) : completion A :=
  match o with
  | Some a => Normal a
  | None => Thrown
  end.

(** [try { return body } catch { return handler }]. *)
Definition try_catch {A} (body : completion A) (handler : A) : A :=
  match body with
  | Normal a => a
  | Thrown => handler
  end.

(** [!v] for an optional string: [undefined], [null] and [''] are falsy. *)
Definition falsy (v : option string) : bool :=
  match v with
  | None => true
  | Some s => bool_decide (s = "")
  end.

(** A relative index of [subarray]/[slice]: negative counts from the end,
    and the result is clamped to [0, len]. *)
Definition clamp_index (len i : Z) : Z :=
  if (i <? 0)%Z then Z.max (len + i) 0 else Z.min i len.

(** [buf.subarray(start, end)]. *)
Definition subarray (buf : list byte) (start end_ : Z) : list byte :=
  let len := Z.of_nat (length buf) in
  let s := clamp_index len start in
  let e := clamp_index len end_ in
  take (Z.to_nat (e - s)) (drop (Z.to_nat s) buf).

(** [arr.slice(-n)] for a positive [n]: the last [n] elements. *)
Definition slice_last {A} (n : nat) (l : list A) : list A :=
  drop (length l - n) l.

(** [s.split(sep)] for a one-character separator. *)
Fixpoint split_on (sep : ascii) (s : string) : list string :=
  match s with
  | EmptyString => [EmptyString]
  | String c rest =>
      if bool_decide (c = sep) then EmptyString :: split_on sep rest
      else match split_on sep rest with
           | [] => [String c EmptyString]
           | w :: ws => String c w :: ws
           end
  end.

(** A word between double quotes, as in the message [Missing "from" field]
    (written without the quote character in a literal). *)
Definition quoted (s : string) : string :=
  String (ascii_of_nat 34) s +:+ String (ascii_of_nat 34) EmptyString.

(** [hay.includes(needle)]. *)
Fixpoint includes (needle hay : string) : bool :=
  String.prefix needle hay ||
  match hay with
  | EmptyString => false
  | String _ rest => includes needle rest
  end.

(** ** JavaScript strings: code units and well-formedness *)

(** How many UTF-16 code units the character that starts at a byte has:
    none for a continuation byte, two for the first byte of a four-byte
    sequence (a surrogate pair), one otherwise. *)
Definition code_units (c : ascii) : nat :=
  let n := nat_of_ascii c in
  if n <? 128 then 1 else if n <? 192 then 0 else if n <? 240 then 1 else 2.

(** [s.length]: the number of code units. *)
Fixpoint code_unit_length (s : string) : nat :=
  match s with
  | EmptyString => 0
  | String c rest => code_units c + code_unit_length rest
  end.

(** A byte 10xxxxxx. *)
Definition is_continuation (c : ascii) : bool :=
  (128 <=? nat_of_ascii c) && (nat_of_ascii c <=? 191).

(** The three bytes of a lone surrogate (U+D800 to U+DFFF): ED, a byte
    from A0 to BF, a continuation byte. *)
Definition lone_surrogate (c c1 c2 : ascii) : bool :=
  (nat_of_ascii c =? 237) && (160 <=? nat_of_ascii c1) && (nat_of_ascii c1 <=? 191) &&
  is_continuation c2.

(** U+FFFD, the replacement character: the bytes EF BF BD. *)
Definition replacement_character : string :=
  String (ascii_of_nat 239) (String (ascii_of_nat 191) (String (ascii_of_nat 189) EmptyString)).

(** [s.toWellFormed()]: every lone surrogate replaced by U+FFFD. *)
Fixpoint toWellFormed (s : string) : string :=
  match s with
  | EmptyString => EmptyString
  | String c rest =>
      match rest with
      | String c1 (String c2 rest') =>
          if lone_surrogate c c1 c2 then replacement_character +:+ toWellFormed rest'
          else String c (toWellFormed rest)
      | _ => String c (toWellFormed rest)
      end
  end.

(** No three bytes of [s] in a row are those of a lone surrogate. *)
Fixpoint lone_surrogate_free (s : string) : bool :=
  match s with
  | EmptyString => true
  | String c rest =>
      negb (match rest with
            | String c1 (String c2 _) => lone_surrogate c c1 c2
            | _ => false
            end) &&
      lone_surrogate_free rest
  end.

(** A string of characters below 128. *)
Definition is_ascii (s : string) : bool :=
  forallb (λ c, nat_of_ascii c <? 128) (list_ascii_of_string s).

(** [s.isWellFormed()]: the string has no lone surrogate, that is, its
    bytes are UTF-8 proper (shortest forms, no surrogate, at most U+10FFFF). *)
Fixpoint isWellFormed (s : string) : bool :=
  match s with
  | EmptyString => true
  | String c rest =>
      let n := nat_of_ascii c in
      if n <? 128 then isWellFormed rest
      else if (194 <=? n) && (n <=? 223) then
        match rest with
        | String c1 rest => is_continuation c1 && isWellFormed rest
        | _ => false
        end
      else if (224 <=? n) && (n <=? 239) then
        match rest with
        | String c1 (String c2 rest) =>
            is_continuation c1 && is_continuation c2 &&
            (if n =? 224 then 160 <=? nat_of_ascii c1 else true) &&
            (if n =? 237 then nat_of_ascii c1 <=? 159 else true) &&
            isWellFormed rest
        | _ => false
        end
      else if (240 <=? n) && (n <=? 244) then
        match rest with
        | String c1 (String c2 (String c3 rest)) =>
            is_continuation c1 && is_continuation c2 && is_continuation c3 &&
            (if n =? 240 then 144 <=? nat_of_ascii c1 else true) &&
            (if n =? 244 then nat_of_ascii c1 <=? 143 else true) &&
            isWellFormed rest
        | _ => false
        end
      else false
  end.

(** ** Node's path module, on POSIX

    A path is the list of its segments from the root. *)

(** One segment of a path that is being normalised: an empty segment and
    [.] stay where they are, [..] goes up (and stays at the root), another
    segment goes down. *)
Definition join_step (path : list string) (segment : string) : list string :=
  if bool_decide (segment = "") || bool_decide (segment = ".") then path
  else if bool_decide (segment = "..") then removelast path
  else path ++ [segment].

(** [path.join(dir, rel)] for an absolute [dir] in normal form: the
    segments of [rel] are followed from [dir]. *)
Definition path_join (dir : list string) (rel : string) : list string :=
  foldl join_step dir (split_on "/" rel).

(** [s] without the suffix it ends with, if it ends with it. *)
Fixpoint strip_suffix (suffix s : string) : option string :=
  if bool_decide (s = suffix) then Some EmptyString
  else match s with
       | EmptyString => None
       | String c rest => String c <$> strip_suffix suffix rest
       end.

(** The properties an object literal [{}] inherits from [Object.prototype]:
    reading one of these keys from an object used as a dictionary gives the
    inherited function (for [__proto__], the prototype itself), not
    [undefined]. *)
Definition Object_prototype_keys : list string :=
  [ "constructor"; "__defineGetter__"; "__defineSetter__"; "hasOwnProperty";
    "__lookupGetter__"; "__lookupSetter__"; "isPrototypeOf";
    "propertyIsEnumerable"; "toString"; "valueOf"; "__proto__";
    "toLocaleString" ].

Inductive property (A : Type) : Type :=
  | Absent                (* undefined *)
  | Own (a : A)           (* a property the code stored itself *)
  | Inherited.            (* a member of Object.prototype *)
Arguments Absent {A}.
Arguments Own {A} a.
Arguments Inherited {A}.

(** [obj[key]] for [obj] created by [{}] and only ever assigned entries. *)
Definition get_property {A} (obj : gmap string A) (key : string) : property A :=
  match obj !! key with
  | Some a => Own a
  | None => if bool_decide (key ∈ Object_prototype_keys) then Inherited else Absent
  end.

(** ** Node's crypto, Buffer and os primitives

    The code calls these; they are no part of the repository.
    [utf8_encode s] is [Buffer.from(s, 'utf8')] and [utf8_decode b] is
    [b.toString('utf8')]. [gcm_encrypt key iv pt] is
    [createCipheriv('aes-256-gcm', key, iv)] followed by [update], [final]
    and [getAuthTag]: the ciphertext and the tag. [gcm_decrypt key iv ct tag]
    is [createDecipheriv], [setAuthTag], [update] and [final]: [None] when
    one of them throws (a key, nonce or tag of an unsupported length, or a
    tag that does not authenticate). [homedir] is [os.homedir()], as the
    segments of the path in normal form. *)
Class NodePrimitives : Type := {
  sha256 : list byte → list byte;
  utf8_encode : string → list byte;
  utf8_decode : list byte → string;
  base64_encode : list byte → string;
  base64_decode : string → list byte;
  gcm_encrypt : list byte → list byte → list byte → list byte * list byte;
  gcm_decrypt : list byte → list byte → list byte → list byte → option (list byte);
  homedir : list string;
}.

(** What the code relies on: SHA-256 digests have 32 bytes; UTF-8 decodes
    what it encoded when the string is well formed, and encodes a string
    with lone surrogates as it encodes the string with U+FFFD in their
    place; base64 decodes what it encoded; AES-256-GCM under a 32-byte key
    and a 12-byte nonce produces a 16-byte tag and decrypts what it
    encrypted. *)
Class NodePrimitivesLaws (P : NodePrimitives) : Prop := {
  sha256_length : ∀ m, length (sha256 m) = 32%nat;
  utf8_decode_encode : ∀ s, isWellFormed s = true → utf8_decode (utf8_encode s) = s;
  utf8_encode_toWellFormed : ∀ s,
    isWellFormed (toWellFormed s) = true → utf8_encode s = utf8_encode (toWellFormed s);
  base64_decode_encode : ∀ b, base64_decode (base64_encode b) = b;
  gcm_tag_length : ∀ key iv pt,
    length key = 32%nat → length iv = 12%nat →
    length (gcm_encrypt key iv pt).2 = 16%nat;
  gcm_decrypt_encrypt : ∀ key iv pt,
    length key = 32%nat → length iv = 12%nat →
    gcm_decrypt key iv (gcm_encrypt key iv pt).1 (gcm_encrypt key iv pt).2 = Some pt;
}.

(** ** lib/crypto.js *)
Module Crypto.
Section WithPrimitives.
Context {P : NodePrimitives}.

Definition IV_LENGTH : Z := 12.
Definition TAG_LENGTH : Z := 16.

(** [crypto.createHash('sha256').update(token).digest()]. *)
Definition deriveKey (token : string) : list byte :=
  sha256 (utf8_encode token).

(** [iv] is the value of [crypto.randomBytes(IV_LENGTH)]. *)
Definition encryptMessage (plaintext token : string) (iv : list byte) : string :=
  let key := deriveKey token in
  let '(encrypted, tag) := gcm_encrypt key iv (utf8_encode plaintext) in
  let packed := iv ++ encrypted ++ tag in
  base64_encode packed.

(** The body of the [try] block. *)
Definition decryptMessage_try (encryptedBase64 token : string) : completion string :=
  let key := deriveKey token in
  let packed := base64_decode encryptedBase64 in
  let len := Z.of_nat (length packed) in
  let iv := subarray packed 0 IV_LENGTH in
  let tag := subarray packed (len - TAG_LENGTH) len in
  let encrypted := subarray packed IV_LENGTH (len - TAG_LENGTH) in
  bind_completion (or_throw (gcm_decrypt key iv encrypted tag)) (λ decrypted,
  Normal (utf8_decode decrypted)).

(** [None] is JavaScript's [null]. *)
Definition decryptMessage (encryptedBase64 token : string) : option string :=
  try_catch
    (bind_completion (decryptMessage_try encryptedBase64 token) (λ s, Normal (Some s)))
    None.

End WithPrimitives.
End Crypto.

(** ** lib/auth.js *)
Module Auth.
Section WithPrimitives.
Context {P : NodePrimitives}.

(** [{ valid: true }] or [{ valid: false, error }]. *)
Inductive AuthResult : Type :=
  | Valid
  | Invalid (error : string).

Definition verifyBearerToken (authHeader : option string) (expectedToken : string)
    : AuthResult :=
  if falsy authHeader then Invalid "Missing Authorization header"
  else
    match split_on " " (default "" authHeader) with
    | [scheme; token] =>
        if negb (bool_decide (scheme = "Bearer"))
        then Invalid "Invalid Authorization format. Expected: Bearer <token>"
        else if falsy (Some token) || (code_unit_length token <? 20)%nat
        then Invalid "Token too short"
        else
          let expected := utf8_encode expectedToken in
          let received := utf8_encode token in
          if negb (length expected =? length received)%nat then Invalid "Invalid token"
          else if negb (bool_decide (expected = received)) (* crypto.timingSafeEqual *)
          then Invalid "Invalid token"
          else Valid
    | _ => Invalid "Invalid Authorization format. Expected: Bearer <token>"
    end.

(** An entry of [rateLimits] or [pairRequestLimits]. *)
Record RateEntry : Type := { count : Z; windowStart : Z }.

Definition RATE_LIMIT_WINDOW_MS : Z := 60 * 1000.
Definition RATE_LIMIT_MAX : Z := 10.

(** [{ allowed, remaining }]; [remaining = None] is [NaN]. *)
Record RateCheck : Type := { allowed : bool; remaining : option Z }.

(** [rateLimits] is the object literal [{}] of the module, passed in and
    returned. When [friendName] is a key of [Object.prototype], [entry] is
    the inherited function: it is truthy, its [windowStart] and [count] are
    [undefined], both comparisons are against [NaN] and fail, [entry.count++]
    leaves [NaN] on the inherited object and stores nothing in [rateLimits],
    and [remaining] is [NaN]. *)
Definition checkRateLimit (now : Z) (friendName : string)
    (rateLimits : gmap string RateEntry) : RateCheck * gmap string RateEntry :=
  let new_window :=
    ({| allowed := true; remaining := Some (RATE_LIMIT_MAX - 1)%Z |},
     <[friendName := {| count := 1; windowStart := now |}]> rateLimits) in
  match get_property rateLimits friendName with
  | Absent => new_window
  | Own entry =>
      if (now - windowStart entry >? RATE_LIMIT_WINDOW_MS)%Z then new_window
      else if (count entry >=? RATE_LIMIT_MAX)%Z
      then ({| allowed := false; remaining := Some 0%Z |}, rateLimits)
      else
        let entry := {| count := count entry + 1; windowStart := windowStart entry |} in
        ({| allowed := true; remaining := Some (RATE_LIMIT_MAX - count entry)%Z |},
         <[friendName := entry]> rateLimits)
  | Inherited => ({| allowed := true; remaining := None |}, rateLimits)
  end.

Definition resetRateLimit (friendName : string) (rateLimits : gmap string RateEntry)
    : gmap string RateEntry :=
  delete friendName rateLimits.

Definition PAIR_LIMIT_WINDOW_MS : Z := 10 * 60 * 1000.
Definition PAIR_LIMIT_MAX : Z := 5.

(** The result is the field [allowed]. *)
Definition checkPairRequestLimit (now : Z) (identifier : string)
    (pairRequestLimits : gmap string RateEntry) : bool * gmap string RateEntry :=
  let new_window :=
    (true, <[identifier := {| count := 1; windowStart := now |}]> pairRequestLimits) in
  match get_property pairRequestLimits identifier with
  | Absent => new_window
  | Own entry =>
      if (now - windowStart entry >? PAIR_LIMIT_WINDOW_MS)%Z then new_window
      else if (count entry >=? PAIR_LIMIT_MAX)%Z then (false, pairRequestLimits)
      else
        let entry := {| count := count entry + 1; windowStart := windowStart entry |} in
        (true, <[identifier := entry]> pairRequestLimits)
  | Inherited => (true, pairRequestLimits)
  end.

End WithPrimitives.
End Auth.

(** ** lib/config.js *)
Module Config.

(** A stored time: the milliseconds [new Date(v).getTime()] gives for it,
    or [InvalidDate] when that is [NaN]. *)
Inductive DateValue : Type :=
  | ValidDate (ms : Z)
  | InvalidDate.

Inductive Direction : Type := incoming | outgoing.

#[global] Instance Direction_eq_dec : EqDecision Direction.
Proof. solve_decision. Defined.

(** An entry of [conversation_history]. *)
Record Message : Type := {
  msg_from : string;
  msg_message : string;
  msg_timestamp : DateValue;
  msg_direction : Direction;
}.

(** The JSON document [friends/<name>.json]. [status] is ['pending'] or
    ['paired'] in every record the code writes; [conversation_history] may
    be missing from a document. *)
Record Friend : Type := {
  name : string;
  webhook_url : string;
  token : string;
  status : string;
  paired_at : option Z;
  last_heartbeat : option Z;
  last_message_at : option Z;
  conversation_history : option (list Message);
}.

(** What [getConfig()] returns, the fields the engine reads. *)
Record Configuration : Type := {
  agentName : string;
  friendMode : string;
  maxExchangesPerConvo : Z;
  cooldownMinutes : Z;
}.

Section WithPrimitives.
Context {P : NodePrimitives}.

Definition OPENCLAW_DIR : list string := homedir ++ [".openclaw"].
Definition WORKSPACE_DIR : list string := OPENCLAW_DIR ++ ["workspace"].
Definition SKILL_DIR : list string := WORKSPACE_DIR ++ ["skills"; "agent-connect"].
Definition FRIENDS_DIR : list string := SKILL_DIR ++ ["friends"].
Definition MEMORY_DIR : list string := SKILL_DIR ++ ["memory"].

(** Where [path.join(FRIENDS_DIR, `${name}.json`)] leads. *)
Inductive Location : Type :=
  | InFriends (stem : string)   (* the file [friends/<stem>.json] *)
  | Elsewhere                   (* a subdirectory of [friends/], or a place outside it *)
  | NoFile.                     (* no path at all: the name has the character of code 0,
                                   on which [existsSync] answers [false] *)

(** The name is followed from [friends/] segment by segment, so [./bob],
    [x/../bob] and [../friends/bob] all lead to [friends/bob.json]. *)
Definition friend_file (name : string) : Location :=
  if bool_decide (zero ∈ list_ascii_of_string name) then NoFile
  else
    let file := path_join FRIENDS_DIR (name +:+ ".json") in
    match last file with
    | Some base =>
        if bool_decide (removelast file = FRIENDS_DIR) then
          match strip_suffix ".json" base with
          | Some stem => InFriends stem
          | None => Elsewhere
          end
        else Elsewhere
    | None => Elsewhere
    end.

(** [loadFriend(name)]: [None] is [null]. A name that leads out of
    [friends/] finds no file there (see the conventions). *)
Definition loadFriend (name : string) (friends : gmap string Friend) : option Friend :=
  match friend_file name with
  | InFriends stem => friends !! stem
  | _ => None
  end.

(** [saveFriend(name, data)], as far as [friends/] goes: a file written
    elsewhere leaves the directory as it is. (No caller passes a name with
    the character of code 0, on which [writeFileSync] throws.) *)
Definition saveFriend (name : string) (data : Friend) (friends : gmap string Friend)
    : gmap string Friend :=
  match friend_file name with
  | InFriends stem => <[stem := data]> friends
  | _ => friends
  end.

Definition deleteFriend (name : string) (friends : gmap string Friend)
    : gmap string Friend :=
  match friend_file name with
  | InFriends stem => delete stem friends
  | _ => friends
  end.

(** A character of the class [[a-zA-Z0-9_-]]. *)
Definition is_name_char (c : ascii) : bool :=
  let n := nat_of_ascii c in
  ((97 <=? n) && (n <=? 122)) || ((65 <=? n) && (n <=? 90)) ||
  ((48 <=? n) && (n <=? 57)) || bool_decide (c = "_"%char) || bool_decide (c = "-"%char).

(** [/^[a-zA-Z0-9_-]+$/.test(name) && name.length <= 64]; a name that
    passes the first test has one byte for each code unit. *)
Definition isValidName (name : string) : bool :=
  negb (bool_decide (name = "")) &&
  forallb is_name_char (list_ascii_of_string name) &&
  (String.length name <=? 64).

(** [msgTime > cutoff]; a comparison with [NaN] is false. *)
Definition newer_than (cutoff : Z) (t : DateValue) : bool :=
  match t with
  | ValidDate ms => (ms >? cutoff)%Z
  | InvalidDate => false
  end.

(** [now] is the value of [Date.now()]. *)
Definition getRecentExchangeCount (now : Z) (friendName : string) (windowMinutes : Z)
    (friends : gmap string Friend) : Z :=
  match loadFriend friendName friends with
  | None => 0
  | Some friend =>
      match conversation_history friend with
      | None => 0
      | Some history =>
          let cutoff := (now - windowMinutes * 60 * 1000)%Z in
          Z.of_nat (length (List.filter (λ m, newer_than cutoff (msg_timestamp m)) history))
      end
  end.

End WithPrimitives.
End Config.

(** ** What the message handler does outside the process

    [save_received_file from plaintext friends] stands for the [try] block
    of the message handler that receives a file (server.js, lines 219-232):
    it parses the plaintext with [JSON.parse], writes the bytes of
    [fileData.data] to [path.join(memory/<from>/files, fileData.filename)]
    and builds the line [[FILE: ...]] that replaces the plaintext. The file
    name is the sender's, so the file written can be any file, a record of
    [friends/] included: the result is the plaintext after the block (the
    one it had when the block threw before replacing it) and the directory
    [friends/] as the block leaves it.
    [exec_reply from friends] stands for
    [execSync(`node "<skill>/index.js" reply ${from}`)] in its [try]: a
    shell runs the line, in which [from] stands as it came; the result is
    the directory [friends/] as the command leaves it. *)
Class HostEffects : Type := {
  save_received_file :
    string → string → gmap string Config.Friend → string * gmap string Config.Friend;
  exec_reply : string → gmap string Config.Friend → gmap string Config.Friend;
}.

(** ** scripts/server.js *)
Module Server.
Section WithPrimitives.
Context {P : NodePrimitives} {E : HostEffects}.
Import Auth Config Crypto.

(** A value of a response body. *)
Inductive json : Type :=
  | JString (s : string)
  | JNumber (n : option Z).   (* [None] is NaN *)

(** What [sendJSON(res, statusCode, data)] sends. *)
Record Response : Type := { statusCode : Z; data : list (string * json) }.

Definition sendJSON (statusCode : Z) (data : list (string * json)) : Response :=
  {| statusCode := statusCode; data := data |}.

Definition has_field (key : string) (r : Response) : bool :=
  bool_decide (key ∈ (data r).*1).

(** The fields the handlers read from a parsed JSON body. A [Body] is a
    JSON value other than [null] whose fields [from], [token],
    [webhook_url], [message] and [message_type] are strings when they are
    present; a field that is missing or [null] is [None]. [body_encrypted]
    is the truth value of the field [encrypted]; [body_timestamp] is the
    field [timestamp] when it is truthy, as the date it denotes.
    A body with another JSON value in one of these fields is no [Body], and
    the handlers below say nothing about it: such a body makes the code
    convert the value where a string is expected (a [from] such as
    [{toString: 1}] makes [loadFriend] throw, which is answered 500) or
    store it as it is. *)
Record Body : Type := {
  body_from : option string;
  body_token : option string;
  body_webhook_url : option string;
  body_message : option string;
  body_encrypted : bool;
  body_message_type : option string;
  body_timestamp : option DateValue;
}.

(** An incoming request whose target has parsed: [pathname] is
    [url.pathname] for [url = new URL(req.url, ...)] (see [listener] for a
    target that does not parse). [parsed] is what [await parseBody(req)]
    gives: [Thrown] when the promise rejects (invalid JSON, body over 1MB,
    stream error), [Normal None] for the JSON value [null],
    [Normal (Some b)] otherwise (an empty body is [{}]). [clientIP] is
    [cf-connecting-ip || x-forwarded-for || socket.remoteAddress]. *)
Record Request : Type := {
  method : string;
  pathname : string;
  content_type : option string;
  authorization : option string;
  clientIP : string;
  parsed : completion (option Body);
}.

(** The state the handlers share: the directory [friends/], the two rate
    limit tables of lib/auth.js and the module's [startTime]. *)
Record State : Type := {
  friends : gmap string Friend;
  rateLimits : gmap string RateEntry;
  pairRequestLimits : gmap string RateEntry;
  startTime : Z;
}.

Definition with_friends (st : State) (fs : gmap string Friend) : State :=
  {| friends := fs; rateLimits := rateLimits st;
     pairRequestLimits := pairRequestLimits st; startTime := startTime st |}.

Definition with_rateLimits (st : State) (rl : gmap string RateEntry) : State :=
  {| friends := friends st; rateLimits := rl;
     pairRequestLimits := pairRequestLimits st; startTime := startTime st |}.

Definition with_pairRequestLimits (st : State) (rl : gmap string RateEntry) : State :=
  {| friends := friends st; rateLimits := rateLimits st;
     pairRequestLimits := rl; startTime := startTime st |}.

(** The clock reads of one request, in program order: [Date.now()] in the
    rate limiter, [new Date()] for an entry without timestamp, [new Date()]
    stamped on the record, [Date.now()] in the cooldown count. *)
Record Clock : Type := {
  t_limit : Z;
  t_entry : Z;
  t_saved : Z;
  t_cooldown : Z;
}.

(** What the handler decides about replying (lines 296-315). *)
Inductive ReplyAction : Type :=
  | AutoReply        (* runs [index.js reply <from>] through a shell *)
  | CooldownPause
  | ManualNotify.

(** The result of a handler: the response it sent, or [Thrown] when it
    threw before sending one; the state it leaves; and the reply it decided
    on, if it got that far. *)
Record Handled : Type := {
  response : completion Response;
  state : State;
  reply : option ReplyAction;
}.

Definition responds (r : Response) (st : State) : Handled :=
  {| response := Normal r; state := st; reply := None |}.

Definition throws (st : State) : Handled :=
  {| response := Thrown; state := st; reply := None |}.

(** [{ error }] or [{ friend }]. *)
Definition authenticateFriend (req : Request) (body : Body)
    (fs : gmap string Friend) : string + Friend :=
  let friendName := body_from body in
  if falsy friendName then inl ("Missing " +:+ quoted "from" +:+ " field")
  else
    let friendName := default "" friendName in
    match loadFriend friendName fs with
    | None => inl ("Unknown agent: " +:+ friendName)
    | Some friend =>
        if negb (bool_decide (status friend = "paired")) &&
           negb (bool_decide (status friend = "pending"))
        then inl ("Not paired with: " +:+ friendName)
        else
          match verifyBearerToken (authorization req) (token friend) with
          | Invalid error => inl error
          | Valid => inr friend
          end
    end.

(** GET /health. *)
Definition handleHealth (now : Z) (config : Configuration) (st : State) : Handled :=
  responds
    (sendJSON 200 [("status", JString "ok"); ("agent", JString (agentName config));
                   ("uptime", JNumber (Some ((now - startTime st) `div` 1000)%Z));
                   ("version", JString "2.0.0")])
    st.

(** POST /pair-request. *)
Definition handlePairRequest (clock : Clock) (req : Request) (st : State) : Handled :=
  let '(pairLimitCheck, limits) :=
    checkPairRequestLimit (t_limit clock) (clientIP req) (pairRequestLimits st) in
  let st := with_pairRequestLimits st limits in
  if negb pairLimitCheck
  then responds (sendJSON 429 [("error", JString "Too many pair requests. Try again later.")]) st
  else
    match parsed req with
    | Thrown => throws st
    | Normal None => throws st
    | Normal (Some body) =>
        if falsy (body_from body) || falsy (body_token body) || falsy (body_webhook_url body)
        then responds
               (sendJSON 400 [("error", JString "Missing required fields: from, token, webhook_url")])
               st
        else
          let from := default "" (body_from body) in
          if negb (isValidName from)
          then responds
                 (sendJSON 400
                    [("error", JString "Invalid agent name. Use only letters, numbers, dash, underscore.")])
                 st
          else
            let existing := loadFriend from (friends st) in
            if match existing with
               | Some existing => bool_decide (status existing = "paired")
               | None => false
               end
            then responds (sendJSON 409 [("error", JString ("Already paired with " +:+ from))]) st
            else
              responds
                (sendJSON 200 [("status", JString "pending");
                               ("message", JString ("Pair request received from " +:+ from))])
                (with_friends st
                   (saveFriend from
                      {| name := from;
                         webhook_url := default "" (body_webhook_url body);
                         token := default "" (body_token body);
                         status := "pending";
                         paired_at := None;
                         last_heartbeat := None;
                         last_message_at := None;
                         conversation_history := Some [] |}
                      (friends st)))
    end.

(** POST /pair-accept. *)
Definition handlePairAccept (clock : Clock) (req : Request) (st : State) : Handled :=
  match parsed req with
  | Thrown => throws st
  | Normal None => throws st
  | Normal (Some body) =>
      if falsy (body_from body)
      then responds (sendJSON 400 [("error", JString "Missing required field: from")]) st
      else
        let from := default "" (body_from body) in
        match loadFriend from (friends st) with
        | None => responds (sendJSON 404 [("error", JString ("No pending request for: " +:+ from))]) st
        | Some friend =>
            match verifyBearerToken (authorization req) (token friend) with
            | Invalid error => responds (sendJSON 401 [("error", JString error)]) st
            | Valid =>
                let friend :=
                  {| name := name friend;
                     webhook_url :=
                       if falsy (body_webhook_url body) then webhook_url friend
                       else default "" (body_webhook_url body);
                     token := token friend;
                     status := "paired";
                     paired_at := Some (t_saved clock);
                     last_heartbeat := last_heartbeat friend;
                     last_message_at := last_message_at friend;
                     conversation_history := conversation_history friend |} in
                responds
                  (sendJSON 200 [("status", JString "paired");
                                 ("message", JString ("Now paired with " +:+ from))])
                  (with_friends st (saveFriend from friend (friends st)))
            end
        end
  end.

(** [recordHeartbeat] of lib/heartbeat.js. *)
Definition recordHeartbeat (now : Z) (friendName : string) (fs : gmap string Friend)
    : gmap string Friend :=
  match loadFriend friendName fs with
  | None => fs
  | Some friend =>
      saveFriend friendName
        {| name := name friend; webhook_url := webhook_url friend; token := token friend;
           status := status friend; paired_at := paired_at friend;
           last_heartbeat := Some now;
           last_message_at := last_message_at friend;
           conversation_history := conversation_history friend |}
        fs
  end.

(** POST /heartbeat. *)
Definition handleHeartbeat (clock : Clock) (req : Request) (st : State) : Handled :=
  match parsed req with
  | Thrown => throws st
  | Normal None => throws st
  | Normal (Some body) =>
      if falsy (body_from body)
      then responds (sendJSON 400 [("error", JString ("Missing " +:+ quoted "from" +:+ " field"))]) st
      else
        let from := default "" (body_from body) in
        match loadFriend from (friends st) with
        | None => responds (sendJSON 401 [("error", JString "Not paired")]) st
        | Some friend =>
            if negb (bool_decide (status friend = "paired"))
            then responds (sendJSON 401 [("error", JString "Not paired")]) st
            else
              match verifyBearerToken (authorization req) (token friend) with
              | Invalid error => responds (sendJSON 401 [("error", JString error)]) st
              | Valid =>
                  responds (sendJSON 200 [("status", JString "ok")])
                    (with_friends st (recordHeartbeat (t_saved clock) from (friends st)))
              end
        end
  end.

(** The two constants [recentExchanges] and [overCooldown] of the message
    handler (lines 261-264), over the directory as it is once the message
    has been saved. *)
Definition recentExchanges (now : Z) (config : Configuration) (from : string)
    (fs : gmap string Friend) : Z :=
  getRecentExchangeCount now from (cooldownMinutes config) fs.

Definition overCooldown (now : Z) (config : Configuration) (from : string)
    (fs : gmap string Friend) : bool :=
  (recentExchanges now config from fs >=? maxExchangesPerConvo config)%Z.

(** POST /message. *)
Definition handleMessage (clock : Clock) (config : Configuration) (req : Request)
    (st : State) : Handled :=
  match parsed req with
  | Thrown => throws st
  | Normal None => throws st
  | Normal (Some body) =>
      match authenticateFriend req body (friends st) with
      | inl error => responds (sendJSON 401 [("error", JString error)]) st
      | inr friend =>
          let from := default "" (body_from body) in
          if falsy (body_message body)
          then responds
                 (sendJSON 400 [("error", JString ("Missing " +:+ quoted "message" +:+ " field"))])
                 st
          else
            let message := default "" (body_message body) in
            (* Rate limit check *)
            let '(rateCheck, limits) := checkRateLimit (t_limit clock) from (rateLimits st) in
            let st := with_rateLimits st limits in
            if negb (allowed rateCheck)
            then responds
                   (sendJSON 429 [("error", JString "Rate limit exceeded");
                                  ("retryAfterMs", JNumber (Some 60000%Z))])
                   st
            else
              (* Decrypt if encrypted *)
              let isFileMessage := bool_decide (body_message_type body = Some "file") in
              match (if body_encrypted body then decryptMessage message (token friend)
                     else Some message) with
              | None =>
                  responds
                    (sendJSON 400 [("error", JString "Decryption failed — message tampered or wrong key")])
                    st
              | Some plaintext =>
                  (* Handle file messages *)
                  let '(plaintext, written) :=
                    if isFileMessage then save_received_file from plaintext (friends st)
                    else (plaintext, friends st) in
                  (* Save to conversation history *)
                  let history :=
                    default [] (conversation_history friend) ++
                    [ {| msg_from := from;
                         msg_message := plaintext;
                         msg_timestamp := default (ValidDate (t_entry clock)) (body_timestamp body);
                         msg_direction := incoming |} ] in
                  (* Keep last 100 messages in config *)
                  let history :=
                    if (100 <? length history)%nat then slice_last 100 history else history in
                  let friend :=
                    {| name := name friend; webhook_url := webhook_url friend;
                       token := token friend; status := status friend;
                       paired_at := paired_at friend;
                       last_heartbeat := last_heartbeat friend;
                       last_message_at := Some (t_saved clock);
                       conversation_history := Some history |} in
                  let st := with_friends st (saveFriend from friend written) in
                  (* Check friend mode for reply behavior *)
                  let overCooldown := overCooldown (t_cooldown clock) config from (friends st) in
                  let action :=
                    if bool_decide (friendMode config = "auto") && negb overCooldown then AutoReply
                    else if bool_decide (friendMode config = "auto") && overCooldown then CooldownPause
                    else ManualNotify in
                  (* Mode-aware reply behavior *)
                  let st :=
                    match action with
                    | AutoReply => with_friends st (exec_reply from (friends st))
                    | _ => st
                    end in
                  {| response :=
                       Normal (sendJSON 200 [("status", JString "delivered");
                                             ("message", JString "Message received");
                                             ("remaining", JNumber (remaining rateCheck))]);
                     state := st;
                     reply := Some action |}
              end
      end
  end.

(** The [try] statement of the request listener of [startServer]: the
    routes, and the [catch] that turns an exception of a handler into a
    500. *)
Definition handleRequest (clock : Clock) (config : Configuration) (req : Request)
    (st : State) : Response * State :=
  let routed :=
    if negb (bool_decide (method req = "GET")) && negb (bool_decide (method req = "POST"))
    then responds (sendJSON 405 [("error", JString "Method not allowed")]) st
    else if bool_decide (method req = "GET") && bool_decide (pathname req = "/health")
    then handleHealth (t_limit clock) config st
    else if bool_decide (method req = "POST") then
      if negb (includes "application/json" (default "" (content_type req)))
      then responds (sendJSON 415 [("error", JString "Content-Type must be application/json")]) st
      else if bool_decide (pathname req = "/pair-request") then handlePairRequest clock req st
      else if bool_decide (pathname req = "/pair-accept") then handlePairAccept clock req st
      else if bool_decide (pathname req = "/message") then handleMessage clock config req st
      else if bool_decide (pathname req = "/heartbeat") then handleHeartbeat clock req st
      else responds (sendJSON 404 [("error", JString "Not found")]) st
    else responds (sendJSON 404 [("error", JString "Not found")]) st in
  (try_catch (response routed) (sendJSON 500 [("error", JString "Internal server error")]),
   state routed).



End WithPrimitives.
End Server.

(** ** scripts/remove-friend.js *)
Module RemoveFriend.
Section WithPrimitives.
Context {P : NodePrimitives}.
Import Config.

(** [args] is [process.argv.slice(2)]; the result is the exit code of the
    process and the directory [friends/] it leaves. *)
Definition main (args : list string) (fs : gmap string Friend) : Z * gmap string Friend :=
  let friendName := head args in
  if falsy friendName then (1%Z, fs)
  else
    let friendName := default "" friendName in
    match loadFriend friendName fs with
    | None => (1%Z, fs)
    | Some friend => (0%Z, deleteFriend friendName fs)
    end.

End WithPrimitives.
End RemoveFriend.

(** ** scripts/cancel-request.js *)
Module CancelRequest.
Section WithPrimitives.
Context {P : NodePrimitives}.
Import Config.

Definition main (args : list string) (fs : gmap string Friend) : Z * gmap string Friend :=
  let friendName := head args in
  if falsy friendName then (1%Z, fs)
  else
    let friendName := default "" friendName in
    match loadFriend friendName fs with
    | None => (1%Z, fs)
    | Some friend =>
        if bool_decide (status friend = "paired") then (1%Z, fs)
        else if negb (bool_decide (status friend = "pending")) then (1%Z, fs)
        else (0%Z, deleteFriend friendName fs)
    end.

End WithPrimitives.
End CancelRequest.

(** ** Requests a script sends

    The scripts and the heartbeat build a request in two steps, and both
    can throw: [new URL(path, address)] throws when the stored address is
    no URL ([valid_url address] tells whether it returns), and then
    [transport.request(url, options)] throws when the scheme of the URL is
    neither [http:] nor [https:] or when it refuses the value of a header
    ([request_accepted address authorization] tells whether it returns for
    this address and this [Authorization] header, [None] when the request
    has none). Nothing is sent when one of them throws. *)

(** ** scripts/send-message.js *)
Module SendMessage.
Section WithPrimitives.
Context {P : NodePrimitives}.
Import Config Crypto Server.

(** What comes back from the friend's server: nothing (a network error or
    the 15 s timeout), or a status code with a body that [JSON.parse]
    accepts or not. *)
Inductive Answer : Type :=
  | NoAnswer
  | Answered (statusCode : Z) (is_json : bool).

(** What the process did: its exit code, the [Authorization] header and
    the JSON payload it sent (if it got that far), and the directory
    [friends/] it leaves. *)
Record Run : Type := {
  exit_code : Z;
  sent : option (string * Body);
  saved : gmap string Friend;
}.

(** [args] is [process.argv.slice(2)], [now] the value of [new Date()],
    [iv] the nonce drawn by [encryptMessage], [answer] what the friend's
    server answers to the request. An exception of [new URL] or of
    [transport.request] is caught by nobody and ends the process with
    code 1. *)
Definition main (valid_url : string → bool)
    (request_accepted : string → option string → bool)
    (now : Z) (config : Configuration) (args : list string)
    (iv : list byte) (answer : Answer) (fs : gmap string Friend) : Run :=
  let friendName := head args in
  let message := String.concat " " (tail args) in
  if falsy friendName || falsy (Some message)
  then {| exit_code := 1; sent := None; saved := fs |}
  else
    let friendName := default "" friendName in
    match loadFriend friendName fs with
    | None => {| exit_code := 1; sent := None; saved := fs |}
    | Some friend =>
        if negb (bool_decide (status friend = "paired"))
        then {| exit_code := 1; sent := None; saved := fs |}
        else
          let timestamp := now in
          (* Encrypt message with shared token (E2E) *)
          let encrypted := encryptMessage message (token friend) iv in
          let payload :=
            {| body_from := Some (agentName config);
               body_token := None;
               body_webhook_url := None;
               body_message := Some encrypted;
               body_encrypted := true;
               body_message_type := None;
               body_timestamp := Some (ValidDate timestamp) |} in
          let authorization := "Bearer " +:+ token friend in
          let request := (authorization, payload) in
          if negb (valid_url (webhook_url friend)) ||
             negb (request_accepted (webhook_url friend) (Some authorization))
          then {| exit_code := 1; sent := None; saved := fs |}
          else
          match answer with
          | Answered statusCode true =>
              if bool_decide (statusCode = 200%Z) then
                (* Save to conversation history *)
                let history :=
                  default [] (conversation_history friend) ++
                  [ {| msg_from := agentName config;
                       msg_message := message;
                       msg_timestamp := ValidDate timestamp;
                       msg_direction := outgoing |} ] in
                (* Keep last 100 messages *)
                let history :=
                  if (100 <? length history)%nat then slice_last 100 history else history in
                let friend :=
                  {| name := name friend; webhook_url := webhook_url friend;
                     token := token friend; status := status friend;
                     paired_at := paired_at friend;
                     last_heartbeat := last_heartbeat friend;
                     last_message_at := Some timestamp;
                     conversation_history := Some history |} in
                {| exit_code := 0; sent := Some request;
                   saved := saveFriend friendName friend fs |}
              else {| exit_code := 0; sent := Some request; saved := fs |}
          | _ => {| exit_code := 0; sent := Some request; saved := fs |}
          end
    end.

End WithPrimitives.
End SendMessage.

(** ** scripts/watchdog.js *)
Module Watchdog.

Definition MIN_RESTART_DELAY : Z := 1000.
Definition MAX_RESTART_DELAY : Z := 60000.
Definition RESET_AFTER_MS : Z := 300000.

(** The two variables of the module. *)
Record Backoff : Type := { restartDelay : Z; restartCount : Z }.

Definition initial : Backoff :=
  {| restartDelay := MIN_RESTART_DELAY; restartCount := 0 |}.

(** The listener of the child's [exit] event in [startServer]. [runtime] is
    [Date.now() - startedAt]; the result is the delay handed to
    [setTimeout] for the restart, and the variables afterwards. *)
Definition on_exit (runtime : Z) (w : Backoff) : Z * Backoff :=
  (* If it ran for a while, reset the backoff *)
  let w := if (runtime >? RESET_AFTER_MS)%Z
           then {| restartDelay := MIN_RESTART_DELAY; restartCount := 0 |}
           else w in
  let restartCount := (restartCount w + 1)%Z in
  (* Exponential backoff *)
  let scheduled := restartDelay w in
  (scheduled,
   {| restartDelay := Z.min (restartDelay w * 2) MAX_RESTART_DELAY;
      restartCount := restartCount |}).

(** The supervisor over a sequence of child runs, each given by how long
    it ran before it exited: the delays of the restarts, in order. *)
Fixpoint supervise (runtimes : list Z) (w : Backoff) : list Z :=
  match runtimes with
  | [] => []
  | runtime :: rest =>
      let '(delay, w) := on_exit runtime w in
      delay :: supervise rest w
  end.

End Watchdog.

(** ** A small instance of the primitives

    For evaluating the model on concrete requests. It satisfies the laws of
    [NodePrimitivesLaws] and is no cryptography: the digest pads or cuts its
    input to 32 bytes, the cipher reverses the plaintext, and the tag is the
    first 16 bytes of the key. The encoder is the bytes of the string, with
    U+FFFD for a lone surrogate, as [Buffer.from] gives them. *)
Module Sample.

Definition pad_to (n : nat) (b : list byte) : list byte :=
  take n (b ++ replicate n x00).

Definition tag_of (key : list byte) : list byte := pad_to 16 key.

#[export] Instance primitives : NodePrimitives := {|
  sha256 := pad_to 32;
  utf8_encode s := list_byte_of_string (toWellFormed s);
  utf8_decode := string_of_list_byte;
  base64_encode := string_of_list_byte;
  base64_decode := list_byte_of_string;
  gcm_encrypt key iv pt := (rev pt, tag_of key);
  gcm_decrypt key iv ct tag :=
    if bool_decide (tag = tag_of key) then Some (rev ct) else None;
  homedir := ["home"; "alice"];
|}.

(** No message is a file that parses, and the reply command changes
    nothing. *)
#[export] Instance host : HostEffects := {|
  save_received_file from plaintext friends := (plaintext, friends);
  exec_reply from friends := friends;
|}.

Definition config : Config.Configuration :=
  {| Config.agentName := "alice"; Config.friendMode := "manual";
     Config.maxExchangesPerConvo := 6; Config.cooldownMinutes := 30 |}.

Definition clock (now : Z) : Server.Clock :=
  {| Server.t_limit := now; Server.t_entry := now;
     Server.t_saved := now; Server.t_cooldown := now |}.

(** A friend record as [handlePairRequest] creates it, with a status. *)
Definition friend (name token status : string) : Config.Friend :=
  {| Config.name := name; Config.webhook_url := "https://bob.example";
     Config.token := token; Config.status := status;
     Config.paired_at := None; Config.last_heartbeat := None;
     Config.last_message_at := None; Config.conversation_history := Some [] |}.

Definition state (fs : gmap string Config.Friend) : Server.State :=
  {| Server.friends := fs; Server.rateLimits := ∅;
     Server.pairRequestLimits := ∅; Server.startTime := 0 |}.

(** A body with the fields [from] and [message], in clear. *)
Definition body (from message : option string) : Server.Body :=
  {| Server.body_from := from; Server.body_token := None;
     Server.body_webhook_url := None; Server.body_message := message;
     Server.body_encrypted := false; Server.body_message_type := None;
     Server.body_timestamp := None |}.

(** A JSON POST to /message. *)
Definition post_message (authorization : option string)
    (parsed : completion (option Server.Body)) : Server.Request :=
  {| Server.method := "POST"; Server.pathname := "/message";
     Server.content_type := Some "application/json";
     Server.authorization := authorization;
     Server.clientIP := "203.0.113.7";
     Server.parsed := parsed |}.

(** A JSON POST to /pair-request. *)
Definition post_pair_request (from token : string) : Server.Request :=
  {| Server.method := "POST"; Server.pathname := "/pair-request";
     Server.content_type := Some "application/json";
     Server.authorization := None;
     Server.clientIP := "203.0.113.7";
     Server.parsed :=
       Normal (Some {| Server.body_from := Some from; Server.body_token := Some token;
                       Server.body_webhook_url := Some "https://bob.example";
                       Server.body_message := None; Server.body_encrypted := false;
                       Server.body_message_type := None;
                       Server.body_timestamp := None |}) |}.

(** A token as [generatePairToken] makes them: 64 hexadecimal digits. *)
Definition token64 : string :=
  "00112233445566778899aabbccddeeff00112233445566778899aabbccddeeff".

End Sample.

(** ** Sequences of calls

    The definitions the statements below use to speak about several calls
    in a row and about the stored history of a friend. *)
Module Runs.
Section WithPrimitives.
Context {P : NodePrimitives} {E : HostEffects}.
Import Auth Config Server.

(** [checkRateLimit] called for one subject at each of [times], in order:
    the results, and the table afterwards. *)
Fixpoint check_all (friendName : string) (times : list Z)
    (rateLimits : gmap string RateEntry) : list RateCheck * gmap string RateEntry :=
  match times with
  | [] => ([], rateLimits)
  | now :: rest =>
      let '(r, rateLimits) := checkRateLimit now friendName rateLimits in
      let '(rs, rateLimits) := check_all friendName rest rateLimits in
      (r :: rs, rateLimits)
  end.

(** The result of the call number [i] (from 0) after a counter that stands
    at [c]. *)
Definition nth_check (c : Z) (i : nat) : RateCheck :=
  if (c + Z.of_nat i <? 10)%Z
  then {| allowed := true; remaining := Some (10 - (c + Z.of_nat i + 1))%Z |}
  else {| allowed := false; remaining := Some 0%Z |}.

(** The server answering the requests of [reqs] one after the other, each
    with its clock: the status codes, and the state afterwards. *)
Fixpoint serve_all (config : Configuration) (reqs : list (Clock * Request))
    (st : State) : list Z * State :=
  match reqs with
  | [] => ([], st)
  | (clock, req) :: rest =>
      let '(r, st) := handleRequest clock config req st in
      let '(codes, st) := serve_all config rest st in
      (statusCode r :: codes, st)
  end.

(** The conversation history of the record [loadFriend] finds for
    [friendName] ([[]] when it finds none or the record has no history). *)
Definition stored_history (friendName : string) (fs : gmap string Friend) : list Message :=
  match loadFriend friendName fs with
  | Some friend => default [] (conversation_history friend)
  | None => []
  end.

(** The entry the message handler pushes for the sender [from] of [body],
    with the text [message]. *)
Definition incoming_entry (clock : Clock) (from message : string) (body : Body)
    : Message :=
  {| msg_from := from;
     msg_message := message;
     msg_timestamp := default (ValidDate (t_entry clock)) (body_timestamp body);
     msg_direction := incoming |}.

(** The record [friend] as the message handler and [send-message] store it
    again: [entry] pushed on its history, the last 100 entries kept, and
    [now] as the time of the last message. *)
Definition appended (friend : Friend) (entry : Message) (now : Z) : Friend :=
  let history := default [] (conversation_history friend) ++ [entry] in
  let history :=
    if (100 <? length history)%nat then slice_last 100 history else history in
  {| name := name friend; webhook_url := webhook_url friend;
     token := token friend; status := status friend;
     paired_at := paired_at friend;
     last_heartbeat := last_heartbeat friend;
     last_message_at := Some now;
     conversation_history := Some history |}.

(** What the message handler makes of the plaintext of a message and of
    the directory before it stores the entry: the outcome of the block that
    receives a file when the message is one, the two as they are when it is
    not. *)
Definition received (from plaintext : string) (body : Body) (fs : gmap string Friend)
    : string * gmap string Friend :=
  if bool_decide (body_message_type body = Some "file")
  then save_received_file from plaintext fs
  else (plaintext, fs).

(** The bound on the history: [kept] is what is stored after [entry] has
    been appended to [old], namely the most recent entries of [old] followed
    by [entry], in their order, the oldest ones evicted beyond 100. *)
Definition keeps_latest_100 (old : list Message) (entry : Message)
    (kept : list Message) : Prop :=
  ∃ evicted, old ++ [entry] = evicted ++ kept ∧
             length kept = Nat.min 100 (length old + 1).

(** The specification's window, the trailing [cooldownMinutes]: an entry
    counts when its timestamp is a date of the last [cooldownMinutes]
    minutes, later than [cooldownMinutes] before [now] and not later than
    [now]. *)
Definition within_window (now cooldownMinutes : Z) (m : Message) : Prop :=
  ∃ ms, msg_timestamp m = ValidDate ms ∧
        (now - cooldownMinutes * 60 * 1000 < ms ≤ now)%Z.

#[export] Instance within_window_dec now cooldownMinutes m :
  Decision (within_window now cooldownMinutes m).
Proof.
  unfold within_window. destruct (msg_timestamp m) as [ms|].
  - destruct (decide (now - cooldownMinutes * 60 * 1000 < ms ≤ now)%Z) as [H|H].
    + left. eauto.
    + right. intros (ms' & [= <-] & ?). done.
  - right. intros (ms' & ? & ?). done.
Defined.


(** An entry dated after [now]. *)
Definition dated_ahead (now : Z) (m : Message) : Prop :=
  ∃ ms, msg_timestamp m = ValidDate ms ∧ (now < ms)%Z.

#[export] Instance dated_ahead_dec now m : Decision (dated_ahead now m).
Proof.
  unfold dated_ahead. destruct (msg_timestamp m) as [ms|].
  - destruct (decide (now < ms)%Z) as [H|H].
    + left. eauto.
    + right. intros (ms' & [= <-] & ?). done.
  - right. intros (ms' & ? & ?). done.
Defined.


End WithPrimitives.
End Runs.

(** ** lib/heartbeat.js: presence *)
Module Heartbeat.
Import Config Server.

Definition HEARTBEAT_INTERVAL_MS : Z := 30 * 1000.
Definition ONLINE_THRESHOLD_MS : Z := 90 * 1000.

(** [isOnline(friendConfig)]; [now] is the value of [Date.now()], and
    [None] a configuration that is [null]. *)
Definition isOnline (now : Z) (friendConfig : option Friend) : bool :=
  match friendConfig with
  | None => false
  | Some friendConfig =>
      match last_heartbeat friendConfig with
      | None => false
      | Some lastSeen => (now - lastSeen <? ONLINE_THRESHOLD_MS)%Z
      end
  end.

(** [pingFriend(friendConfig, agentName)]: the request it sends, if any
    (the [Authorization] header and the JSON payload), or [Thrown] when
    [new URL('/heartbeat', friendConfig.webhook_url)] or
    [transport.request] throws. [now] is the value of [Date.now()]. *)
Definition pingFriend (valid_url : string → bool)
    (request_accepted : string → option string → bool) (now : Z)
    (friendConfig : option Friend) (agentName : string)
    : completion (option (string * Body)) :=
  match friendConfig with
  | None => Normal None
  | Some friendConfig =>
      if falsy (Some (webhook_url friendConfig)) ||
         negb (bool_decide (status friendConfig = "paired"))
      then Normal None
      else
        let payload :=
          {| body_from := Some agentName;
             body_token := None;
             body_webhook_url := None;
             body_message := None;
             body_encrypted := false;
             body_message_type := None;
             body_timestamp := Some (ValidDate now) |} in
        let authorization := "Bearer " +:+ token friendConfig in
        if negb (valid_url (webhook_url friendConfig)) ||
           negb (request_accepted (webhook_url friendConfig) (Some authorization))
        then Thrown
        else Normal (Some (authorization, payload))
  end.

End Heartbeat.

(** ** scripts/accept-friend.js *)
Module AcceptFriend.
Section WithPrimitives.
Context {P : NodePrimitives}.
Import Config Server.

(** What the process did: its exit code, the [Authorization] header and
    the JSON payload of the POST to /pair-accept it sent (if it got that
    far), and the directory [friends/] it leaves. *)
Record Run : Type := {
  exit_code : Z;
  sent : option (string * Body);
  saved : gmap string Friend;
}.

(** [args] is [process.argv.slice(2)], [now] the value of [new Date()],
    [myUrl] the value of [config.tunnelUrl || `http://localhost:${config.port}`].
    An exception of [new URL] or of [transport.request] ends the process
    with code 1, after the record has been saved. The answer of the
    friend's server is only printed. *)
Definition main (valid_url : string → bool)
    (request_accepted : string → option string → bool) (now : Z)
    (config : Configuration) (myUrl : string) (args : list string)
    (fs : gmap string Friend) : Run :=
  let friendName := head args in
  if falsy friendName then {| exit_code := 1; sent := None; saved := fs |}
  else
    let friendName := default "" friendName in
    match loadFriend friendName fs with
    | None => {| exit_code := 1; sent := None; saved := fs |}
    | Some friend =>
        if bool_decide (status friend = "paired")
        then {| exit_code := 0; sent := None; saved := fs |}
        else if negb (bool_decide (status friend = "pending"))
        then {| exit_code := 1; sent := None; saved := fs |}
        else
          (* Update local friend status *)
          let friend :=
            {| name := name friend; webhook_url := webhook_url friend;
               token := token friend; status := "paired";
               paired_at := Some now;
               last_heartbeat := last_heartbeat friend;
               last_message_at := last_message_at friend;
               conversation_history := conversation_history friend |} in
          (* Notify the friend's webhook *)
          let payload :=
            {| body_from := Some (agentName config);
               body_token := None;
               body_webhook_url := Some myUrl;
               body_message := None;
               body_encrypted := false;
               body_message_type := None;
               body_timestamp := None |} in
          let fs := saveFriend friendName friend fs in
          let authorization := "Bearer " +:+ token friend in
          if negb (valid_url (webhook_url friend)) ||
             negb (request_accepted (webhook_url friend) (Some authorization))
          then {| exit_code := 1; sent := None; saved := fs |}
          else
            {| exit_code := 0;
               sent := Some (authorization, payload);
               saved := fs |}
    end.

End WithPrimitives.
End AcceptFriend.

(** ** scripts/add-friend.js *)
Module AddFriend.
Section WithPrimitives.
Context {P : NodePrimitives}.
Import Config Server.

(** What the process did: its exit code, the JSON payload of the POST to
    /pair-request it sent (if it got that far; the request carries no
    [Authorization] header), and the directory [friends/] it leaves. *)
Record Run : Type := {
  exit_code : Z;
  sent : option Body;
  saved : gmap string Friend;
}.

(** [args] is [process.argv.slice(2)], [token] the value of
    [generatePairToken()], [myUrl] the value of
    [config.tunnelUrl || `http://localhost:${config.port}`]. An exception of
    [new URL] or of [transport.request] ends the process with code 1, after
    the record has been saved. The answer of the friend's server is only
    printed. *)
Definition main (valid_url : string → bool)
    (request_accepted : string → option string → bool) (token : string)
    (config : Configuration) (myUrl : string) (args : list string)
    (fs : gmap string Friend) : Run :=
  let friendName := args !! 0%nat in
  let friendUrl := args !! 1%nat in
  if falsy friendName || falsy friendUrl
  then {| exit_code := 1; sent := None; saved := fs |}
  else
    let friendName := default "" friendName in
    let friendUrl := default "" friendUrl in
    if negb (isValidName friendName)
    then {| exit_code := 1; sent := None; saved := fs |}
    else
      (* Check if already friends *)
      let existing := loadFriend friendName fs in
      if match existing with
         | Some existing => bool_decide (status existing = "paired")
         | None => false
         end
      then {| exit_code := 1; sent := None; saved := fs |}
      else if falsy (Some (agentName config)) ||
              bool_decide (agentName config = "unnamed-agent")
      then {| exit_code := 1; sent := None; saved := fs |}
      else
        (* Save friend locally (pending) *)
        let fs :=
          saveFriend friendName
            {| name := friendName;
               webhook_url := friendUrl;
               token := token;
               status := "pending";
               paired_at := None;
               last_heartbeat := None;
               last_message_at := None;
               conversation_history := Some [] |}
            fs in
        (* Send pair request *)
        let payload :=
          {| body_from := Some (agentName config);
             body_token := Some token;
             body_webhook_url := Some myUrl;
             body_message := None;
             body_encrypted := false;
             body_message_type := None;
             body_timestamp := None |} in
        if negb (valid_url friendUrl) || negb (request_accepted friendUrl None)
        then {| exit_code := 1; sent := None; saved := fs |}
        else {| exit_code := 0; sent := Some payload; saved := fs |}.

End WithPrimitives.
End AddFriend.

(** ** scripts/group.js *)
Module Group.
Section WithPrimitives.
Context {P : NodePrimitives}.
Import Config Crypto Server.

(** The JSON document [groups/<name>.json]. *)
Record GroupData : Type := {
  group_name : string;
  members : list string;
  created_at : Z;
  created_by : string;
}.

Definition loadGroup (name : string) (groups : gmap string GroupData) : option GroupData :=
  groups !! name.

Definition saveGroup (name : string) (data : GroupData) (groups : gmap string GroupData)
    : gmap string GroupData :=
  <[name := data]> groups.

Definition deleteGroup (name : string) (groups : gmap string GroupData)
    : gmap string GroupData :=
  delete name groups.

(** [!f || f.status !== 'paired'] for [f = loadFriend(m)]. *)
Definition not_paired (m : string) (fs : gmap string Friend) : bool :=
  match loadFriend m fs with
  | None => true
  | Some f => negb (bool_decide (status f = "paired"))
  end.

(** The case [create] of [main]; [args] is [process.argv.slice(2)], with
    the subcommand in front. The result is the exit code and the directory
    [groups/]. *)
Definition create (now : Z) (config : Configuration) (args : list string)
    (fs : gmap string Friend) (groups : gmap string GroupData)
    : Z * gmap string GroupData :=
  let groupName := args !! 1%nat in
  let members := drop 2 args in
  if falsy groupName || bool_decide (length members = 0%nat) then (1%Z, groups)
  else
    (* Validate all members are paired friends *)
    if existsb (λ m, not_paired m fs) members then (1%Z, groups)
    else
      let groupName := default "" groupName in
      (0%Z,
       saveGroup groupName
         {| group_name := groupName; members := members;
            created_at := now; created_by := agentName config |}
         groups).

(** The case [add]. *)
Definition add (args : list string) (fs : gmap string Friend)
    (groups : gmap string GroupData) : Z * gmap string GroupData :=
  let groupName := args !! 1%nat in
  let friendName := args !! 2%nat in
  if falsy groupName || falsy friendName then (1%Z, groups)
  else
    let groupName := default "" groupName in
    let friendName := default "" friendName in
    match loadGroup groupName groups with
    | None => (1%Z, groups)
    | Some group =>
        if bool_decide (friendName ∈ members group) then (0%Z, groups)
        else if not_paired friendName fs then (1%Z, groups)
        else
          (0%Z,
           saveGroup groupName
             {| group_name := group_name group;
                members := members group ++ [friendName];
                created_at := created_at group; created_by := created_by group |}
             groups)
    end.


(** What [sendToFriend] resolves to: [{ friend, success, error? }]. *)
Record Outcome : Type := {
  friend : string;
  success : bool;
  error : option string;
}.

(** What comes back from a member's server: a network error with its
    message, the 10 s timeout, or a status code with the body received. *)
Inductive Answer : Type :=
  | NetworkError (message : string)
  | Timeout
  | Answered (statusCode : Z) (data : string).

(** [sendToFriend(friendName, message, config)]: the request it hands to
    the transport, if any (the [Authorization] header and the JSON
    payload), and what the promise settles to: [Normal] when it resolves,
    [Thrown] when it rejects, which it does when
    [new URL('/message', friend.webhook_url)] or [transport.request] throws
    in the executor. [now] is the value of [new Date()], [iv] the nonce
    drawn by [encryptMessage], [answer] what the member's server answers. *)
Definition sendToFriend (valid_url : string → bool)
    (request_accepted : string → option string → bool) (now : Z) (iv : list byte)
    (answer : Answer) (friendName message : string) (config : Configuration)
    (fs : gmap string Friend) : option (string * Body) * completion Outcome :=
  match loadFriend friendName fs with
  | None =>
      (None, Normal {| friend := friendName; success := false; error := Some "not paired" |})
  | Some f =>
      if negb (bool_decide (status f = "paired"))
      then (None,
            Normal {| friend := friendName; success := false; error := Some "not paired" |})
      else if negb (valid_url (webhook_url f)) ||
              negb (request_accepted (webhook_url f) (Some ("Bearer " +:+ token f)))
      then (None, Thrown)
      else
        let encrypted := encryptMessage message (token f) iv in
        let payload :=
          {| body_from := Some (agentName config);
             body_token := None;
             body_webhook_url := None;
             body_message := Some encrypted;
             body_encrypted := true;
             body_message_type := None;
             body_timestamp := Some (ValidDate now) |} in
        (Some ("Bearer " +:+ token f, payload),
         Normal
           match answer with
           | Answered statusCode data =>
               if bool_decide (statusCode = 200%Z)
               then {| friend := friendName; success := true; error := None |}
               else {| friend := friendName; success := false; error := Some data |}
           | NetworkError message =>
               {| friend := friendName; success := false; error := Some message |}
           | Timeout => {| friend := friendName; success := false; error := Some "timeout" |}
           end)
  end.

(** [await Promise.all(promises)]: the values in order, or the rejection
    of one of them. *)
Fixpoint Promise_all {A} (promises : list (completion A)) : completion (list A) :=
  match promises with
  | [] => Normal []
  | p :: rest =>
      bind_completion p (λ a,
      bind_completion (Promise_all rest) (λ l, Normal (a :: l)))
  end.

(** What the case [send] did: the exit code, the request sent to each
    member (if one was sent), and the results it printed ([None] when it
    printed none). *)
Record Broadcast : Type := {
  exit_code : Z;
  requests : list (option (string * Body));
  results : option (list Outcome);
}.

(** The case [send]. The member at position [i] is sent to at time
    [now i] with nonce [iv i] and gets the answer [answer i]. A rejection
    is caught by [main().catch], which ends the process with code 1; it
    does so before the event loop has opened a socket, so that none of the
    requests handed to the transport is sent. *)
Definition send (valid_url : string → bool)
    (request_accepted : string → option string → bool) (now : nat → Z)
    (iv : nat → list byte) (answer : nat → Answer) (config : Configuration)
    (args : list string) (fs : gmap string Friend) (groups : gmap string GroupData)
    : Broadcast :=
  let groupName := args !! 1%nat in
  let message := String.concat " " (drop 2 args) in
  if falsy groupName || falsy (Some message)
  then {| exit_code := 1; requests := []; results := None |}
  else
    match loadGroup (default "" groupName) groups with
    | None => {| exit_code := 1; requests := []; results := None |}
    | Some group =>
        let promises :=
          imap (λ i m, sendToFriend valid_url request_accepted (now i) (iv i) (answer i)
                         m message config fs)
            (members group) in
        match Promise_all promises.*2 with
        | Normal results =>
            {| exit_code := 0; requests := promises.*1; results := Some results |}
        | Thrown => {| exit_code := 1; requests := []; results := None |}
        end
    end.

End WithPrimitives.
End Group.

(** ** lib/telegram.js: escaping *)
Module Telegram.

(** [s.replace(/c/g, by)] for a one-character pattern. *)
Fixpoint replace_all (c : ascii) (by_ : string) (s : string) : string :=
  match s with
  | EmptyString => EmptyString
  | String x rest =>
      if bool_decide (x = c) then by_ +:+ replace_all c by_ rest
      else String x (replace_all c by_ rest)
  end.

(** [escapeHtml(text)] for a string ([''] is falsy and gives ['']). *)
Definition escapeHtml (text : string) : string :=
  if falsy (Some text) then ""
  else replace_all ">" "&gt;" (replace_all "<" "&lt;" (replace_all "&" "&amp;" text)).

End Telegram.

(** ** lib/auth.js: token generation *)
Module AuthToken.

Definition hex_digits : list ascii := list_ascii_of_string "0123456789abcdef".

(** The two lower-case hexadecimal digits of a byte. *)
Definition hex_of_byte (b : byte) : string :=
  let n := Byte.to_nat b in
  String (nth (n / 16) hex_digits "0"%char)
    (String (nth (n mod 16) hex_digits "0"%char) EmptyString).

(** [buf.toString('hex')]. *)
Fixpoint to_hex (buf : list byte) : string :=
  match buf with
  | [] => EmptyString
  | b :: rest => hex_of_byte b +:+ to_hex rest
  end.

(** [random] is the value of [crypto.randomBytes(32)]. *)
Definition generatePairToken (random : list byte) : string :=
  to_hex random.

End AuthToken.

(** ** scripts/reply.js *)
Module Reply.
Section WithPrimitives.
Context {P : NodePrimitives}.
Import Config.

(** The constants [history] and [latestMessage] of [main]. *)
Definition history (friend : Friend) : list Message :=
  slice_last 10 (default [] (conversation_history friend)).

Definition latestMessage (friend : Friend) : string :=
  match last (List.filter (λ m, bool_decide (msg_direction m = incoming)) (history friend)) with
  | Some latestIncoming => msg_message latestIncoming
  | None => "(no message)"
  end.

(** [args] is [process.argv.slice(2)]; the result is the exit code and
    the text printed after [Their message:], if the script gets that far. *)
Definition main (args : list string) (fs : gmap string Friend) : Z * option string :=
  let friendName := head args in
  if falsy friendName then (1%Z, None)
  else
    match loadFriend (default "" friendName) fs with
    | None => (1%Z, None)
    | Some friend => (0%Z, Some (latestMessage friend))
    end.

End WithPrimitives.
End Reply.

(** ** scripts/auto-chat.js *)
Module AutoChat.
Section WithPrimitives.
Context {P : NodePrimitives}.
Import Config Heartbeat.

(** [arr.indexOf(x)]; [None] is [-1]. *)
Fixpoint indexOf (x : string) (arr : list string) : option nat :=
  match arr with
  | [] => None
  | y :: rest => if bool_decide (y = x) then Some 0 else S <$> indexOf x rest
  end.

(** [listFriends()] of lib/config.js: the records of the directory, in
    the order of [readdir]. *)
Definition listFriends (fs : gmap string Friend) : list Friend :=
  (map_to_list fs).*2.

(** The names of the friends [main] initiates a conversation with, in
    order. [args] is [process.argv.slice(2)]; [t_online n] and [t_count n]
    are the values of [Date.now()] in [isOnline] and in
    [getRecentExchangeCount] when the loop is at the friend named [n]. *)
Definition main (t_online t_count : string → Z) (config : Configuration)
    (args : list string) (fs : gmap string Friend) : list string :=
  let targetFriend :=
    match indexOf "--friend" args with
    | Some friendArgIdx => args !! (friendArgIdx + 1)
    | None => None
    end in
  if negb (bool_decide (friendMode config = "auto")) then []
  else
    let friends :=
      if negb (falsy targetFriend)
      then option_list (loadFriend (default "" targetFriend) fs)
      else List.filter (λ f, bool_decide (status f = "paired")) (listFriends fs) in
    name <$>
      List.filter
        (λ friend,
           let online := isOnline (t_online (name friend)) (Some friend) in
           let recentExchanges :=
             getRecentExchangeCount (t_count (name friend)) (name friend)
               (cooldownMinutes config) fs in
           let onCooldown := (recentExchanges >=? maxExchangesPerConvo config)%Z in
           online && negb onCooldown)
        friends.

End WithPrimitives.
End AutoChat.

(** ** scripts/send-file.js: the MIME type *)
Module SendFile.

(** The object literal [mimes] of [getMimeType]. *)
Definition mimes : gmap string string :=
  list_to_map
    [ ("png", "image/png"); ("jpg", "image/jpeg"); ("jpeg", "image/jpeg");
      ("gif", "image/gif"); ("webp", "image/webp"); ("svg", "image/svg+xml");
      ("bmp", "image/bmp"); ("pdf", "application/pdf"); ("txt", "text/plain");
      ("md", "text/markdown"); ("json", "application/json"); ("csv", "text/csv");
      ("zip", "application/zip"); ("tar", "application/x-tar");
      ("mp3", "audio/mpeg"); ("wav", "audio/wav"); ("mp4", "video/mp4") ].

(** What [getMimeType] returns: a string, or, when [ext] is a key of
    [Object.prototype], the member inherited under that key (a function, or
    the prototype itself for [__proto__]), which is truthy and so is
    returned as it is. *)
Inductive MimeType : Type :=
  | MimeString (s : string)
  | InheritedMember.

Definition getMimeType (ext : string) : MimeType :=
  match get_property mimes ext with
  | Own m => if falsy (Some m) then MimeString "application/octet-stream" else MimeString m
  | Absent => MimeString "application/octet-stream"
  | Inherited => InheritedMember
  end.

End SendFile.

(** ** From a script to the listener of the peer *)
Module Wire.
Import Server.

(** The request as the listener of the peer sees it when a script has
    sent [payload] to the path [pathname] with the header [authorization]:
    a POST with the content type [application/json], which all the scripts
    set; [ip] is the address it comes from. [parseBody] rejects a body of
    more than 1024 * 1024 characters and otherwise parses it back to the
    payload; [too_large payload] tells whether [JSON.stringify(payload)] is
    that long. *)
Definition posted (too_large : Body → bool) (pathname : string)
    (authorization : option string) (ip : string) (payload : Body) : Request :=
  {| method := "POST";
     pathname := pathname;
     content_type := Some "application/json";
     authorization := authorization;
     clientIP := ip;
     parsed := if too_large payload then Thrown else Normal (Some payload) |}.

End Wire.

(** ** What one request may do to the directory

    The two ways in which the request listener changes [friends/], as the
    statements below speak of them. *)
Module Effects.
Section WithPrimitives.
Context {P : NodePrimitives} {E : HostEffects}.
Import Auth Config Server.

(** The record [handlePairRequest] stores for the sender [n] of [body]. *)
Definition requested (n : string) (body : Body) : Friend :=
  {| name := n;
     webhook_url := default "" (body_webhook_url body);
     token := default "" (body_token body);
     status := "pending";
     paired_at := None;
     last_heartbeat := None;
     last_message_at := None;
     conversation_history := Some [] |}.

(** [f'] is [f] as a handler that authenticated the sender stores it again:
    the name and the token are kept, the status is kept or becomes
    ['paired'], the address is kept or replaced by a non-empty one, the
    history is kept or replaced by one of at most 100 entries, and the last
    heartbeat is kept unless the record is paired. *)
Definition updated (f f' : Friend) : Prop :=
  name f' = name f ∧ token f' = token f ∧
  (status f' = status f ∨ status f' = "paired") ∧
  (webhook_url f' = webhook_url f ∨ webhook_url f' ≠ "") ∧
  (conversation_history f' = conversation_history f ∨
   ∃ kept, conversation_history f' = Some kept ∧ length kept ≤ 100) ∧
  (last_heartbeat f' = last_heartbeat f ∨ status f' = "paired").

(** A request that carries no file message: the block of the message
    handler that receives a file is not entered. *)
Definition no_file_message (req : Request) : Prop :=
  ∀ body, parsed req = Normal (Some body) → body_message_type body ≠ Some "file".

(** A request whose sender name leads to no file outside [friends/]. *)
Definition sender_in_friends (req : Request) : Prop :=
  ∀ body from, parsed req = Normal (Some body) → body_from body = Some from →
               friend_file from ≠ Elsewhere.

(** The directory [fs'] left by a request answered with [code], from the
    directory [fs]: nothing changed, or the request was answered 200 and
    the one record that the field [from] of its body leads to, the one of
    the file [stem].json, was stored, by a pair request for a valid name
    that is not paired, or as an update of the record whose token the
    request presented. *)
Definition effect (req : Request) (code : Z) (fs fs' : gmap string Friend) : Prop :=
  fs' = fs ∨
  ∃ body from stem f',
    code = 200%Z ∧ parsed req = Normal (Some body) ∧
    body_from body = Some from ∧ from ≠ "" ∧ friend_file from = InFriends stem ∧
    fs' = <[stem := f']> fs ∧
    ((pathname req = "/pair-request" ∧ from = stem ∧ isValidName stem = true ∧
      falsy (body_token body) = false ∧ falsy (body_webhook_url body) = false ∧
      (∀ f, fs !! stem = Some f → status f ≠ "paired") ∧
      f' = requested stem body)
     ∨
     (∃ f, fs !! stem = Some f ∧
           verifyBearerToken (authorization req) (token f) = Valid ∧
           updated f f')).

(** A stored record as the code writes them: filed under its own name,
    which is a valid name, pending or paired, with a token, an address and
    a history of at most 100 entries, and without a heartbeat as long as it
    is pending. *)
Definition well_formed (k : string) (f : Friend) : Prop :=
  name f = k ∧ isValidName k = true ∧
  (status f = "pending" ∨ status f = "paired") ∧
  token f ≠ "" ∧ webhook_url f ≠ "" ∧
  (∃ history, conversation_history f = Some history ∧ length history ≤ 100) ∧
  (status f = "pending" → last_heartbeat f = None).

(** Whether the request to the peer of the record [f] gets as far as the
    transport: its address parses and [transport.request] accepts it. *)
Definition deliverable (valid_url : string → bool)
    (request_accepted : string → option string → bool) (f : Friend) : bool :=
  valid_url (webhook_url f) &&
  request_accepted (webhook_url f) (Some ("Bearer " +:+ token f)).

(** A JSON POST to /pair-request that comes from the address [ip] and
    whose limiter reads the clock no later than ten minutes after [t0]. *)
Definition pair_request_from (ip : string) (t0 : Z) (cr : Clock * Request) : Prop :=
  method cr.2 = "POST" ∧ pathname cr.2 = "/pair-request" ∧
  includes "application/json" (default "" (content_type cr.2)) = true ∧
  clientIP cr.2 = ip ∧ (t_limit cr.1 - t0 ≤ 600000)%Z.

End WithPrimitives.
End Effects.

(** * Properties *)

(** Case analysis on the integer comparisons of the goal. *)
Ltac Zbool_cases :=
  repeat match goal with
  | |- context [(?a <? ?b)%Z] => destruct (Z.ltb_spec a b)
  | |- context [(?a >? ?b)%Z] => destruct (Z.gtb_spec a b)
  | |- context [(?a >=? ?b)%Z] => destruct (Z.geb_spec a b)
  end.

Section SubarrayFacts.

Lemma clamp_index_in_range (len i : Z) :
  (0 ≤ i ≤ len)%Z → clamp_index len i = i.
Proof.
  intros Hi. unfold clamp_index.
  destruct (Z.ltb_spec i 0); lia.
Qed.

Lemma subarray_in_range (buf : list byte) (s e : nat) :
  s ≤ e ≤ length buf →
  subarray buf (Z.of_nat s) (Z.of_nat e) = take (e - s) (drop s buf).
Proof.
  intros Hse. unfold subarray.
  rewrite !clamp_index_in_range by lia.
  rewrite Nat2Z.id. f_equal. lia.
Qed.

Lemma subarray_prefix (a b : list byte) :
  subarray (a ++ b) 0 (Z.of_nat (length a)) = a.
Proof.
  rewrite (subarray_in_range _ 0 (length a)) by (rewrite length_app; lia).
  rewrite drop_0, Nat.sub_0_r. by rewrite take_app_length.
Qed.

Lemma subarray_suffix (a b : list byte) :
  let len := Z.of_nat (length (a ++ b)) in
  subarray (a ++ b) (len - Z.of_nat (length b)) len = b.
Proof.
  simpl. rewrite length_app.
  replace (Z.of_nat (length a + length b) - Z.of_nat (length b))%Z
    with (Z.of_nat (length a)) by lia.
  rewrite subarray_in_range by (rewrite length_app; lia).
  rewrite drop_app_length. apply take_ge. lia.
Qed.

Lemma subarray_middle (a b c : list byte) :
  let len := Z.of_nat (length (a ++ b ++ c)) in
  subarray (a ++ b ++ c) (Z.of_nat (length a)) (len - Z.of_nat (length c)) = b.
Proof.
  simpl. rewrite !length_app.
  replace (Z.of_nat (length a + (length b + length c)) - Z.of_nat (length c))%Z
    with (Z.of_nat (length a + length b)) by lia.
  rewrite subarray_in_range by (rewrite !length_app; lia).
  rewrite drop_app_length.
  replace (length a + length b - length a) with (length b) by lia.
  by rewrite take_app_length.
Qed.

End SubarrayFacts.

(** Case analysis on the comparisons of natural numbers. *)
Ltac nat_cases :=
  repeat match goal with
  | H : context [(?a <? ?b)%nat] |- _ => destruct (Nat.ltb_spec a b)
  | H : context [(?a <=? ?b)%nat] |- _ => destruct (Nat.leb_spec a b)
  | H : context [(?a =? ?b)%nat] |- _ => destruct (Nat.eqb_spec a b)
  | |- context [(?a <? ?b)%nat] => destruct (Nat.ltb_spec a b)
  | |- context [(?a <=? ?b)%nat] => destruct (Nat.leb_spec a b)
  | |- context [(?a =? ?b)%nat] => destruct (Nat.eqb_spec a b)
  end.

(** ** Strings *)
Section StringFacts.

Lemma string_length_app (a b : string) :
  String.length (a +:+ b) = String.length a + String.length b.
Proof. induction a as [|c a IH]; simpl; [done|]. by rewrite IH. Qed.

Lemma list_ascii_of_string_app (a b : string) :
  list_ascii_of_string (a +:+ b) = list_ascii_of_string a ++ list_ascii_of_string b.
Proof. induction a as [|c a IH]; simpl; [done|]. by rewrite IH. Qed.

Lemma toWellFormed_cons (c : ascii) (rest : string) :
  toWellFormed (String c rest) =
    match rest with
    | String c1 (String c2 rest') =>
        if lone_surrogate c c1 c2 then replacement_character +:+ toWellFormed rest'
        else String c (toWellFormed rest)
    | _ => String c (toWellFormed rest)
    end.
Proof. by destruct rest as [|c1 [|c2 rest']]. Qed.

Lemma lone_surrogate_free_cons (c : ascii) (rest : string) :
  nat_of_ascii c ≠ 237 →
  lone_surrogate_free (String c rest) = lone_surrogate_free rest.
Proof.
  intros Hc. cbn [lone_surrogate_free].
  destruct rest as [|c1 [|c2 rest']]; try done.
  unfold lone_surrogate. by rewrite (proj2 (Nat.eqb_neq _ _) Hc).
Qed.

Lemma toWellFormed_free (s : string) :
  lone_surrogate_free s = true → toWellFormed s = s.
Proof.
  induction s as [|c rest IH]; [done|].
  intros H. cbn [lone_surrogate_free] in H.
  apply andb_true_iff in H as [Hc Hrest]. rewrite toWellFormed_cons.
  destruct rest as [|c1 [|c2 rest']].
  - done.
  - by rewrite (IH Hrest).
  - apply negb_true_iff in Hc. rewrite Hc. by rewrite (IH Hrest).
Qed.

Lemma is_continuation_not_ED (c : ascii) : is_continuation c = true → nat_of_ascii c ≠ 237.
Proof. unfold is_continuation. intros H. nat_cases; simpl in *; try done; lia. Qed.

Lemma isWellFormed_free_upto (n : nat) :
  ∀ s, String.length s ≤ n → isWellFormed s = true → lone_surrogate_free s = true.
Proof.
  induction n as [|n IH]; intros s Hn Hs.
  { destruct s; [done|simpl in Hn; lia]. }
  destruct s as [|c rest]; [done|]. simpl in Hn.
  cbn [isWellFormed] in Hs. cbv zeta in Hs.
  destruct (Nat.ltb_spec (nat_of_ascii c) 128) as [Hlow|Hlow].
  { rewrite lone_surrogate_free_cons by lia. apply IH; [lia|done]. }
  destruct ((194 <=? nat_of_ascii c) && (nat_of_ascii c <=? 223)) eqn:H2.
  { destruct rest as [|c1 rest]; [done|]. simpl in Hn.
    apply andb_true_iff in Hs as [Hc1 Hs].
    rewrite lone_surrogate_free_cons by (apply andb_true_iff in H2 as [_ H2]; apply Nat.leb_le in H2; lia).
    rewrite lone_surrogate_free_cons by (by apply is_continuation_not_ED).
    apply IH; [lia|done]. }
  destruct ((224 <=? nat_of_ascii c) && (nat_of_ascii c <=? 239)) eqn:H3.
  { destruct rest as [|c1 [|c2 rest]]; [done..|]. simpl in Hn.
    apply andb_true_iff in Hs as [Hs Hrest].
    apply andb_true_iff in Hs as [Hs HED].
    apply andb_true_iff in Hs as [Hs HE0].
    apply andb_true_iff in Hs as [Hc1 Hc2].
    cbn [lone_surrogate_free]. apply andb_true_iff. split.
    - apply negb_true_iff. unfold lone_surrogate. revert HED.
      destruct (nat_of_ascii c =? 237); [|done].
      intros HED%Nat.leb_le. cbn [andb].
      destruct (Nat.leb_spec 160 (nat_of_ascii c1)); [lia|done].
    - change (lone_surrogate_free (String c1 (String c2 rest)) = true).
      rewrite lone_surrogate_free_cons by (by apply is_continuation_not_ED).
      rewrite lone_surrogate_free_cons by (by apply is_continuation_not_ED).
      apply IH; [lia|done]. }
  destruct ((240 <=? nat_of_ascii c) && (nat_of_ascii c <=? 244)) eqn:H4; [|done].
  destruct rest as [|c1 [|c2 [|c3 rest]]]; [done..|]. simpl in Hn.
  apply andb_true_iff in Hs as [Hs Hrest].
  apply andb_true_iff in Hs as [Hs _].
  apply andb_true_iff in Hs as [Hs _].
  apply andb_true_iff in Hs as [Hs Hc3].
  apply andb_true_iff in Hs as [Hc1 Hc2].
  rewrite lone_surrogate_free_cons
    by (apply andb_true_iff in H4 as [H4 _]; apply Nat.leb_le in H4; lia).
  rewrite !lone_surrogate_free_cons by (by apply is_continuation_not_ED).
  apply IH; [lia|done].
Qed.

(** A well-formed string is its own well-formed version. *)
Lemma toWellFormed_isWellFormed (s : string) :
  isWellFormed s = true → toWellFormed s = s.
Proof.
  intros H. apply toWellFormed_free.
  by apply (isWellFormed_free_upto (String.length s)).
Qed.

Lemma is_ascii_cons (c : ascii) (s : string) :
  is_ascii (String c s) = (nat_of_ascii c <? 128) && is_ascii s.
Proof. done. Qed.

Lemma is_ascii_isWellFormed (s : string) : is_ascii s = true → isWellFormed s = true.
Proof.
  induction s as [|c s IH]; [done|].
  rewrite is_ascii_cons. intros [Hc Hs]%andb_true_iff.
  cbn [isWellFormed]. cbv zeta. rewrite Hc. auto.
Qed.

Lemma is_ascii_length (s : string) : is_ascii s = true → code_unit_length s = String.length s.
Proof.
  induction s as [|c s IH]; [done|].
  rewrite is_ascii_cons. intros [Hc Hs]%andb_true_iff.
  cbn [code_unit_length String.length]. unfold code_units. rewrite Hc, (IH Hs). done.
Qed.

Lemma is_ascii_app (a b : string) : is_ascii (a +:+ b) = is_ascii a && is_ascii b.
Proof. unfold is_ascii. by rewrite list_ascii_of_string_app, forallb_app. Qed.

End StringFacts.

(** ** Names and files *)
Section PathFacts.
Context {P : NodePrimitives}.
Import Config.

Lemma split_on_no_separator (sep : ascii) (s : string) :
  sep ∉ list_ascii_of_string s → split_on sep s = [s].
Proof.
  induction s as [|c s IH]; intros Hs; [done|].
  simpl in *. apply not_elem_of_cons in Hs as [Hc Hs].
  rewrite bool_decide_eq_false_2 by congruence.
  by rewrite IH.
Qed.

Lemma strip_suffix_unfold (suffix s : string) :
  strip_suffix suffix s =
    if bool_decide (s = suffix) then Some EmptyString
    else match s with
         | EmptyString => None
         | String c rest => String c <$> strip_suffix suffix rest
         end.
Proof. by destruct s. Qed.

Lemma strip_suffix_app (suffix k : string) : strip_suffix suffix (k +:+ suffix) = Some k.
Proof.
  induction k as [|c k IH]; rewrite strip_suffix_unfold.
  - by rewrite bool_decide_eq_true_2.
  - rewrite bool_decide_eq_false_2.
    + change (String c k +:+ suffix) with (String c (k +:+ suffix)). cbv beta iota.
      by rewrite IH.
    + intros H. apply (f_equal String.length) in H.
      rewrite string_length_app in H. simpl in H. lia.
Qed.

(** A name without [/] and without the character of code 0 leads to the
    file of that name in [friends/]. *)
Lemma friend_file_plain (name : string) :
  "/"%char ∉ list_ascii_of_string name → zero ∉ list_ascii_of_string name →
  friend_file name = InFriends name.
Proof.
  intros Hslash Hzero. unfold friend_file.
  rewrite bool_decide_eq_false_2 by done.
  unfold path_join. rewrite split_on_no_separator.
  2:{ rewrite list_ascii_of_string_app. apply not_elem_of_app. split; [done|].
      by apply (bool_decide_unpack _). }
  cbn [foldl]. unfold join_step.
  assert (5 ≤ String.length (name +:+ ".json")) as Hlen
    by (rewrite string_length_app; simpl; lia).
  rewrite !bool_decide_eq_false_2 by (intros H; rewrite H in Hlen; simpl in Hlen; lia).
  cbn [orb]. cbv iota.
  rewrite last_snoc, removelast_last, bool_decide_eq_true_2 by done.
  by rewrite strip_suffix_app.
Qed.

Lemma isValidName_chars (n : string) :
  isValidName n = true →
  n ≠ "" ∧ ("/"%char ∉ list_ascii_of_string n) ∧ (zero ∉ list_ascii_of_string n) ∧
  (" "%char ∉ list_ascii_of_string n).
Proof.
  unfold isValidName. intros [[Hne Hall]%andb_true_iff _]%andb_true_iff.
  apply negb_true_iff, bool_decide_eq_false_1 in Hne.
  rewrite forallb_forall in Hall.
  split_and!; [done|..]; intros Hin%list_elem_of_In%Hall; by vm_compute in Hin.
Qed.

(** A valid name is the stem of its own file. *)
Lemma friend_file_valid (n : string) : isValidName n = true → friend_file n = InFriends n.
Proof.
  intros (_ & Hslash & Hzero & _)%isValidName_chars. by apply friend_file_plain.
Qed.

Lemma loadFriend_stem (name stem : string) (fs : gmap string Friend) :
  friend_file name = InFriends stem → loadFriend name fs = fs !! stem.
Proof. intros H. unfold loadFriend. by rewrite H. Qed.

Lemma saveFriend_stem (name stem : string) (data : Friend) (fs : gmap string Friend) :
  friend_file name = InFriends stem → saveFriend name data fs = <[stem := data]> fs.
Proof. intros H. unfold saveFriend. by rewrite H. Qed.

Lemma deleteFriend_stem (name stem : string) (fs : gmap string Friend) :
  friend_file name = InFriends stem → deleteFriend name fs = delete stem fs.
Proof. intros H. unfold deleteFriend. by rewrite H. Qed.

(** A name that leads to no file of [friends/] finds nothing and changes
    nothing there. *)
Lemma loadFriend_outside (name : string) (fs : gmap string Friend) :
  (∀ stem, friend_file name ≠ InFriends stem) → loadFriend name fs = None.
Proof. intros H. unfold loadFriend. destruct (friend_file name); [by destruct (H stem)|done..]. Qed.

End PathFacts.

Section PathRuns.
Import Config Sample.

(** Names that lead to the file of [bob], and names that do not. *)
Example friend_file_aliases :
  friend_file "bob" = InFriends "bob" ∧
  friend_file "./bob" = InFriends "bob" ∧
  friend_file "x/../bob" = InFriends "bob" ∧
  friend_file "../friends/bob" = InFriends "bob" ∧
  friend_file "/home/alice/../../bob" = InFriends "bob" ∧
  friend_file "../../../../../../../home/alice/.openclaw/workspace/skills/agent-connect/friends/bob"
    = InFriends "bob" ∧
  friend_file "x/bob" = Elsewhere ∧
  friend_file "../memory/bob/files/x" = Elsewhere ∧
  friend_file "bob/" = Elsewhere ∧
  friend_file (String zero "bob") = NoFile.
Proof. by vm_compute. Qed.

End PathRuns.

Section CryptoFacts.
Context {P : NodePrimitives} {L : NodePrimitivesLaws P}.
Import Crypto.

(** What comes back is what [Buffer] makes of the plaintext. *)
Lemma decryptMessage_encryptMessage_bytes (p s : string) (iv : list byte) :
  length iv = 12%nat →
  decryptMessage (encryptMessage p s iv) s = Some (utf8_decode (utf8_encode p)).
Proof.
  intros Hiv.
  unfold decryptMessage, decryptMessage_try, encryptMessage.
  pose proof (sha256_length (utf8_encode s)) as Hkey.
  pose proof (gcm_tag_length (deriveKey s) iv (utf8_encode p) Hkey Hiv) as Htag.
  pose proof (gcm_decrypt_encrypt (deriveKey s) iv (utf8_encode p) Hkey Hiv) as Hdec.
  destruct (gcm_encrypt (deriveKey s) iv (utf8_encode p)) as [ct tag] eqn:Henc.
  simpl in Htag, Hdec. rewrite base64_decode_encode.
  assert (subarray (iv ++ ct ++ tag) 0 IV_LENGTH = iv) as ->.
  { unfold IV_LENGTH. replace 12%Z with (Z.of_nat (length iv)) by lia.
    apply subarray_prefix. }
  assert (subarray (iv ++ ct ++ tag) (Z.of_nat (length (iv ++ ct ++ tag)) - TAG_LENGTH)
            (Z.of_nat (length (iv ++ ct ++ tag))) = tag) as ->.
  { unfold TAG_LENGTH. replace 16%Z with (Z.of_nat (length tag)) by lia.
    rewrite (app_assoc iv ct tag). apply subarray_suffix. }
  assert (subarray (iv ++ ct ++ tag) IV_LENGTH
            (Z.of_nat (length (iv ++ ct ++ tag)) - TAG_LENGTH) = ct) as ->.
  { unfold IV_LENGTH, TAG_LENGTH.
    replace 12%Z with (Z.of_nat (length iv)) by lia.
    replace 16%Z with (Z.of_nat (length tag)) by lia.
    apply subarray_middle. }
  by rewrite Hdec.
Qed.

(** C1, amended. Round trip: whatever the secret, the 12-byte nonce drawn
    by [encryptMessage] and the plaintext, when the plaintext is a
    well-formed string (one without lone surrogate), [decryptMessage] under
    the same secret returns exactly the plaintext. *)
Theorem decryptMessage_encryptMessage (p s : string) (iv : list byte) :
  isWellFormed p = true → length iv = 12%nat →
  decryptMessage (encryptMessage p s iv) s = Some p.
Proof.
  intros Hp Hiv. rewrite decryptMessage_encryptMessage_bytes by done.
  by rewrite utf8_decode_encode.
Qed.

(** A plaintext with lone surrogates comes back with U+FFFD in their
    place. *)
Lemma decryptMessage_encryptMessage_replaced (p s : string) (iv : list byte) :
  isWellFormed (toWellFormed p) = true → length iv = 12%nat →
  decryptMessage (encryptMessage p s iv) s = Some (toWellFormed p).
Proof.
  intros Hp Hiv. rewrite decryptMessage_encryptMessage_bytes by done.
  by rewrite utf8_encode_toWellFormed, utf8_decode_encode.
Qed.

End CryptoFacts.

Section SampleFacts.
Import Sample.

Lemma pad_to_length (n : nat) (b : list byte) : length (pad_to n b) = n.
Proof.
  unfold pad_to. rewrite length_take, length_app, length_replicate. lia.
Qed.

Lemma primitives_laws : NodePrimitivesLaws Sample.primitives.
Proof.
  split; simpl.
  - intros m. apply pad_to_length.
  - intros s Hs. rewrite (toWellFormed_isWellFormed s Hs).
    apply string_of_list_byte_of_string.
  - intros s Hs. by rewrite (toWellFormed_isWellFormed _ Hs).
  - apply list_byte_of_string_of_list_byte.
  - intros key iv pt _ _. apply pad_to_length.
  - intros key iv pt _ _. rewrite bool_decide_eq_true_2 by done.
    by rewrite rev_involutive.
Qed.

(** A run of the round trip on the sample primitives. *)
Lemma decryptMessage_encryptMessage_witness :
  isWellFormed "hello" = true ∧ length (replicate 12 x00) = 12%nat ∧
  Crypto.decryptMessage (Crypto.encryptMessage "hello" "s3cret" (replicate 12 x00)) "s3cret"
  = Some "hello".
Proof.
  split; [reflexivity|]. split; [reflexivity|].
  apply (@decryptMessage_encryptMessage Sample.primitives primitives_laws);
    reflexivity.
Defined.

(** The claim as the specification states it fails: the plaintext
    [a\uD800b], with a lone surrogate between the two letters, comes back as
    [a\uFFFDb]. *)
Lemma decryptMessage_encryptMessage_lone_surrogate :
  let surrogate :=
    String (ascii_of_nat 237) (String (ascii_of_nat 160) (String (ascii_of_nat 128) "")) in
  let p := "a" +:+ surrogate +:+ "b" in
  Crypto.decryptMessage (Crypto.encryptMessage p "s3cret" (replicate 12 x00)) "s3cret"
  = Some ("a" +:+ replacement_character +:+ "b") ∧
  bool_decide (p = "a" +:+ replacement_character +:+ "b") = false ∧
  isWellFormed p = false.
Proof. by vm_compute. Qed.

(** The laws say nothing about two different secrets: on the sample
    primitives, which satisfy them, the secrets [a] and [a] followed by the
    character of code 0 derive the same key, and a message encrypted under
    one decrypts under the other. Key isolation is a property of SHA-256 and
    AES-GCM themselves, beyond their functional laws. *)
Lemma key_isolation_not_from_laws :
  let s1 := "a" in
  let s2 := String "a" (String (ascii_of_nat 0) "") in
  bool_decide (s1 = s2) = false ∧
  Crypto.decryptMessage (Crypto.encryptMessage "hello" s1 (replicate 12 x00)) s2
  = Some "hello".
Proof. by vm_compute. Qed.

End SampleFacts.

Section DecryptFacts.
Context {P : NodePrimitives}.
Import Crypto.

(** [decryptMessage] is a function into [option string]: whatever the blob
    and the secret, it returns, and it returns [null] exactly when the
    decipher throws on the nonce, ciphertext and tag cut from the blob. *)
Lemma decryptMessage_null_iff (blob s : string) :
  let packed := base64_decode blob in
  let len := Z.of_nat (length packed) in
  decryptMessage blob s = None ↔
  gcm_decrypt (deriveKey s) (subarray packed 0 IV_LENGTH)
    (subarray packed IV_LENGTH (len - TAG_LENGTH))
    (subarray packed (len - TAG_LENGTH) len) = None.
Proof.
  simpl. unfold decryptMessage, decryptMessage_try.
  destruct (gcm_decrypt _ _ _ _); simpl; split; congruence.
Qed.

End DecryptFacts.

(** ** The message rate limiter *)
Section RateLimitFacts.
Import Auth Runs.

Lemma get_property_own {A} (obj : gmap string A) (key : string) (a : A) :
  obj !! key = Some a → get_property obj key = Own a.
Proof. intros H. unfold get_property. by rewrite H. Qed.

Lemma get_property_absent {A} (obj : gmap string A) (key : string) :
  key ∉ Object_prototype_keys → obj !! key = None → get_property obj key = Absent.
Proof.
  intros Hk H. unfold get_property. rewrite H.
  by rewrite bool_decide_eq_false_2.
Qed.

Lemma get_property_inherited {A} (obj : gmap string A) (key : string) :
  key ∈ Object_prototype_keys → obj !! key = None → get_property obj key = Inherited.
Proof.
  intros Hk H. unfold get_property. rewrite H.
  by rewrite bool_decide_eq_true_2.
Qed.

(** The first call for a subject creates its counter. *)
Lemma checkRateLimit_first_call (now : Z) (who : string) (rl : gmap string RateEntry) :
  who ∉ Object_prototype_keys → rl !! who = None →
  checkRateLimit now who rl =
    ({| allowed := true; remaining := Some 9%Z |},
     <[who := {| count := 1; windowStart := now |}]> rl).
Proof.
  intros Hk H. unfold checkRateLimit. by rewrite get_property_absent.
Qed.

(** A call after the window has elapsed restarts the counter at 1. *)
Lemma checkRateLimit_window_elapsed (now : Z) (who : string)
    (rl : gmap string RateEntry) (e : RateEntry) :
  rl !! who = Some e → (now - windowStart e > 60000)%Z →
  checkRateLimit now who rl =
    ({| allowed := true; remaining := Some 9%Z |},
     <[who := {| count := 1; windowStart := now |}]> rl).
Proof.
  intros H Hw. unfold checkRateLimit. rewrite (get_property_own _ _ e H).
  unfold RATE_LIMIT_WINDOW_MS.
  destruct (Z.gtb_spec (now - windowStart e) (60 * 1000)); [done | lia].
Qed.

(** Inside the window and under the cap, the call is accepted, counted,
    and reports one less remaining. *)
Lemma checkRateLimit_accepted (now : Z) (who : string)
    (rl : gmap string RateEntry) (e : RateEntry) :
  rl !! who = Some e → (now - windowStart e ≤ 60000)%Z → (count e < 10)%Z →
  checkRateLimit now who rl =
    ({| allowed := true; remaining := Some (10 - (count e + 1))%Z |},
     <[who := {| count := count e + 1; windowStart := windowStart e |}]> rl).
Proof.
  intros H Hw Hc. unfold checkRateLimit. rewrite (get_property_own _ _ e H).
  unfold RATE_LIMIT_WINDOW_MS, RATE_LIMIT_MAX.
  destruct (Z.gtb_spec (now - windowStart e) (60 * 1000)); [lia|].
  destruct (Z.geb_spec (count e) 10); [lia | done].
Qed.

(** Inside the window and at the cap, the call is rejected and nothing
    changes. *)
Lemma checkRateLimit_rejected (now : Z) (who : string)
    (rl : gmap string RateEntry) (e : RateEntry) :
  rl !! who = Some e → (now - windowStart e ≤ 60000)%Z → (10 ≤ count e)%Z →
  checkRateLimit now who rl = ({| allowed := false; remaining := Some 0%Z |}, rl).
Proof.
  intros H Hw Hc. unfold checkRateLimit. rewrite (get_property_own _ _ e H).
  unfold RATE_LIMIT_WINDOW_MS, RATE_LIMIT_MAX.
  destruct (Z.gtb_spec (now - windowStart e) (60 * 1000)); [lia|].
  destruct (Z.geb_spec (count e) 10); [done | lia].
Qed.

(** Calls that all arrive inside the window of an existing counter. *)
Lemma check_all_inside_window (who : string) (times : list Z) :
  ∀ (rl : gmap string RateEntry) (e : RateEntry),
    rl !! who = Some e →
    Forall (λ now, now - windowStart e ≤ 60000)%Z times →
    (check_all who times rl).1 = imap (λ i _, nth_check (count e) i) times.
Proof.
  induction times as [|now rest IH]; intros rl e He Hall; [done|].
  apply Forall_cons in Hall as [Hnow Hrest]. simpl.
  destruct (Z.lt_ge_cases (count e) 10) as [Hc|Hc].
  - rewrite (checkRateLimit_accepted now who rl e He Hnow Hc).
    specialize (IH (<[who := {| count := count e + 1; windowStart := windowStart e |}]> rl)
                  {| count := count e + 1; windowStart := windowStart e |}).
    rewrite lookup_insert_eq in IH. specialize (IH eq_refl Hrest).
    destruct (check_all who rest _) as [rs rl'] eqn:E. simpl in *. f_equal.
    + unfold nth_check. Zbool_cases; [|lia].
      do 2 f_equal. lia.
    + rewrite IH. apply imap_ext. intros i x _. unfold nth_check. simpl.
      replace (count e + 1 + Z.of_nat i)%Z with (count e + Z.of_nat (S i))%Z by lia. done.
  - rewrite (checkRateLimit_rejected now who rl e He Hnow Hc).
    specialize (IH rl e He Hrest).
    destruct (check_all who rest rl) as [rs rl'] eqn:E. simpl in *. f_equal.
    + unfold nth_check. Zbool_cases; [lia|done].
    + rewrite IH. apply imap_ext. intros i x _. unfold nth_check, compose.
      Zbool_cases; done || lia.
Qed.

(** For a subject that is no key of [Object.prototype]: of eleven calls
    inside one window, starting without a counter, the first ten are
    accepted with 9, 8, ..., 0 remaining and the eleventh is rejected. *)
Lemma checkRateLimit_eleventh_rejected (who : string) (first : Z) (later : list Z) :
  who ∉ Object_prototype_keys →
  length later = 10%nat →
  Forall (λ now, now - first ≤ 60000)%Z later →
  (check_all who (first :: later) ∅).1 =
    ((λ r : Z, {| allowed := true; remaining := Some r |}) <$>
       [9; 8; 7; 6; 5; 4; 3; 2; 1; 0]%Z) ++
    [ {| allowed := false; remaining := Some 0%Z |} ].
Proof.
  intros Hk Hlen Hall. simpl.
  rewrite (checkRateLimit_first_call first who ∅ Hk (lookup_empty _)).
  pose proof (check_all_inside_window who later
                (<[who := {| count := 1; windowStart := first |}]> ∅)
                {| count := 1; windowStart := first |}) as H.
  rewrite lookup_insert_eq in H. specialize (H eq_refl Hall).
  destruct (check_all who later _) as [rs rl'] eqn:E. simpl in *. rewrite H.
  do 11 (destruct later as [|? later]; try discriminate). reflexivity.
Qed.

(** For a key of [Object.prototype] without a counter the call is accepted
    and stores nothing. *)
Lemma checkRateLimit_inherited (now : Z) (who : string) (rl : gmap string RateEntry) :
  who ∈ Object_prototype_keys → rl !! who = None →
  checkRateLimit now who rl = ({| allowed := true; remaining := None |}, rl).
Proof.
  intros Hk H. unfold checkRateLimit. by rewrite get_property_inherited.
Qed.

(** C5. For the subject [toString], a key of [Object.prototype], the rate
    limiter accepts every call, however many arrive and whenever: it
    reports the quota [NaN], creates no counter and never rejects; the
    eleventh call inside a window is accepted like the others. *)
Theorem checkRateLimit_toString_never_rejects (times : list Z) :
  check_all "toString" times ∅ =
    ((λ _, {| allowed := true; remaining := None |}) <$> times, ∅).
Proof.
  induction times as [|now rest IH]; [done|].
  simpl. rewrite checkRateLimit_inherited, IH; [done| |done].
  by apply (bool_decide_unpack _).
Qed.

End RateLimitFacts.

(** ** The supervisor's restart schedule *)
Section WatchdogFacts.
Import Watchdog.

Lemma on_exit_short_run (runtime : Z) (w : Backoff) :
  (runtime ≤ 300000)%Z →
  on_exit runtime w =
    (restartDelay w,
     {| restartDelay := Z.min (restartDelay w * 2) 60000;
        restartCount := restartCount w + 1 |}).
Proof.
  intros H. unfold on_exit, RESET_AFTER_MS, MAX_RESTART_DELAY.
  Zbool_cases; [lia | done].
Qed.

Lemma on_exit_long_run (runtime : Z) (w : Backoff) :
  (runtime > 300000)%Z →
  on_exit runtime w = (1000%Z, {| restartDelay := 2000; restartCount := 1 |}).
Proof.
  intros H. unfold on_exit, RESET_AFTER_MS, MAX_RESTART_DELAY, MIN_RESTART_DELAY.
  Zbool_cases; [done | lia].
Qed.

Lemma capped_doubling (d : Z) (n : nat) :
  Z.min (Z.min (d * 2) 60000 * 2 ^ Z.of_nat n) 60000 = Z.min (d * 2 ^ Z.of_nat (S n)) 60000.
Proof.
  rewrite Nat2Z.inj_succ, Z.pow_succ_r by lia.
  assert (1 ≤ 2 ^ Z.of_nat n)%Z by (apply Z.pow_le_mono_r with (b := 0%Z); lia).
  destruct (Z.le_gt_cases (d * 2) 60000).
  - rewrite (Z.min_l (d * 2)) by lia. f_equal. lia.
  - rewrite (Z.min_r (d * 2)) by lia. rewrite !Z.min_r; nia.
Qed.

Lemma supervise_cons (runtime : Z) (rest : list Z) (w : Backoff) :
  supervise (runtime :: rest) w =
    (on_exit runtime w).1 :: supervise rest (on_exit runtime w).2.
Proof. simpl. by destruct (on_exit runtime w). Qed.

(** In a crash loop the delays double from the stored delay up to the cap. *)
Lemma supervise_crash_loop (runtimes : list Z) :
  ∀ (w : Backoff) (n : nat),
    Forall (λ runtime, runtime ≤ 300000)%Z runtimes →
    (restartDelay w ≤ 60000)%Z →
    (n < length runtimes)%nat →
    supervise runtimes w !! n = Some (Z.min (restartDelay w * 2 ^ Z.of_nat n) 60000).
Proof.
  induction runtimes as [|runtime rest IH]; intros w n Hall Hw Hn; simpl in Hn; [lia|].
  apply Forall_cons in Hall as [Hrun Hrest].
  rewrite supervise_cons, (on_exit_short_run runtime w Hrun).
  destruct n as [|n]; simpl.
  - f_equal. change (2 ^ Z.of_nat 0)%Z with 1%Z. lia.
  - rewrite (IH _ n Hrest); [|simpl; lia|lia].
    simpl restartDelay. f_equal. apply capped_doubling.
Qed.

(** C9. A child that exits within five minutes of each start is restarted
    after 1 s, 2 s, 4 s, 8 s, ... capped at 60 s (the [n]-th restart after
    [min (1000 * 2^n) 60000] ms); and whatever the backoff has grown to, an
    exit after more than five minutes of running schedules the restart
    after 1 s (and the one after that starts again at 2 s). *)
Theorem restart_schedule :
  (∀ (runtimes : list Z) (n : nat),
     Forall (λ runtime, runtime ≤ 300000)%Z runtimes →
     (n < length runtimes)%nat →
     supervise runtimes initial !! n = Some (Z.min (1000 * 2 ^ Z.of_nat n) 60000)) ∧
  (∀ (runtime : Z) (w : Backoff),
     (runtime > 300000)%Z →
     (on_exit runtime w).1 = 1000%Z ∧ restartDelay (on_exit runtime w).2 = 2000%Z).
Proof.
  split.
  - intros runtimes n Hall Hn.
    by rewrite (supervise_crash_loop runtimes initial n Hall).
  - intros runtime w H. by rewrite (on_exit_long_run runtime w H).
Qed.

(** The seventh restart of a crash loop waits 60 s, and the restart after
    a run of six minutes waits 1 s although the backoff had reached 60 s. *)
Lemma restart_schedule_witness :
  supervise [0; 0; 0; 0; 0; 0; 0; 0]%Z initial !! 6%nat = Some 60000%Z ∧
  (on_exit 360000 {| restartDelay := 60000; restartCount := 9 |}).1 = 1000%Z.
Proof.
  destruct restart_schedule as [Hloop Hreset]. split.
  - rewrite (Hloop [0; 0; 0; 0; 0; 0; 0; 0]%Z 6%nat); [reflexivity| |simpl; lia].
    repeat constructor; lia.
  - apply Hreset. lia.
Defined.

(** Nine immediate exits, then an exit after six minutes, then two more
    immediate exits. *)
Example restart_schedule_run :
  supervise [0; 0; 0; 0; 0; 0; 0; 0; 0; 360000; 0; 0]%Z initial =
    [1000; 2000; 4000; 8000; 16000; 32000; 60000; 60000; 60000; 1000; 2000; 4000]%Z.
Proof. reflexivity. Qed.

End WatchdogFacts.

(** ** Removing a friend *)
Section RemoveFacts.
Context {P : NodePrimitives}.
Import Config.

(** C4, amended. [remove] looks at no status. For a name that leads to a
    file of [friends/] (a plain name leads to the file of that name, and
    the segments [.] and [..] of a name are followed), it succeeds (exit
    code 0) exactly when that file holds a record, pending or paired alike;
    it then deletes that record and no other; when no record is there, or
    when no name is given, it fails (exit code 1) and the directory is left
    as it was. A name that leads out of [friends/] leaves the directory as
    it was. *)
Theorem remove_succeeds_iff_stored (args : list string) (fs : gmap string Friend) :
  let result := RemoveFriend.main args fs in
  (∀ n stem, head args = Some n → n ≠ "" → friend_file n = InFriends stem →
     result = match fs !! stem with
              | Some _ => (0%Z, delete stem fs)
              | None => (1%Z, fs)
              end) ∧
  (falsy (head args) = true → result = (1%Z, fs)) ∧
  (∀ n, head args = Some n → (∀ stem, friend_file n ≠ InFriends stem) → result.2 = fs).
Proof.
  cbv zeta. unfold RemoveFriend.main. split_and!.
  - intros n stem -> Hn Hfile. unfold falsy.
    rewrite (bool_decide_eq_false_2 _ Hn). simpl default.
    rewrite (loadFriend_stem n stem fs Hfile), (deleteFriend_stem n stem fs Hfile).
    by destruct (fs !! stem).
  - by intros ->.
  - intros n -> Hout. destruct (falsy (Some n)); [done|]. simpl default.
    by rewrite (loadFriend_outside n fs Hout).
Qed.

(** [cancel], next to it, does look at the status: it refuses a paired
    peer. *)
Lemma cancel_paired_fails (n stem : string) (f : Friend) (fs : gmap string Friend) :
  n ≠ "" → friend_file n = InFriends stem → fs !! stem = Some f → status f = "paired" →
  CancelRequest.main [n] fs = (1%Z, fs).
Proof.
  intros Hn Hfile Hf Hs. unfold CancelRequest.main, falsy. simpl.
  rewrite bool_decide_eq_false_2 by done. simpl.
  rewrite (loadFriend_stem n stem fs Hfile), Hf.
  by rewrite bool_decide_eq_true_2.
Qed.

End RemoveFacts.

Section RemoveRuns.
Import Config Sample.

(** The claim as the specification states it fails: [remove] on a peer
    that is still pending succeeds and deletes the record. *)
Lemma remove_pending_succeeds :
  RemoveFriend.main ["bob"] {[ "bob" := Sample.friend "bob" Sample.token64 "pending" ]}
  = (0%Z, ∅).
Proof. by vm_compute. Qed.

(** [remove ./bob] deletes the record of [bob], and [remove bobby] fails
    and deletes nothing. *)
Example remove_by_path :
  let fs : gmap string Friend := {[ "bob" := Sample.friend "bob" Sample.token64 "paired" ]} in
  RemoveFriend.main ["./bob"] fs = (0%Z, ∅) ∧
  RemoveFriend.main ["bobby"] fs = (1%Z, fs).
Proof. by vm_compute. Qed.

End RemoveRuns.

(** ** The cooldown evaluation *)
Section CooldownFacts.
Context {P : NodePrimitives} {E : HostEffects}.
Import Config Server Runs.







End CooldownFacts.

Section CooldownRuns.
Import Config Server Runs Sample.



(** Three exchanges at minutes 0, 10 and 20 with a maximum of 3 in 30
    minutes: at minute 25 all three are within the window and the cooldown
    is on; at minute 35 only two are left and it is off. *)
Example cooldown_ages_out :
  let minute := 60000%Z in
  let entry t d :=
    {| msg_from := "bob"; msg_message := "hi";
       msg_timestamp := ValidDate (t * minute); msg_direction := d |} in
  let bob :=
    {| name := "bob"; webhook_url := "https://bob.example"; token := Sample.token64;
       status := "paired"; paired_at := Some 0%Z; last_heartbeat := None;
       last_message_at := Some (20 * minute)%Z;
       conversation_history := Some [entry 0%Z incoming; entry 10%Z outgoing; entry 20%Z incoming] |} in
  let config :=
    {| agentName := "alice"; friendMode := "auto";
       maxExchangesPerConvo := 3; cooldownMinutes := 30 |} in
  recentExchanges (25 * minute) config "bob" {[ "bob" := bob ]} = 3%Z ∧
  overCooldown (25 * minute) config "bob" {[ "bob" := bob ]} = true ∧
  recentExchanges (35 * minute) config "bob" {[ "bob" := bob ]} = 2%Z ∧
  overCooldown (35 * minute) config "bob" {[ "bob" := bob ]} = false.
Proof. by vm_compute. Qed.

End CooldownRuns.

(** ** Bearer tokens *)
Section BearerFacts.
Context {P : NodePrimitives}.
Import Auth.

Lemma split_on_bearer (tok : string) :
  " "%char ∉ list_ascii_of_string tok →
  split_on " " ("Bearer " +:+ tok) = ["Bearer"; tok].
Proof.
  intros Htok. simpl. change ("" +:+ tok) with tok.
  by rewrite (split_on_no_separator _ _ Htok).
Qed.

Lemma verifyBearerToken_missing (expected : string) :
  verifyBearerToken None expected = Invalid "Missing Authorization header".
Proof. done. Qed.

Lemma code_unit_length_nonempty (tok : string) : 0 < code_unit_length tok → tok ≠ "".
Proof. intros H ->. simpl in H. lia. Qed.

(** The header [Bearer <token>] with the stored token is accepted when the
    token has at least 20 code units and no space. *)
Lemma verifyBearerToken_stored_token (tok : string) :
  (20 ≤ code_unit_length tok)%nat →
  " "%char ∉ list_ascii_of_string tok →
  verifyBearerToken (Some ("Bearer " +:+ tok)) tok = Valid.
Proof.
  intros Hlen Htok. unfold verifyBearerToken.
  replace (falsy (Some ("Bearer " +:+ tok))) with false by done.
  simpl default. rewrite (split_on_bearer tok Htok).
  rewrite bool_decide_eq_true_2 by done. simpl negb.
  assert (tok ≠ "") as Hne by (apply code_unit_length_nonempty; lia).
  unfold falsy. rewrite (bool_decide_eq_false_2 _ Hne).
  destruct (Nat.ltb_spec (code_unit_length tok) 20); [lia|]. simpl.
  rewrite Nat.eqb_refl. simpl.
  by rewrite bool_decide_eq_true_2.
Qed.

(** A token of fewer than 20 code units is refused even when it is the
    stored one. *)
Lemma verifyBearerToken_short_token (tok : string) :
  (code_unit_length tok < 20)%nat →
  " "%char ∉ list_ascii_of_string tok →
  verifyBearerToken (Some ("Bearer " +:+ tok)) tok = Invalid "Token too short".
Proof.
  intros Hlen Htok. unfold verifyBearerToken.
  replace (falsy (Some ("Bearer " +:+ tok))) with false by done.
  simpl default. rewrite (split_on_bearer tok Htok).
  rewrite bool_decide_eq_true_2 by done. simpl negb.
  destruct (Nat.ltb_spec (code_unit_length tok) 20); [|lia].
  by rewrite orb_true_r.
Qed.

End BearerFacts.

(** ** The message endpoint *)
Section MessageFacts.
Context {P : NodePrimitives} {E : HostEffects}.
Import Auth Config Crypto Server Runs.

(** What a successful authentication tells about the request. *)
Lemma authenticateFriend_inr (req : Request) (body : Body)
    (fs : gmap string Friend) (friend : Friend) :
  authenticateFriend req body fs = inr friend →
  ∃ from stem, body_from body = Some from ∧ from ≠ "" ∧
               friend_file from = InFriends stem ∧ fs !! stem = Some friend ∧
               (status friend = "paired" ∨ status friend = "pending") ∧
               verifyBearerToken (authorization req) (token friend) = Valid.
Proof.
  unfold authenticateFriend, falsy, loadFriend.
  destruct (body_from body) as [from|]; [|done].
  case_bool_decide as Hfrom; [done|]. simpl.
  destruct (friend_file from) as [stem| |] eqn:Hfile; [|done..].
  destruct (fs !! stem) as [f|] eqn:Hf; [|done].
  destruct (negb _ && negb _) eqn:Hstatus; [done|].
  destruct (verifyBearerToken _ _) eqn:Hv; [|done].
  intros [= <-]. exists from, stem. split_and!; try done.
  apply andb_false_iff in Hstatus as [H|H]; apply negb_false_iff in H;
    apply bool_decide_eq_true_1 in H; auto.
Qed.

(** For a stored peer that is pending or paired, authentication depends on
    the bearer check alone: the two states are treated alike. *)
Lemma authenticateFriend_known_peer (req : Request) (body : Body)
    (fs : gmap string Friend) (from stem : string) (f : Friend) :
  body_from body = Some from → from ≠ "" →
  friend_file from = InFriends stem → fs !! stem = Some f →
  status f = "pending" ∨ status f = "paired" →
  authenticateFriend req body fs =
    match verifyBearerToken (authorization req) (token f) with
    | Valid => inr f
    | Invalid error => inl error
    end.
Proof.
  intros Hfrom Hn Hfile Hf Hstatus. unfold authenticateFriend, falsy.
  rewrite Hfrom, (bool_decide_eq_false_2 _ Hn). simpl.
  rewrite (loadFriend_stem from stem fs Hfile), Hf.
  destruct Hstatus as [-> | ->]; simpl; by destruct (verifyBearerToken _ _).
Qed.

(** Without an [Authorization] header nobody is authenticated. *)
Lemma authenticateFriend_no_header (req : Request) (body : Body) (fs : gmap string Friend) :
  authorization req = None → ∃ error, authenticateFriend req body fs = inl error.
Proof.
  intros Hauth. unfold authenticateFriend.
  destruct (falsy (body_from body)); [eauto|].
  destruct (loadFriend _ fs) as [f|]; [|eauto].
  destruct (negb _ && negb _); [eauto|].
  rewrite Hauth, verifyBearerToken_missing. eauto.
Qed.

Lemma handleMessage_no_header (clock : Clock) (config : Configuration)
    (req : Request) (st : State) (body : Body) :
  authorization req = None → parsed req = Normal (Some body) →
  ∃ error, handleMessage clock config req st
           = responds (sendJSON 401 [("error", JString error)]) st.
Proof.
  intros Hauth Hbody. unfold handleMessage. rewrite Hbody.
  destruct (authenticateFriend_no_header req body (friends st) Hauth) as [e ->].
  eauto.
Qed.

(** C3, amended. When a POST to /message has no [Authorization] header,
    the response has an [error] field, its status is 401, 415 or 500, and
    the state is left as it was: no peer record is created, modified or
    deleted (and no rate limit counter moves). The status is 415 when the
    content type is not JSON, and otherwise 500 when the body does not
    parse or is [null]; for a body that parses to a [Body] in which [from],
    if there is one, does not lead out of [friends/], it is 401. *)
Theorem message_without_authorization (clock : Clock) (config : Configuration)
    (req : Request) (st : State) :
  method req = "POST" → pathname req = "/message" → authorization req = None →
  let result := handleRequest clock config req st in
  result.2 = st ∧
  has_field "error" result.1 = true ∧
  (statusCode result.1 = 401 ∨ statusCode result.1 = 415 ∨ statusCode result.1 = 500)%Z ∧
  (negb (includes "application/json" (default "" (content_type req))) = true →
   statusCode result.1 = 415%Z) ∧
  (includes "application/json" (default "" (content_type req)) = true →
   (parsed req = Thrown ∨ parsed req = Normal None) →
   statusCode result.1 = 500%Z) ∧
  (∀ body,
     includes "application/json" (default "" (content_type req)) = true →
     parsed req = Normal (Some body) →
     (∀ from, body_from body = Some from → friend_file from ≠ Elsewhere) →
     statusCode result.1 = 401%Z).
Proof.
  intros Hmethod Hpath Hauth. cbv zeta. unfold handleRequest.
  rewrite Hmethod, Hpath. simpl.
  destruct (includes _ _); simpl.
  - destruct (parsed req) as [[body|]|] eqn:Hbody.
    + destruct (handleMessage_no_header clock config req st body Hauth Hbody) as [e ->].
      simpl. split_and!; auto; try done. by intros _ [?|?].
    + unfold handleMessage. rewrite Hbody. simpl. split_and!; auto; done.
    + unfold handleMessage. rewrite Hbody. simpl. split_and!; auto; done.
  - split_and!; auto; done.
Qed.

End MessageFacts.

(** ** Validation of the message body *)
Section ValidationFacts.
Context {P : NodePrimitives} {E : HostEffects}.
Import Auth Config Crypto Server Runs.

(** A body without [from] is refused by [authenticateFriend], and the
    message handler answers every such refusal with 401. *)
Lemma handleMessage_without_from (clock : Clock) (config : Configuration)
    (req : Request) (st : State) (body : Body) :
  parsed req = Normal (Some body) → falsy (body_from body) = true →
  handleMessage clock config req st
  = responds (sendJSON 401 [("error", JString ("Missing " +:+ quoted "from" +:+ " field"))]) st.
Proof.
  intros Hbody Hfrom. unfold handleMessage, authenticateFriend.
  by rewrite Hbody, Hfrom.
Qed.

(** The handlers of /pair-accept and /heartbeat answer the same defect
    with 400. *)
Lemma siblings_without_from (clock : Clock) (req : Request) (st : State) (body : Body) :
  parsed req = Normal (Some body) → falsy (body_from body) = true →
  response (handlePairAccept clock req st)
  = Normal (sendJSON 400 [("error", JString "Missing required field: from")]) ∧
  response (handleHeartbeat clock req st)
  = Normal (sendJSON 400 [("error", JString ("Missing " +:+ quoted "from" +:+ " field"))]).
Proof.
  intros Hbody Hfrom. unfold handlePairAccept, handleHeartbeat.
  by rewrite Hbody, Hfrom.
Qed.

(** C6, amended. Authentication comes before validation. For every POST
    to /message with a JSON content type whose body parses to a [Body] that
    names its sender in [from] (a name that does not lead out of
    [friends/]) and lacks the [message] field (or has it empty), the state
    is left as it was, and the answer is 400 with an [error] field when the
    sender is authenticated ([from] leads to a stored pending or paired
    record and the bearer token is verified against it), and 401 with the
    error of the authentication when it is not. *)
Theorem message_field_required (clock : Clock) (config : Configuration)
    (req : Request) (st : State) (body : Body) (from : string) :
  method req = "POST" → pathname req = "/message" →
  includes "application/json" (default "" (content_type req)) = true →
  parsed req = Normal (Some body) →
  body_from body = Some from → from ≠ "" → friend_file from ≠ Elsewhere →
  falsy (body_message body) = true →
  let authenticated :=
    match loadFriend from (friends st) with
    | Some f =>
        (bool_decide (status f = "paired") || bool_decide (status f = "pending")) &&
        match verifyBearerToken (authorization req) (token f) with
        | Valid => true
        | Invalid _ => false
        end
    | None => false
    end in
  let result := handleRequest clock config req st in
  result.2 = st ∧
  has_field "error" result.1 = true ∧
  statusCode result.1 = (if authenticated then 400 else 401)%Z ∧
  (authenticated = true →
   result.1 = sendJSON 400 [("error", JString ("Missing " +:+ quoted "message" +:+ " field"))]).
Proof.
  intros Hmethod Hpath Hjson Hbody Hfrom Hne _ Hmsg. cbv zeta.
  unfold handleRequest. rewrite Hmethod, Hpath, Hjson. simpl.
  unfold handleMessage. rewrite Hbody.
  unfold authenticateFriend, falsy. rewrite Hfrom, (bool_decide_eq_false_2 _ Hne). simpl.
  destruct (loadFriend from (friends st)) as [f|]; [|done].
  destruct (bool_decide (status f = "paired")), (bool_decide (status f = "pending"));
    simpl; try done;
    (destruct (verifyBearerToken _ _) eqn:Hv; [|done];
     unfold falsy in Hmsg; by rewrite Hmsg).
Qed.

End ValidationFacts.

(** ** The bound on the conversation history *)
Section HistoryFacts.
Context {P : NodePrimitives} {E : HostEffects}.
Import Auth Config Crypto Server SendMessage Runs.

(** What both scripts do after [push]: keep the last 100. *)
Lemma keep_last_100 (old : list Message) (entry : Message) :
  keeps_latest_100 old entry
    (if (100 <? length (old ++ [entry]))%nat then slice_last 100 (old ++ [entry])
     else old ++ [entry]) ∧
  length (if (100 <? length (old ++ [entry]))%nat then slice_last 100 (old ++ [entry])
          else old ++ [entry]) ≤ 100.
Proof.
  set (grown := old ++ [entry]).
  assert ((if (100 <? length grown)%nat then slice_last 100 grown else grown)
          = drop (length grown - 100) grown) as ->.
  { unfold slice_last. destruct (Nat.ltb_spec 100 (length grown)); [done|].
    replace (length grown - 100) with 0 by lia. by rewrite drop_0. }
  split.
  - exists (take (length grown - 100) grown). split.
    + by rewrite take_drop.
    + rewrite length_drop. subst grown. rewrite length_app.
      change (length [entry]) with 1. lia.
  - rewrite length_drop. lia.
Qed.


(** The path of the message handler that ends in 200: the answer, the
    record it stores, and the directory it leaves. *)
Lemma handleMessage_delivered (clock : Clock) (config : Configuration)
    (req : Request) (st : State) (body : Body) (friend : Friend)
    (from m plaintext : string) :
  parsed req = Normal (Some body) →
  authenticateFriend req body (friends st) = inr friend →
  body_from body = Some from →
  body_message body = Some m → m ≠ "" →
  allowed (checkRateLimit (t_limit clock) from (rateLimits st)).1 = true →
  (if body_encrypted body then decryptMessage m (token friend) else Some m) = Some plaintext →
  let out := handleMessage clock config req st in
  let got := received from plaintext body (friends st) in
  let entry := incoming_entry clock from got.1 body in
  let saved := saveFriend from (appended friend entry (t_saved clock)) got.2 in
  response out =
    Normal (sendJSON 200 [("status", JString "delivered");
                          ("message", JString "Message received");
                          ("remaining",
                           JNumber (remaining (checkRateLimit (t_limit clock) from
                                                 (rateLimits st)).1))]) ∧
  friends (state out) =
    match reply out with
    | Some AutoReply => exec_reply from saved
    | _ => saved
    end ∧
  rateLimits (state out) = (checkRateLimit (t_limit clock) from (rateLimits st)).2 ∧
  pairRequestLimits (state out) = pairRequestLimits st ∧
  reply out =
    Some (if bool_decide (friendMode config = "auto") &&
             negb (overCooldown (t_cooldown clock) config from saved) then AutoReply
          else if bool_decide (friendMode config = "auto") &&
                  overCooldown (t_cooldown clock) config from saved then CooldownPause
          else ManualNotify).
Proof.
  intros Hbody Hauth Hfrom Hm Hne Hrate Hdec. cbv zeta.
  unfold handleMessage. rewrite Hbody, Hauth, Hfrom, Hm.
  unfold falsy. rewrite (bool_decide_eq_false_2 _ Hne). simpl default.
  destruct (checkRateLimit _ _ _) as [rc rl]. simpl in Hrate. rewrite Hrate.
  simpl negb. cbv iota. rewrite Hdec. cbv beta iota.
  unfold received.
  destruct (if bool_decide (body_message_type body = Some "file") then _ else _)
    as [text written]. cbn [fst snd].
  unfold appended, incoming_entry.
  destruct (bool_decide (friendMode config = "auto") && negb _); [done|].
  destruct (bool_decide (friendMode config = "auto") && _); done.
Qed.



(** The reply the handler decides on is read off the history as it is
    stored once the message has been saved: automatic mode replies unless
    [overCooldown] holds there. *)
Lemma handleMessage_reply (clock : Clock) (config : Configuration)
    (req : Request) (st : State) (body : Body) (friend : Friend)
    (from m plaintext : string) :
  parsed req = Normal (Some body) →
  authenticateFriend req body (friends st) = inr friend →
  body_from body = Some from →
  body_message body = Some m → m ≠ "" →
  allowed (checkRateLimit (t_limit clock) from (rateLimits st)).1 = true →
  (if body_encrypted body then decryptMessage m (token friend) else Some m) = Some plaintext →
  let got := received from plaintext body (friends st) in
  let saved :=
    saveFriend from (appended friend (incoming_entry clock from got.1 body) (t_saved clock))
      got.2 in
  let over := overCooldown (t_cooldown clock) config from saved in
  reply (handleMessage clock config req st) =
    Some (if bool_decide (friendMode config = "auto") && negb over then AutoReply
          else if bool_decide (friendMode config = "auto") && over then CooldownPause
          else ManualNotify).
Proof.
  intros Hbody Hauth Hfrom Hm Hne Hrate Hdec.
  apply (handleMessage_delivered clock config req st body friend from m plaintext
           Hbody Hauth Hfrom Hm Hne Hrate Hdec).
Qed.

End HistoryFacts.

(** ** Messages from a pending peer *)
Section PendingFacts.
Context {P : NodePrimitives} {E : HostEffects}.
Import Auth Config Crypto Server Runs.


End PendingFacts.

(** ** Runs of the message endpoint on the sample primitives *)
Section MessageRuns.
Import Auth Config Crypto Server Runs Sample.

(** The claim as the specification states it fails: a POST to /message
    without [Authorization] header whose body is not JSON is answered 500,
    not 401. *)
Lemma message_without_authorization_500 :
  let req := Sample.post_message None Thrown in
  let st := Sample.state {[ "bob" := Sample.friend "bob" Sample.token64 "paired" ]} in
  authorization req = None ∧
  statusCode (handleRequest (Sample.clock 0) Sample.config req st).1 = 500%Z.
Proof. by vm_compute. Qed.

(** A JSON POST to /message from a paired peer that forgot the header. *)
Lemma message_without_authorization_witness :
  let req := Sample.post_message None (Normal (Some (Sample.body (Some "bob") (Some "hi")))) in
  let st := Sample.state {[ "bob" := Sample.friend "bob" Sample.token64 "paired" ]} in
  let result := handleRequest (Sample.clock 0) Sample.config req st in
  result.2 = st ∧ has_field "error" result.1 = true ∧ statusCode result.1 = 401%Z.
Proof.
  cbv zeta.
  pose proof (message_without_authorization (Sample.clock 0) Sample.config
                (Sample.post_message None (Normal (Some (Sample.body (Some "bob") (Some "hi")))))
                (Sample.state {[ "bob" := Sample.friend "bob" Sample.token64 "paired" ]})
                eq_refl eq_refl eq_refl) as H.
  cbv zeta in H. destruct H as (Hst & Herr & _ & _ & _ & H401).
  split; [exact Hst|]. split; [exact Herr|].
  apply (H401 (Sample.body (Some "bob") (Some "hi"))); [reflexivity..|].
  intros from [= <-]. by vm_compute.
Defined.

(** The claim as the specification states it fails, for either field: a
    POST to /message whose body lacks [from] is answered 401, not 400, even
    with a well-formed bearer header; and one that lacks [message] and
    presents a wrong token is answered 401 too. *)
Lemma message_field_missing_401 :
  let wrong := "ffffffffffffffffffffffffffffffffffffffffffffffffffffffffffffffff" in
  let st := state {[ "bob" := friend "bob" token64 "paired" ]} in
  let no_from :=
    post_message (Some ("Bearer " +:+ token64)) (Normal (Some (body None (Some "hi")))) in
  let no_message :=
    post_message (Some ("Bearer " +:+ wrong)) (Normal (Some (body (Some "bob") None))) in
  handleRequest (clock 0) config no_from st
  = (sendJSON 401 [("error", JString ("Missing " +:+ quoted "from" +:+ " field"))], st) ∧
  handleRequest (clock 0) config no_message st
  = (sendJSON 401 [("error", JString "Invalid token")], st).
Proof. by vm_compute. Qed.

(** A paired peer, authenticated, that sends no [message]. *)
Lemma message_field_required_witness :
  let req := post_message (Some ("Bearer " +:+ token64)) (Normal (Some (body (Some "bob") None))) in
  let st := state {[ "bob" := friend "bob" token64 "paired" ]} in
  let result := handleRequest (clock 0) config req st in
  result.2 = st ∧
  result.1 = sendJSON 400 [("error", JString ("Missing " +:+ quoted "message" +:+ " field"))].
Proof.
  cbv zeta.
  pose proof (message_field_required (clock 0) config
                (post_message (Some ("Bearer " +:+ token64))
                   (Normal (Some (body (Some "bob") None))))
                (state {[ "bob" := friend "bob" token64 "paired" ]})
                (body (Some "bob") None) "bob"
                eq_refl eq_refl eq_refl eq_refl eq_refl) as H.
  cbv zeta in H.
  destruct H as (Hst & _ & _ & H400); [done|by vm_compute|reflexivity|].
  split; [exact Hst|]. apply H400. by vm_compute.
Defined.



(** What that run stores and answers. *)
Example pending_peer_message_run :
  let out :=
    handleMessage (clock 5) config
      (post_message (Some ("Bearer " +:+ token64))
         (Normal (Some (body (Some "bob") (Some "hi")))))
      (state {[ "bob" := friend "bob" token64 "pending" ]}) in
  response out =
    Normal (sendJSON 200 [("status", JString "delivered");
                          ("message", JString "Message received");
                          ("remaining", JNumber (Some 9%Z))]) ∧
  friends (Server.state out) !! "bob" =
    Some {| name := "bob"; webhook_url := "https://bob.example"; token := token64;
            status := "pending"; paired_at := None; last_heartbeat := None;
            last_message_at := Some 5%Z;
            conversation_history :=
              Some [ {| msg_from := "bob"; msg_message := "hi";
                        msg_timestamp := ValidDate 5; msg_direction := incoming |} ] |}.
Proof. by vm_compute. Qed.

(** A sender is found by the path its name makes: a message from [./bob]
    with the token of [bob] is delivered and stored in the record of [bob],
    with [./bob] as the sender of the entry; and it is counted against
    [./bob], not against [bob]. *)
Example message_by_path :
  let out :=
    handleMessage (clock 5) config
      (post_message (Some ("Bearer " +:+ token64))
         (Normal (Some (body (Some "./bob") (Some "hi")))))
      (state {[ "bob" := friend "bob" token64 "paired" ]}) in
  (∃ r, response out = Normal r ∧ statusCode r = 200%Z) ∧
  stored_history "bob" (friends (Server.state out)) =
    [ {| msg_from := "./bob"; msg_message := "hi";
         msg_timestamp := ValidDate 5; msg_direction := incoming |} ] ∧
  rateLimits (Server.state out) !! "bob" = None ∧
  rateLimits (Server.state out) !! "./bob" = Some {| count := 1; windowStart := 5 |}.
Proof. split; [eexists; split; by vm_compute|]. by vm_compute. Qed.

(** A peer may call itself [toString]: the name passes [isValidName], the
    pair request stores it, and none of its twelve messages within the same
    minute is refused. The same twelve messages from [bob] stop at the
    eleventh. *)
Example rate_limit_by_name :
  let messages name :=
    (λ t : Z, (clock t,
               post_message (Some ("Bearer " +:+ token64))
                 (Normal (Some (body (Some name) (Some "hi")))))) <$>
      [1; 2; 3; 4; 5; 6; 7; 8; 9; 10; 11; 12]%Z in
  let run name :=
    (serve_all config ((clock 0, post_pair_request name token64) :: messages name)
       (state ∅)).1 in
  isValidName "toString" = true ∧
  run "toString" = [200; 200; 200; 200; 200; 200; 200; 200; 200; 200; 200; 200; 200]%Z ∧
  run "bob" = [200; 200; 200; 200; 200; 200; 200; 200; 200; 200; 200; 429; 429]%Z.
Proof. by vm_compute. Qed.

(** A history that is full: the message is stored, the history still has
    100 entries, and the entry that left is the oldest one. *)
Example history_full_run :
  let old :=
    (λ i : nat, {| msg_from := "bob"; msg_message := "m";
                   msg_timestamp := ValidDate (Z.of_nat i);
                   msg_direction := incoming |}) <$> seq 0 100 in
  let bob :=
    {| name := "bob"; webhook_url := "https://bob.example"; token := token64;
       status := "paired"; paired_at := Some 0%Z; last_heartbeat := None;
       last_message_at := Some 99%Z; conversation_history := Some old |} in
  let out :=
    handleMessage (clock 100) config
      (post_message (Some ("Bearer " +:+ token64))
         (Normal (Some (body (Some "bob") (Some "hi")))))
      (state {[ "bob" := bob ]}) in
  stored_history "bob" (friends (Server.state out)) =
    drop 1 old ++ [ {| msg_from := "bob"; msg_message := "hi";
                       msg_timestamp := ValidDate 100; msg_direction := incoming |} ] ∧
  length (stored_history "bob" (friends (Server.state out))) = 100.
Proof. by vm_compute. Qed.


End MessageRuns.

(** ** The bearer check, read backwards *)
Section BearerSoundness.
Context {P : NodePrimitives}.
Import Auth.

Lemma split_on_nonempty (sep : ascii) (s : string) : split_on sep s ≠ [].
Proof.
  destruct s as [|c s]; simpl; [done|].
  case_bool_decide; [done|]. by destruct (split_on sep s).
Qed.

Lemma split_on_one (sep : ascii) (s a : string) :
  split_on sep s = [a] → s = a ∧ sep ∉ list_ascii_of_string a.
Proof.
  revert a. induction s as [|c s IH]; intros a; simpl.
  - intros [= <-]. split; [done|]. simpl. apply not_elem_of_nil.
  - case_bool_decide as Hc.
    + intros [= <- Hrest]. by destruct (split_on_nonempty sep s).
    + destruct (split_on sep s) as [|w ws] eqn:Hs; [by destruct (split_on_nonempty sep s)|].
      intros [= <- ->]. destruct (IH w eq_refl) as [-> Hw].
      split; [done|]. simpl. apply not_elem_of_cons. split; [congruence|done].
Qed.

(** A string that splits in two is the two pieces around one separator. *)
Lemma split_on_two (sep : ascii) (s a b : string) :
  split_on sep s = [a; b] →
  s = (a +:+ String sep b) ∧
  (sep ∉ list_ascii_of_string a) ∧ (sep ∉ list_ascii_of_string b).
Proof.
  revert a. induction s as [|c s IH]; intros a; simpl; [done|].
  case_bool_decide as Hc.
  - intros [= <- Hrest]. apply split_on_one in Hrest as [-> Hb].
    subst c. split; [done|]. split; [|done]. simpl. apply not_elem_of_nil.
  - destruct (split_on sep s) as [|w ws] eqn:Hs; [done|].
    intros [= <- ->]. destruct (IH w eq_refl) as (-> & Hw & Hb).
    split; [done|]. split; [|done].
    simpl. apply not_elem_of_cons. split; [congruence|done].
Qed.

(** What an accepted header looks like, before the tokens are compared as
    strings. *)
Lemma verifyBearerToken_Valid_header (h : option string) (expected : string) :
  verifyBearerToken h expected = Valid →
  ∃ tok, h = Some ("Bearer " +:+ tok) ∧ (20 ≤ code_unit_length tok)%nat ∧
         (" "%char ∉ list_ascii_of_string tok) ∧
         utf8_encode expected = utf8_encode tok.
Proof.
  unfold verifyBearerToken. destruct h as [s|]; [|done]. unfold falsy at 1.
  case_bool_decide; [done|]. simpl default.
  destruct (split_on " " s) as [|scheme [|tok [|]]] eqn:Hs; try done.
  apply split_on_two in Hs as (-> & _ & Htok).
  case_bool_decide as Hscheme; simpl negb; cbv iota; [|done]. subst scheme.
  destruct (falsy (Some tok) || _) eqn:Hshort; [done|].
  apply orb_false_iff in Hshort as [_ Hlen]. apply Nat.ltb_ge in Hlen.
  destruct (negb (_ =? _)%nat); [done|].
  case_bool_decide as Heq; simpl negb; cbv iota; [|done].
  intros _. exists tok. done.
Qed.

End BearerSoundness.

Section BearerSoundnessLaws.
Context {P : NodePrimitives} {L : NodePrimitivesLaws P}.
Import Auth.

(** Two well-formed strings with the same UTF-8 bytes are the same string. *)
Lemma utf8_encode_inj (a b : string) :
  isWellFormed a = true → isWellFormed b = true →
  utf8_encode a = utf8_encode b → a = b.
Proof.
  intros Ha Hb H.
  rewrite <- (utf8_decode_encode a Ha), <- (utf8_decode_encode b Hb). by rewrite H.
Qed.

(** The only well-formed header the bearer check accepts for a well-formed
    stored token. *)
Lemma verifyBearerToken_Valid_inv (h : option string) (expected : string) :
  isWellFormed expected = true →
  (∀ s, h = Some s → isWellFormed s = true) →
  verifyBearerToken h expected = Valid →
  h = Some ("Bearer " +:+ expected) ∧ (20 ≤ code_unit_length expected)%nat ∧
  " "%char ∉ list_ascii_of_string expected.
Proof.
  intros Hexp Hh H.
  apply verifyBearerToken_Valid_header in H as (tok & -> & Hlen & Hsp & Henc).
  specialize (Hh _ eq_refl). change (isWellFormed tok = true) in Hh.
  apply utf8_encode_inj in Henc as ->; done.
Qed.

(** X1. For a stored token and a header that are well-formed strings (no
    lone surrogate), the bearer check accepts the header exactly when it is
    [Bearer ] followed by the stored token, code unit for code unit, and
    that token has at least 20 UTF-16 code units and contains no space: no
    other header is accepted, and a stored token that fails the format test
    is accepted under no header at all. *)
Theorem verifyBearerToken_Valid_iff (h : option string) (expected : string) :
  isWellFormed expected = true →
  (∀ s, h = Some s → isWellFormed s = true) →
  (verifyBearerToken h expected = Valid ↔
   h = Some ("Bearer " +:+ expected) ∧ (20 ≤ code_unit_length expected)%nat ∧
   " "%char ∉ list_ascii_of_string expected).
Proof.
  intros Hexp Hh. split.
  - by apply verifyBearerToken_Valid_inv.
  - intros (-> & Hlen & Hsp). by apply verifyBearerToken_stored_token.
Qed.

End BearerSoundnessLaws.

(** ** What a request may change *)
Section EffectFacts.
Context {P : NodePrimitives} {E : HostEffects}.
Import Auth Config Crypto Server Runs Effects.

Lemma updated_refl (f : Friend) : updated f f.
Proof. unfold updated. split_and!; auto. Qed.

Lemma handlePairRequest_effect (clock : Clock) (req : Request) (st : State) :
  pathname req = "/pair-request" →
  let h := handlePairRequest clock req st in
  startTime (state h) = startTime st ∧
  rateLimits (state h) = rateLimits st ∧
  ∃ code,
    try_catch (response h) (sendJSON 500 [("error", JString "Internal server error")])
    = sendJSON code (data (try_catch (response h)
                             (sendJSON 500 [("error", JString "Internal server error")]))) ∧
    (code ≠ 200%Z →
     has_field "error"
       (try_catch (response h) (sendJSON 500 [("error", JString "Internal server error")]))
     = true) ∧
    effect req code (friends st) (friends (state h)).
Proof.
  intros Hpath. simpl. unfold handlePairRequest.
  destruct (checkPairRequestLimit _ _ _) as [ok limits].
  destruct ok; simpl negb; cbv iota.
  2:{ split_and!; try done. exists 429%Z. split_and!; try done. by left. }
  destruct (parsed req) as [[body|]|] eqn:Hbody.
  2,3: split_and!; try done; exists 500%Z; split_and!; try done; by left.
  destruct (falsy (body_from body) || _ || _) eqn:Hfields.
  { split_and!; try done. exists 400%Z. split_and!; try done. by left. }
  apply orb_false_iff in Hfields as [Hfields Hurl].
  apply orb_false_iff in Hfields as [Hfrom Htok].
  destruct (body_from body) as [n|] eqn:Hn; [|done]. simpl default.
  destruct (isValidName n) eqn:Hvalid; simpl negb; cbv iota.
  2:{ split_and!; try done. exists 400%Z. split_and!; try done. by left. }
  pose proof (friend_file_valid n Hvalid) as Hfile.
  rewrite (loadFriend_stem n n _ Hfile), (saveFriend_stem n n _ _ Hfile).
  destruct (match friends st !! n with Some _ => _ | None => _ end) eqn:Hpaired.
  { split_and!; try done. exists 409%Z. split_and!; try done. by left. }
  split_and!; try done. exists 200%Z. split_and!; try done.
  right. exists body, n, n, (requested n body). split_and!; try done.
  - simpl in Hfrom. by apply bool_decide_eq_false_1 in Hfrom.
  - left. split_and!; try done.
    intros f Hf. rewrite Hf in Hpaired.
    by apply bool_decide_eq_false_1 in Hpaired.
Qed.

Lemma handlePairAccept_effect (clock : Clock) (req : Request) (st : State) :
  let h := handlePairAccept clock req st in
  state h = with_friends st (friends (state h)) ∧
  ∃ code,
    try_catch (response h) (sendJSON 500 [("error", JString "Internal server error")])
    = sendJSON code (data (try_catch (response h)
                             (sendJSON 500 [("error", JString "Internal server error")]))) ∧
    (code ≠ 200%Z →
     has_field "error"
       (try_catch (response h) (sendJSON 500 [("error", JString "Internal server error")]))
     = true) ∧
    effect req code (friends st) (friends (state h)).
Proof.
  simpl. unfold handlePairAccept.
  destruct (parsed req) as [[body|]|] eqn:Hbody.
  2,3: split; [by destruct st|]; exists 500%Z; split_and!; try done; by left.
  destruct (falsy (body_from body)) eqn:Hfrom.
  { split; [by destruct st|]. exists 400%Z. split_and!; try done. by left. }
  destruct (body_from body) as [n|] eqn:Hn; [|done]. simpl default.
  unfold loadFriend, saveFriend. destruct (friend_file n) as [stem| |] eqn:Hfile.
  2,3: split; [by destruct st|]; exists 404%Z; split_and!; try done; by left.
  destruct (friends st !! stem) as [f|] eqn:Hf.
  2:{ split; [by destruct st|]. exists 404%Z. split_and!; try done. by left. }
  destruct (verifyBearerToken _ _) eqn:Hv.
  2:{ split; [by destruct st|]. exists 401%Z. split_and!; try done. by left. }
  split; [done|]. exists 200%Z. split_and!; try done.
  right. eexists body, n, stem, _. split_and!; try done.
  - simpl in Hfrom. by apply bool_decide_eq_false_1 in Hfrom.
  - right. exists f. split_and!; try done.
    unfold updated. simpl. split_and!; auto.
    destruct (body_webhook_url body) as [u|]; simpl; [|by left].
    case_bool_decide; [by left | by right].
Qed.

Lemma handleHeartbeat_effect (clock : Clock) (req : Request) (st : State) :
  let h := handleHeartbeat clock req st in
  state h = with_friends st (friends (state h)) ∧
  ∃ code,
    try_catch (response h) (sendJSON 500 [("error", JString "Internal server error")])
    = sendJSON code (data (try_catch (response h)
                             (sendJSON 500 [("error", JString "Internal server error")]))) ∧
    (code ≠ 200%Z →
     has_field "error"
       (try_catch (response h) (sendJSON 500 [("error", JString "Internal server error")]))
     = true) ∧
    effect req code (friends st) (friends (state h)).
Proof.
  simpl. unfold handleHeartbeat.
  destruct (parsed req) as [[body|]|] eqn:Hbody.
  2,3: split; [by destruct st|]; exists 500%Z; split_and!; try done; by left.
  destruct (falsy (body_from body)) eqn:Hfrom.
  { split; [by destruct st|]. exists 400%Z. split_and!; try done. by left. }
  destruct (body_from body) as [n|] eqn:Hn; [|done]. simpl default.
  unfold recordHeartbeat, loadFriend, saveFriend.
  destruct (friend_file n) as [stem| |] eqn:Hfile.
  2,3: split; [by destruct st|]; exists 401%Z; split_and!; try done; by left.
  destruct (friends st !! stem) as [f|] eqn:Hf.
  2:{ split; [by destruct st|]. exists 401%Z. split_and!; try done. by left. }
  case_bool_decide as Hpaired; simpl negb; cbv iota.
  2:{ split; [by destruct st|]. exists 401%Z. split_and!; try done. by left. }
  destruct (verifyBearerToken _ _) eqn:Hv.
  2:{ split; [by destruct st|]. exists 401%Z. split_and!; try done. by left. }
  split; [done|]. exists 200%Z. split_and!; try done.
  right. simpl.
  eexists body, n, stem, _. split_and!; try done.
  - simpl in Hfrom. by apply bool_decide_eq_false_1 in Hfrom.
  - right. exists f. split_and!; try done.
    unfold updated. simpl. split_and!; auto.
Qed.

(** A message that is no file message, in a friend mode other than
    ['auto']: the handler neither receives a file nor runs the reply
    command. *)
Lemma handleMessage_effect (clock : Clock) (config : Configuration)
    (req : Request) (st : State) :
  friendMode config ≠ "auto" → no_file_message req →
  let h := handleMessage clock config req st in
  startTime (state h) = startTime st ∧
  pairRequestLimits (state h) = pairRequestLimits st ∧
  ∃ code,
    try_catch (response h) (sendJSON 500 [("error", JString "Internal server error")])
    = sendJSON code (data (try_catch (response h)
                             (sendJSON 500 [("error", JString "Internal server error")]))) ∧
    (code ≠ 200%Z →
     has_field "error"
       (try_catch (response h) (sendJSON 500 [("error", JString "Internal server error")]))
     = true) ∧
    effect req code (friends st) (friends (state h)).
Proof.
  intros Hmode Hfile. simpl. unfold handleMessage.
  destruct (parsed req) as [[body|]|] eqn:Hbody.
  2,3: split_and!; try done; exists 500%Z; split_and!; try done; by left.
  destruct (authenticateFriend req body (friends st)) as [e|friend] eqn:Hauth.
  { split_and!; try done. exists 401%Z. split_and!; try done. by left. }
  apply authenticateFriend_inr in Hauth
    as (n & stem & Hn & Hne & Hstem & Hf & Hstatus & Hv).
  rewrite Hn. simpl default.
  destruct (falsy (body_message body)).
  { split_and!; try done. exists 400%Z. split_and!; try done. by left. }
  destruct (checkRateLimit _ _ _) as [rc rl].
  destruct (allowed rc); simpl negb; cbv iota.
  2:{ split_and!; try done. exists 429%Z. split_and!; try done. by left. }
  destruct (if body_encrypted body then _ else _) as [plaintext|].
  2:{ split_and!; try done. exists 400%Z. split_and!; try done. by left. }
  rewrite (bool_decide_eq_false_2 _ (Hfile body Hbody)).
  rewrite (bool_decide_eq_false_2 _ Hmode). cbn [andb]. cbv iota.
  rewrite (saveFriend_stem n stem _ _ Hstem).
  split_and!; try done. exists 200%Z. split_and!; try done.
  right. simpl.
  eexists body, n, stem, _. split_and!; try done.
  right. exists friend. split_and!; try done.
  unfold updated. simpl. split_and!; auto.
  right. eexists. split; [done|]. apply keep_last_100.
Qed.

(** The [try] statement of the listener: every response it sends has a
    status code, every response other than 200 has an [error] field, the
    start time is never touched, and the directory changes as [effect]
    says. *)
Lemma handleRequest_effect (clock : Clock) (config : Configuration)
    (req : Request) (st : State) :
  friendMode config ≠ "auto" → no_file_message req →
  let result := handleRequest clock config req st in
  startTime result.2 = startTime st ∧
  (statusCode result.1 ≠ 200%Z → has_field "error" result.1 = true) ∧
  effect req (statusCode result.1) (friends st) (friends result.2).
Proof.
  intros Hmode Hfile. simpl. unfold handleRequest.
  destruct (negb (bool_decide (method req = "GET")) && _).
  { split_and!; try done. by left. }
  destruct (bool_decide (method req = "GET") && _).
  { split_and!; try done. by left. }
  destruct (bool_decide (method req = "POST")); [|split_and!; try done; by left].
  destruct (negb (includes _ _)); [split_and!; try done; by left|].
  case_bool_decide as Hpr.
  { destruct (handlePairRequest_effect clock req st Hpr) as (Ht & _ & code & Hr & He & Heff).
    simpl in *. rewrite Hr. simpl. rewrite Hr in He. split_and!; try done. }
  case_bool_decide as Hpa.
  { destruct (handlePairAccept_effect clock req st) as (Hst & code & Hr & He & Heff).
    simpl in *. rewrite Hr. simpl. rewrite Hr in He. rewrite Hst. split_and!; try done. }
  case_bool_decide as Hm.
  { destruct (handleMessage_effect clock config req st Hmode Hfile)
      as (Ht & _ & code & Hr & He & Heff).
    simpl in *. rewrite Hr. simpl. rewrite Hr in He. split_and!; try done. }
  case_bool_decide as Hh.
  { destruct (handleHeartbeat_effect clock req st) as (Hst & code & Hr & He & Heff).
    simpl in *. rewrite Hr. simpl. rewrite Hr in He. rewrite Hst. split_and!; try done. }
  split_and!; try done. by left.
Qed.

End EffectFacts.

(** ** Integrity of the directory under arbitrary requests *)
Section IntegrityFacts.
Context {P : NodePrimitives} {E : HostEffects}.
Import Auth Config Crypto Server Runs Effects.

Lemma falsy_false (v : option string) :
  falsy v = false → ∃ s, v = Some s ∧ s ≠ "".
Proof.
  destruct v as [s|]; [|done]. simpl. intros H%bool_decide_eq_false_1. eauto.
Qed.

Lemma serve_all_cons (config : Configuration) (clock : Clock) (req : Request)
    (rest : list (Clock * Request)) (st : State) :
  serve_all config ((clock, req) :: rest) st =
    (statusCode (handleRequest clock config req st).1 ::
       (serve_all config rest (handleRequest clock config req st).2).1,
     (serve_all config rest (handleRequest clock config req st).2).2).
Proof.
  cbn [serve_all]. destruct (handleRequest clock config req st) as [r st1].
  cbn [fst snd]. by destruct (serve_all config rest st1).
Qed.

Lemma serve_all_app (config : Configuration) (reqs1 reqs2 : list (Clock * Request))
    (st : State) :
  serve_all config (reqs1 ++ reqs2) st =
    ((serve_all config reqs1 st).1 ++
       (serve_all config reqs2 (serve_all config reqs1 st).2).1,
     (serve_all config reqs2 (serve_all config reqs1 st).2).2).
Proof.
  revert st. induction reqs1 as [|[clock req] rest IH]; intros st.
  - simpl. by destruct (serve_all config reqs2 st).
  - rewrite <- app_comm_cons, !serve_all_cons, IH. done.
Qed.

(** One request keeps a paired record paired, under its name and token. *)
Lemma handleRequest_keeps_paired (clock : Clock) (config : Configuration)
    (req : Request) (st : State) (n : string) (f : Friend) :
  friendMode config ≠ "auto" → no_file_message req →
  friends st !! n = Some f → status f = "paired" →
  ∃ f', friends (handleRequest clock config req st).2 !! n = Some f' ∧
        status f' = "paired" ∧ token f' = token f ∧ name f' = name f.
Proof.
  intros Hmode Hfile Hf Hs.
  destruct (handleRequest_effect clock config req st Hmode Hfile)
    as (_ & _ & [-> | Heff]); [eauto|].
  destruct Heff as (body & from & n' & f' & _ & _ & _ & _ & _ & -> & Hcase).
  destruct (decide (n = n')) as [<-|Hn]; [|rewrite lookup_insert_ne by done; eauto].
  rewrite lookup_insert_eq. exists f'. split; [done|].
  destruct Hcase as [(_ & _ & _ & _ & _ & Hnot & _) | (f0 & Hf0 & _ & Hname & Htok & Hst & _)].
  - by destruct (Hnot f Hf).
  - rewrite Hf in Hf0. injection Hf0 as <-. rewrite Hs in Hst. by destruct Hst.
Qed.

(** One request keeps the records well formed. *)
Lemma handleRequest_well_formed (clock : Clock) (config : Configuration)
    (req : Request) (st : State) :
  friendMode config ≠ "auto" → no_file_message req →
  (∀ k f, friends st !! k = Some f → well_formed k f) →
  ∀ k f, friends (handleRequest clock config req st).2 !! k = Some f → well_formed k f.
Proof.
  intros Hmode Hfile Hwf k f'.
  destruct (handleRequest_effect clock config req st Hmode Hfile)
    as (_ & _ & [-> | Heff]); [apply Hwf|].
  destruct Heff as (body & from & n & g & _ & _ & _ & Hne & _ & -> & Hcase).
  destruct (decide (k = n)) as [->|Hk]; [|rewrite lookup_insert_ne by done; apply Hwf].
  rewrite lookup_insert_eq. intros [= <-].
  destruct Hcase as [(_ & _ & Hvalid & Htok & Hurl & _ & ->) | (f & Hf & _ & Hupd)].
  - apply falsy_false in Htok as (t & Ht & Htne).
    apply falsy_false in Hurl as (u & Hu & Hune).
    unfold well_formed, requested. simpl. rewrite Ht, Hu. simpl.
    split_and!; auto. exists []. split; [done|]. simpl. lia.
  - destruct (Hwf n f Hf)
      as (Hname & Hvalid & Hstatus & Htok & Hurl & (history & Hh & Hlen) & Hbeat).
    destruct Hupd as (Hname' & Htok' & Hst' & Hurl' & Hh' & Hbeat').
    unfold well_formed. split_and!.
    + congruence.
    + done.
    + destruct Hst' as [->| ->]; auto.
    + congruence.
    + destruct Hurl' as [->|]; done.
    + destruct Hh' as [-> | (kept & -> & Hkept)]; eauto.
    + intros Hpending. destruct Hbeat' as [-> | Hp]; [|congruence].
      destruct Hst' as [Hsame | Hp]; [|congruence]. apply Hbeat. congruence.
Qed.


(** X3. Once paired, always paired: whatever requests arrive, in whatever
    number and order, as long as none of them is a file message or names a
    sender that leads to a file outside [friends/], and the friend mode is
    not ['auto'], a record that is paired stays stored and paired, under
    the same name and with the same token. No such sequence of requests
    removes a paired peer, sets it back to pending or replaces its
    secret. *)
Theorem paired_stays_paired (config : Configuration) (reqs : list (Clock * Request))
    (st : State) (n : string) (f : Friend) :
  friendMode config ≠ "auto" →
  Forall (λ cr, no_file_message cr.2 ∧ sender_in_friends cr.2) reqs →
  friends st !! n = Some f → status f = "paired" →
  ∃ f', friends (serve_all config reqs st).2 !! n = Some f' ∧
        status f' = "paired" ∧ token f' = token f ∧ name f' = name f.
Proof.
  intros Hmode Hreqs. revert st f.
  induction Hreqs as [|[clock req] rest [Hfile _] _ IH]; intros st f Hf Hs; [eauto|].
  rewrite serve_all_cons. cbn [snd].
  destruct (handleRequest_keeps_paired clock config req st n f Hmode Hfile Hf Hs)
    as (f1 & Hf1 & Hs1 & Ht1 & Hn1).
  destruct (IH _ f1 Hf1 Hs1) as (f' & Hf' & Hs' & Ht' & Hn').
  exists f'. split_and!; [exact Hf' | done | congruence | congruence].
Qed.

Lemma serve_all_keeps_well_formed (config : Configuration)
    (reqs : list (Clock * Request)) (st : State) :
  friendMode config ≠ "auto" →
  Forall (λ cr, no_file_message cr.2) reqs →
  (∀ k f, friends st !! k = Some f → well_formed k f) →
  ∀ k f, friends (serve_all config reqs st).2 !! k = Some f → well_formed k f.
Proof.
  intros Hmode Hreqs. revert st.
  induction Hreqs as [|[clock req] rest Hfile _ IH]; intros st Hwf; [done|].
  rewrite serve_all_cons. cbn [snd]. apply IH.
  by apply handleRequest_well_formed.
Qed.

(** X4. The records stay well formed: if every stored record is filed
    under its own name, a valid one, is pending or paired, has a token, an
    address and a history of at most 100 entries, and has no heartbeat while
    it is pending, then so it is after any sequence of requests none of
    which is a file message or names a sender that leads to a file outside
    [friends/], in a friend mode other than ['auto']. *)
Theorem serve_all_well_formed (config : Configuration) (reqs : list (Clock * Request))
    (st : State) :
  friendMode config ≠ "auto" →
  Forall (λ cr, no_file_message cr.2 ∧ sender_in_friends cr.2) reqs →
  (∀ k f, friends st !! k = Some f → well_formed k f) →
  ∀ k f, friends (serve_all config reqs st).2 !! k = Some f → well_formed k f.
Proof.
  intros Hmode Hreqs. revert st.
  induction Hreqs as [|[clock req] rest [Hfile _] _ IH]; intros st Hwf; [done|].
  rewrite serve_all_cons. cbn [snd]. apply IH.
  intros k f. by apply handleRequest_well_formed.
Qed.

End IntegrityFacts.

(** ** What the shared secret protects *)
Section SecretFacts.
Context {P : NodePrimitives} {E : HostEffects}.
Import Auth Config Crypto Server Runs Effects.

(** The rate limiter touches the counter of its subject only. *)
Lemma checkRateLimit_other (now : Z) (who m : string) (rl : gmap string RateEntry) :
  m ≠ who → (checkRateLimit now who rl).2 !! m = rl !! m.
Proof.
  intros Hm. unfold checkRateLimit.
  destruct (get_property rl who) as [|e|]; simpl; [by rewrite lookup_insert_ne| |done].
  destruct (_ >? _)%Z; simpl; [by rewrite lookup_insert_ne|].
  destruct (_ >=? _)%Z; simpl; [done|]. by rewrite lookup_insert_ne.
Qed.

(** The message handler consults the rate limiter only for a sender it has
    authenticated, and neither the block that receives a file nor the reply
    command touches the table. *)
Lemma handleMessage_rateLimits (clock : Clock) (config : Configuration)
    (req : Request) (st : State) :
  rateLimits (state (handleMessage clock config req st)) = rateLimits st ∨
  ∃ body n stem f,
    parsed req = Normal (Some body) ∧ body_from body = Some n ∧
    friend_file n = InFriends stem ∧ friends st !! stem = Some f ∧
    verifyBearerToken (authorization req) (token f) = Valid ∧
    rateLimits (state (handleMessage clock config req st))
    = (checkRateLimit (t_limit clock) n (rateLimits st)).2.
Proof.
  unfold handleMessage.
  destruct (parsed req) as [[body|]|] eqn:Hbody; [|by left..].
  destruct (authenticateFriend req body (friends st)) as [e|friend] eqn:Hauth; [by left|].
  apply authenticateFriend_inr in Hauth as (n & stem & Hn & Hne & Hstem & Hf & Hstatus & Hv).
  rewrite Hn. simpl default.
  destruct (falsy (body_message body)); [by left|].
  right. exists body, n, stem, friend. split_and!; try done.
  destruct (checkRateLimit _ _ _) as [rc rl].
  destruct (allowed rc); simpl negb; cbv iota; [|done].
  destruct (if body_encrypted body then _ else _); [|done].
  destruct (if bool_decide (body_message_type body = Some "file") then _ else _)
    as [plaintext written].
  destruct (bool_decide (friendMode config = "auto")), (overCooldown _ _ _ _); done.
Qed.

Lemma handleRequest_rateLimits (clock : Clock) (config : Configuration)
    (req : Request) (st : State) :
  rateLimits (handleRequest clock config req st).2 = rateLimits st ∨
  ∃ body n stem f,
    pathname req = "/message" ∧
    parsed req = Normal (Some body) ∧ body_from body = Some n ∧
    friend_file n = InFriends stem ∧ friends st !! stem = Some f ∧
    verifyBearerToken (authorization req) (token f) = Valid ∧
    rateLimits (handleRequest clock config req st).2
    = (checkRateLimit (t_limit clock) n (rateLimits st)).2.
Proof.
  unfold handleRequest.
  destruct (negb (bool_decide (method req = "GET")) && _); [by left|].
  destruct (bool_decide (method req = "GET") && _); [by left|].
  destruct (bool_decide (method req = "POST")); [|by left].
  destruct (negb (includes _ _)); [by left|].
  case_bool_decide as Hpr.
  { left. pose proof (handlePairRequest_effect clock req st Hpr) as H.
    cbv zeta in H. destruct H as (_ & Hrl & _).
    cbv beta iota zeta. cbn [snd]. by rewrite Hrl. }
  case_bool_decide as Hpa.
  { left. pose proof (handlePairAccept_effect clock req st) as H.
    cbv zeta in H. destruct H as (Hst & _).
    cbv beta iota zeta. cbn [snd]. by rewrite Hst. }
  case_bool_decide as Hm.
  { destruct (handleMessage_rateLimits clock config req st)
      as [Hsame | (body & n & stem & f & H)]; [by left|].
    right. exists body, n, stem, f. by split. }
  case_bool_decide as Hh; [|by left].
  left. pose proof (handleHeartbeat_effect clock req st) as H.
  cbv zeta in H. destruct H as (Hst & _).
  cbv beta iota zeta. cbn [snd]. by rewrite Hst.
Qed.

End SecretFacts.

Section SecretLaws.
Context {P : NodePrimitives} {L : NodePrimitivesLaws P} {E : HostEffects}.
Import Auth Config Crypto Server Runs Effects.

(** X5. A paired record changes only under its own token. For a request
    that is no file message and whose sender name leads to no file outside
    [friends/], in a friend mode other than ['auto']: if the request leaves
    the record of a paired peer other than it was, the field [from] of its
    body led to the file of that record and its [Authorization] header
    passed the bearer check against the token stored for the peer; when
    header and token are well-formed strings, the header was [Bearer ]
    followed by that token. *)
Theorem paired_record_needs_token (clock : Clock) (config : Configuration)
    (req : Request) (st : State) (stem : string) (f : Friend) :
  friendMode config ≠ "auto" → no_file_message req → sender_in_friends req →
  friends st !! stem = Some f → status f = "paired" →
  friends (handleRequest clock config req st).2 !! stem ≠ Some f →
  verifyBearerToken (authorization req) (token f) = Valid ∧
  (∃ body from, parsed req = Normal (Some body) ∧ body_from body = Some from ∧
                friend_file from = InFriends stem) ∧
  (isWellFormed (token f) = true →
   (∀ s, authorization req = Some s → isWellFormed s = true) →
   authorization req = Some ("Bearer " +:+ token f)).
Proof.
  intros Hmode Hfile _ Hf Hs Hchanged.
  destruct (handleRequest_effect clock config req st Hmode Hfile)
    as (_ & _ & [Hsame | Heff]).
  { rewrite Hsame in Hchanged. done. }
  destruct Heff as (body & from & n' & f' & _ & Hbody & Hfrom & _ & Hstem & Hfs & Hcase).
  rewrite Hfs in Hchanged.
  destruct (decide (stem = n')) as [<-|Hn]; [|by rewrite lookup_insert_ne in Hchanged].
  destruct Hcase as [(_ & _ & _ & _ & _ & Hnot & _) | (f0 & Hf0 & Hv & _)].
  - by destruct (Hnot f Hf).
  - rewrite Hf in Hf0. injection Hf0 as <-. split_and!; [done|eauto|].
    intros Htok Hh. by apply verifyBearerToken_Valid_inv in Hv as (? & _).
Qed.

(** X6. A peer's quota is consumed only under its own token. For a request
    whose sender name leads to no file outside [friends/]: if the request
    moves the rate limit counter of a name, that name leads to the file of
    a stored record and the request was a message whose [Authorization]
    header passed the bearer check against the token of that record; when
    header and token are well-formed strings, the header was [Bearer ]
    followed by that token. Requests that fail authentication count
    against nobody. *)
Theorem rate_limit_needs_token (clock : Clock) (config : Configuration)
    (req : Request) (st : State) (n : string) :
  sender_in_friends req →
  rateLimits (handleRequest clock config req st).2 !! n ≠ rateLimits st !! n →
  ∃ stem f, friend_file n = InFriends stem ∧ friends st !! stem = Some f ∧
            pathname req = "/message" ∧
            verifyBearerToken (authorization req) (token f) = Valid ∧
            (isWellFormed (token f) = true →
             (∀ s, authorization req = Some s → isWellFormed s = true) →
             authorization req = Some ("Bearer " +:+ token f)).
Proof.
  intros _ Hchanged.
  destruct (handleRequest_rateLimits clock config req st)
    as [Hsame | (body & n' & stem & f & Hpath & _ & _ & Hstem & Hf & Hv & Hrl)].
  { by rewrite Hsame in Hchanged. }
  rewrite Hrl in Hchanged.
  destruct (decide (n = n')) as [<-|Hn]; [|by rewrite checkRateLimit_other in Hchanged].
  exists stem, f. split_and!; try done.
  intros Htok Hh. by apply verifyBearerToken_Valid_inv in Hv as (? & _).
Qed.

Lemma Bearer_inj (a b : string) : "Bearer " +:+ a = "Bearer " +:+ b → a = b.
Proof. intros H. by simplify_eq/=. Qed.

(** X7. A pending record is not protected by its token. A pair request
    needs no [Authorization] header: when it names a peer that is stored
    but not paired, is well formed and within the limit of its address, it
    is answered 200 and the stored record is replaced by a fresh pending one
    holding the token and the address of the request, with an empty history.
    From then on a message that presents the token stored before, if it
    differs, is refused with 401 and changes nothing. The two tokens are
    well-formed strings: tokens that differ in lone surrogates only have
    the same bytes and are not told apart. *)
Theorem pending_record_taken_over (clock : Clock) (config : Configuration)
    (req : Request) (st : State) (body : Body) (n : string) (f : Friend) :
  friends st !! n = Some f → status f ≠ "paired" →
  method req = "POST" → pathname req = "/pair-request" →
  includes "application/json" (default "" (content_type req)) = true →
  (checkPairRequestLimit (t_limit clock) (clientIP req) (pairRequestLimits st)).1 = true →
  parsed req = Normal (Some body) →
  body_from body = Some n → isValidName n = true →
  falsy (body_token body) = false → falsy (body_webhook_url body) = false →
  body_token body ≠ Some (token f) →
  isWellFormed (token f) = true → isWellFormed (default "" (body_token body)) = true →
  let taken := handleRequest clock config req st in
  statusCode taken.1 = 200%Z ∧
  friends taken.2 !! n = Some (requested n body) ∧
  ∀ clock' req' body',
    method req' = "POST" → pathname req' = "/message" →
    includes "application/json" (default "" (content_type req')) = true →
    parsed req' = Normal (Some body') → body_from body' = Some n →
    authorization req' = Some ("Bearer " +:+ token f) →
    statusCode (handleRequest clock' config req' taken.2).1 = 401%Z ∧
    (handleRequest clock' config req' taken.2).2 = taken.2.
Proof.
  intros Hf Hs Hmethod Hpath Hjson Hlimit Hbody Hfrom Hvalid Htok Hurl Hdiff Hwf Hwf'.
  assert (n ≠ "") as Hne by (by intros ->).
  pose proof (friend_file_valid n Hvalid) as Hfile.
  assert (handleRequest clock config req st =
          (sendJSON 200 [("status", JString "pending");
                         ("message", JString ("Pair request received from " +:+ n))],
           with_friends
             (with_pairRequestLimits st
                (checkPairRequestLimit (t_limit clock) (clientIP req) (pairRequestLimits st)).2)
             (<[n := requested n body]> (friends st)))) as Htaken.
  { unfold handleRequest. rewrite Hmethod, Hpath, Hjson. simpl.
    unfold handlePairRequest.
    destruct (checkPairRequestLimit _ _ _) as [ok limits]. simpl in Hlimit. subst ok.
    simpl negb. cbv iota. rewrite Hbody, Hfrom, Htok, Hurl.
    replace (falsy (Some n)) with false
      by (symmetry; by apply bool_decide_eq_false_2).
    simpl. rewrite Hvalid. simpl.
    rewrite (loadFriend_stem n n _ Hfile), (saveFriend_stem n n _ _ Hfile), Hf.
    by rewrite bool_decide_eq_false_2. }
  cbv zeta. rewrite Htaken. cbn [fst snd].
  split; [done|]. split; [simpl; apply lookup_insert_eq|].
  intros clock' req' body' Hmethod' Hpath' Hjson' Hbody' Hfrom' Hauth'.
  unfold handleRequest. rewrite Hmethod', Hpath', Hjson'. simpl.
  unfold handleMessage. rewrite Hbody'.
  rewrite (authenticateFriend_known_peer req' body' _ n n (requested n body));
    [|done|done|done|simpl; apply lookup_insert_eq|by left].
  destruct (verifyBearerToken _ _) eqn:Hv; [|done].
  apply verifyBearerToken_Valid_inv in Hv as (Hh & _).
  - rewrite Hauth' in Hh.
    assert (token f = token (requested n body)) as Heq by (apply Bearer_inj; congruence).
    apply falsy_false in Htok as (t & Ht & _). rewrite Ht in Hdiff.
    simpl in Heq. rewrite Ht in Heq. simpl in Heq. congruence.
  - done.
  - intros s. rewrite Hauth'. intros [= <-]. exact Hwf.
Qed.

End SecretLaws.

(** ** The fixed window of the message rate limiter *)
Section WindowFacts.
Import Auth Runs.

Lemma check_all_cons (who : string) (now : Z) (rest : list Z) (rl : gmap string RateEntry) :
  check_all who (now :: rest) rl =
    ((checkRateLimit now who rl).1 :: (check_all who rest (checkRateLimit now who rl).2).1,
     (check_all who rest (checkRateLimit now who rl).2).2).
Proof.
  cbn [check_all]. destruct (checkRateLimit now who rl) as [r rl1].
  cbn [fst snd]. by destruct (check_all who rest rl1).
Qed.

Lemma check_all_app (who : string) (times1 times2 : list Z) (rl : gmap string RateEntry) :
  check_all who (times1 ++ times2) rl =
    ((check_all who times1 rl).1 ++ (check_all who times2 (check_all who times1 rl).2).1,
     (check_all who times2 (check_all who times1 rl).2).2).
Proof.
  revert rl. induction times1 as [|now rest IH]; intros rl.
  - simpl. by destruct (check_all who times2 rl).
  - rewrite <- app_comm_cons, !check_all_cons, IH. done.
Qed.

(** Calls inside the window of a counter: the first [10 - count] are
    accepted, the others refused, and the window does not move. *)
Lemma check_all_window (who : string) (times : list Z) :
  ∀ (rl : gmap string RateEntry) (e : RateEntry),
    rl !! who = Some e → (0 ≤ count e ≤ 10)%Z →
    Forall (λ now, now - windowStart e ≤ 60000)%Z times →
    allowed <$> (check_all who times rl).1 =
      replicate (Nat.min (Z.to_nat (10 - count e)) (length times)) true ++
      replicate (length times - Z.to_nat (10 - count e)) false ∧
    (check_all who times rl).2 !! who =
      Some {| count := Z.min 10 (count e + Z.of_nat (length times));
              windowStart := windowStart e |}.
Proof.
  induction times as [|now rest IH]; intros rl e He Hc Hall.
  - simpl. rewrite Nat.min_0_r. simpl. split; [done|].
    rewrite He. f_equal. destruct e as [c w]. simpl in *. f_equal. lia.
  - apply Forall_cons in Hall as [Hnow Hrest]. rewrite check_all_cons. cbn [fst snd].
    destruct (Z.lt_ge_cases (count e) 10) as [Hlt|Hge].
    + rewrite (checkRateLimit_accepted now who rl e He Hnow Hlt). cbn [fst snd].
      destruct (IH (<[who := {| count := count e + 1; windowStart := windowStart e |}]> rl)
                  {| count := count e + 1; windowStart := windowStart e |})
        as [IH1 IH2]; [apply lookup_insert_eq | simpl; lia | done |].
      simpl count in *. simpl windowStart in *. split.
      * rewrite fmap_cons, IH1. simpl allowed. simpl length.
        replace (Nat.min (Z.to_nat (10 - count e)) (S (length rest)))
          with (S (Nat.min (Z.to_nat (10 - (count e + 1))) (length rest))) by lia.
        replace (S (length rest) - Z.to_nat (10 - count e))
          with (length rest - Z.to_nat (10 - (count e + 1))) by lia.
        done.
      * rewrite IH2. do 2 f_equal. simpl length. lia.
    + rewrite (checkRateLimit_rejected now who rl e He Hnow Hge). cbn [fst snd].
      destruct (IH rl e He Hc Hrest) as [IH1 IH2]. split.
      * rewrite fmap_cons, IH1. simpl allowed. simpl length.
        replace (Z.to_nat (10 - count e)) with 0 by lia.
        rewrite !Nat.min_0_l, !Nat.sub_0_r. done.
      * rewrite IH2. do 2 f_equal. simpl length. lia.
Qed.

(** X8. The message quota is a fixed window. For a subject that is no key
    of [Object.prototype] and has no counter yet: of the calls that arrive
    within 60 s of the first one, the first ten are accepted and all the
    others refused, however many they are; refused calls do not extend the
    window, so the first call that comes more than 60 s after the first one
    is accepted again, with 9 remaining. *)
Theorem rate_limit_fixed_window (who : string) (first : Z) (later : list Z) (next : Z) :
  who ∉ Object_prototype_keys →
  Forall (λ now, now - first ≤ 60000)%Z later →
  (next - first > 60000)%Z →
  let results := (check_all who (first :: later ++ [next]) ∅).1 in
  allowed <$> results =
    replicate (Nat.min 10 (S (length later))) true ++
    replicate (S (length later) - 10) false ++ [true] ∧
  last results = Some {| allowed := true; remaining := Some 9%Z |}.
Proof.
  intros Hk Hall Hnext. cbv zeta.
  rewrite check_all_cons, (checkRateLimit_first_call first who ∅ Hk (lookup_empty _)).
  cbn [fst snd]. rewrite check_all_app. cbn [fst snd].
  set (rl := <[who := {| count := 1; windowStart := first |}]> ∅).
  destruct (check_all_window who later rl {| count := 1; windowStart := first |})
    as [Hflags Htable]; [apply lookup_insert_eq | simpl; lia | done |].
  simpl count in *. simpl windowStart in *.
  rewrite check_all_cons. cbn [fst snd check_all].
  rewrite (checkRateLimit_window_elapsed next who _ _ Htable) by (simpl; lia).
  cbn [fst]. split.
  - rewrite fmap_cons, fmap_app, Hflags. simpl allowed.
    change (Z.to_nat (10 - 1)) with 9.
    replace (Nat.min 10 (S (length later))) with (S (Nat.min 9 (length later))) by lia.
    replace (S (length later) - 10) with (length later - 9) by lia.
    simpl. by rewrite <- app_assoc.
  - rewrite app_comm_cons. apply last_snoc.
Qed.

(** Eleven calls at once, then twelve more a second later, then one call
    61 s after the first. *)
Lemma rate_limit_fixed_window_witness :
  let later := replicate 10 0%Z ++ replicate 12 1000%Z in
  allowed <$> (check_all "bob" (0%Z :: later ++ [60001%Z]) ∅).1 =
    replicate 10 true ++ replicate 13 false ++ [true] ∧
  last (check_all "bob" (0%Z :: later ++ [60001%Z]) ∅).1 =
    Some {| allowed := true; remaining := Some 9%Z |}.
Proof.
  apply (rate_limit_fixed_window "bob" 0 (replicate 10 0%Z ++ replicate 12 1000%Z) 60001).
  - by apply (bool_decide_unpack _).
  - apply Forall_app. split; apply Forall_replicate; lia.
  - lia.
Defined.

End WindowFacts.

(** ** The limit on pair requests *)
Section PairLimitFacts.
Context {P : NodePrimitives} {E : HostEffects}.
Import Auth Config Crypto Server Runs Effects.

Lemma with_pairRequestLimits_same (st : State) :
  with_pairRequestLimits st (pairRequestLimits st) = st.
Proof. by destruct st. Qed.

(** A pair request from an address whose counter stands at the cap, inside
    the window: refused, and nothing changes. *)
Lemma handleRequest_pair_request_refused (clock : Clock) (config : Configuration)
    (req : Request) (st : State) (e : RateEntry) :
  pair_request_from (clientIP req) (windowStart e) (clock, req) →
  pairRequestLimits st !! clientIP req = Some e → (5 ≤ count e)%Z →
  handleRequest clock config req st =
    (sendJSON 429 [("error", JString "Too many pair requests. Try again later.")], st).
Proof.
  intros (Hmethod & Hpath & Hjson & _ & Hw) He Hc. simpl in *.
  unfold handleRequest. rewrite Hmethod, Hpath, Hjson. simpl.
  unfold handlePairRequest, checkPairRequestLimit.
  rewrite (get_property_own _ _ e He).
  unfold PAIR_LIMIT_WINDOW_MS, PAIR_LIMIT_MAX.
  destruct (Z.gtb_spec (t_limit clock - windowStart e) (10 * 60 * 1000)); [lia|].
  destruct (Z.geb_spec (count e) 5); [|lia].
  simpl. by rewrite with_pairRequestLimits_same.
Qed.

(** A pair request from an address whose counter is under the cap, inside
    the window: counted, whatever becomes of it. *)
Lemma handleRequest_pair_request_counted (clock : Clock) (config : Configuration)
    (req : Request) (st : State) (e : RateEntry) :
  pair_request_from (clientIP req) (windowStart e) (clock, req) →
  pairRequestLimits st !! clientIP req = Some e → (count e < 5)%Z →
  pairRequestLimits (handleRequest clock config req st).2 !! clientIP req =
    Some {| count := count e + 1; windowStart := windowStart e |}.
Proof.
  intros (Hmethod & Hpath & Hjson & _ & Hw) He Hc. simpl in *.
  unfold handleRequest. rewrite Hmethod, Hpath, Hjson. simpl.
  unfold handlePairRequest, checkPairRequestLimit.
  rewrite (get_property_own _ _ e He).
  unfold PAIR_LIMIT_WINDOW_MS, PAIR_LIMIT_MAX.
  destruct (Z.gtb_spec (t_limit clock - windowStart e) (10 * 60 * 1000)); [lia|].
  destruct (Z.geb_spec (count e) 5); [lia|].
  simpl negb. cbv iota.
  destruct (parsed req) as [[body|]|]; simpl; try apply lookup_insert_eq.
  destruct (falsy (body_from body) || _ || _); simpl; [apply lookup_insert_eq|].
  destruct (negb _); simpl; [apply lookup_insert_eq|].
  destruct (match loadFriend _ _ with Some _ => _ | None => _ end); simpl;
    apply lookup_insert_eq.
Qed.

(** The first pair request from an address opens its window. *)
Lemma handleRequest_pair_request_first (clock : Clock) (config : Configuration)
    (req : Request) (st : State) :
  pair_request_from (clientIP req) (t_limit clock) (clock, req) →
  clientIP req ∉ Object_prototype_keys →
  pairRequestLimits st !! clientIP req = None →
  pairRequestLimits (handleRequest clock config req st).2 !! clientIP req =
    Some {| count := 1; windowStart := t_limit clock |}.
Proof.
  intros (Hmethod & Hpath & Hjson & _ & Hw) Hk He. simpl in *.
  unfold handleRequest. rewrite Hmethod, Hpath, Hjson. simpl.
  unfold handlePairRequest, checkPairRequestLimit.
  rewrite (get_property_absent _ _ Hk He).
  simpl negb. cbv iota.
  destruct (parsed req) as [[body|]|]; simpl; try apply lookup_insert_eq.
  destruct (falsy (body_from body) || _ || _); simpl; [apply lookup_insert_eq|].
  destruct (negb _); simpl; [apply lookup_insert_eq|].
  destruct (match loadFriend _ _ with Some _ => _ | None => _ end); simpl;
    apply lookup_insert_eq.
Qed.

(** Pair requests from one address inside the window of its counter: once
    [5 - count] of them have been counted, the others are refused and the
    state stays as those left it. *)
Lemma serve_all_pair_requests (config : Configuration) (ip : string)
    (reqs : list (Clock * Request)) :
  ∀ (st : State) (e : RateEntry),
    pairRequestLimits st !! ip = Some e → (0 ≤ count e)%Z →
    Forall (pair_request_from ip (windowStart e)) reqs →
    let k := Z.to_nat (5 - count e) in
    drop k (serve_all config reqs st).1 = replicate (length reqs - k) 429%Z ∧
    (serve_all config reqs st).2 = (serve_all config (take k reqs) st).2.
Proof.
  induction reqs as [|[clock req] rest IH]; intros st e He Hc Hall; cbv zeta.
  - rewrite take_nil. simpl. by rewrite drop_nil.
  - apply Forall_cons in Hall as [Hreq Hrest].
    assert (clientIP req = ip) as Hip by apply Hreq. subst ip.
    rewrite serve_all_cons.
    destruct (Z.lt_ge_cases (count e) 5) as [Hlt|Hge].
    + pose proof (handleRequest_pair_request_counted clock config req st e Hreq He Hlt) as He1.
      replace (Z.to_nat (5 - count e)) with (S (Z.to_nat (5 - (count e + 1)))) by lia.
      rewrite firstn_cons, serve_all_cons.
      remember (handleRequest clock config req st) as hr eqn:Hhr.
      destruct (IH hr.2 {| count := count e + 1; windowStart := windowStart e |} He1)
        as [IH1 IH2]; [simpl; lia | done |]. simpl count in *.
      cbn [fst snd length drop]. split; [|done]. rewrite IH1. f_equal.
    + rewrite (handleRequest_pair_request_refused clock config req st e Hreq He Hge).
      destruct (IH st e He Hc Hrest) as [IH1 IH2].
      replace (Z.to_nat (5 - count e)) with 0 in * by lia.
      rewrite take_0 in *. rewrite drop_0 in *.
      cbn [fst snd statusCode sendJSON serve_all length].
      rewrite IH1, IH2. rewrite !Nat.sub_0_r. done.
Qed.

(** X9. Pair requests are limited by address, and every one of them
    counts. Of the JSON POSTs to /pair-request that come from one address
    (one that is no key of [Object.prototype] and has no counter yet) within
    ten minutes of the first, all from the sixth on are answered 429,
    whatever they carry, and the state stays as the fifth left it; requests
    that are malformed or refused are counted like the others. *)
Theorem pair_request_limit (config : Configuration) (ip : string)
    (clock : Clock) (req : Request) (rest : list (Clock * Request)) (st : State) :
  ip ∉ Object_prototype_keys →
  pairRequestLimits st !! ip = None →
  Forall (pair_request_from ip (t_limit clock)) ((clock, req) :: rest) →
  let reqs := (clock, req) :: rest in
  drop 5 (serve_all config reqs st).1 = replicate (length reqs - 5) 429%Z ∧
  (serve_all config reqs st).2 = (serve_all config (take 5 reqs) st).2.
Proof.
  intros Hk Hnone Hall. cbv zeta.
  apply Forall_cons in Hall as [Hreq Hrest].
  assert (clientIP req = ip) as Hip by apply Hreq. subst ip.
  pose proof (handleRequest_pair_request_first clock config req st Hreq Hk Hnone) as He1.
  destruct (serve_all_pair_requests config (clientIP req) rest
              (handleRequest clock config req st).2
              {| count := 1; windowStart := t_limit clock |} He1)
    as [H1 H2]; [simpl; lia | done |].
  simpl count in *. change (Z.to_nat (5 - 1)) with 4 in *.
  rewrite firstn_cons, !serve_all_cons.
  remember (handleRequest clock config req st) as hr eqn:Hhr.
  cbn [fst snd length drop]. done.
Qed.

End PairLimitFacts.

(** ** Presence *)
Section PresenceFacts.
Context {P : NodePrimitives} {E : HostEffects}.
Import Auth Config Crypto Server Runs Effects Heartbeat Wire.


(** X11. A pending peer is never online. The heartbeat endpoint refuses
    a peer whose record is pending with 401, whatever token it presents, and
    changes nothing; and in every state the listener reaches from a
    directory of well-formed records by requests that are no file messages
    and name no sender that leads to a file outside [friends/], in a friend
    mode other than ['auto'], a pending record is offline at every instant,
    although the same peer's messages are accepted. *)
Theorem pending_peer_never_online (config : Configuration) :
  (∀ (clock : Clock) (req : Request) (st : State) (body : Body) (n stem : string)
     (f : Friend),
     parsed req = Normal (Some body) → body_from body = Some n → n ≠ "" →
     friend_file n = InFriends stem →
     friends st !! stem = Some f → status f = "pending" →
     handleHeartbeat clock req st
     = responds (sendJSON 401 [("error", JString "Not paired")]) st) ∧
  (∀ (reqs : list (Clock * Request)) (st : State),
     friendMode config ≠ "auto" →
     Forall (λ cr, no_file_message cr.2 ∧ sender_in_friends cr.2) reqs →
     (∀ k f, friends st !! k = Some f → well_formed k f) →
     ∀ k f now, friends (serve_all config reqs st).2 !! k = Some f →
                status f = "pending" → isOnline now (Some f) = false).
Proof.
  split.
  - intros clock req st body n stem f Hbody Hfrom Hn Hfile Hf Hs.
    unfold handleHeartbeat, falsy. rewrite Hbody, Hfrom.
    rewrite (bool_decide_eq_false_2 _ Hn). simpl.
    by rewrite (loadFriend_stem _ _ _ Hfile), Hf, Hs.
  - intros reqs st Hmode Hreqs Hwf k f now Hf Hs.
    apply (Forall_impl _ (λ cr, no_file_message cr.2)) in Hreqs; [|by intros ? [? _]].
    destruct (serve_all_keeps_well_formed config reqs st Hmode Hreqs Hwf k f Hf)
      as (_ & _ & _ & _ & _ & _ & Hbeat).
    unfold isOnline. by rewrite (Hbeat Hs).
Qed.

End PresenceFacts.

(** ** Accepting and cancelling a request *)
Section PairingScripts.
Context {P : NodePrimitives}.
Import Config Server Heartbeat.

(** The name of the run leads to one file: the stem of a statement about
    it is the stem [Hfile] names. *)
Ltac same_stem Hfile :=
  let H := fresh in
  intros ? ? ? [= <-] _ H; rewrite Hfile in H; injection H as <-.

(** X12. Accepting pairs once. For a name that leads to no file outside
    [friends/]: [accept-friend] turns a pending record into a paired one,
    stamped with the time of the run and otherwise as it was, and, when the
    address of the record parses and [transport.request] accepts the
    request, notifies the peer under the peer's token and ends with code 0;
    when the URL or the request throws, the record is paired all the same,
    nothing is sent and the code is 1. On anything else (no name, no
    record, a record that is not pending) it leaves the directory alone and
    sends nothing. Running it again, at whatever time, changes nothing
    more and sends nothing: the date of pairing is not moved, and a
    notification that failed is not repeated. *)
Theorem accept_friend_pairs_once (valid_url : string → bool)
    (request_accepted : string → option string → bool) (now : Z)
    (config : Configuration) (myUrl : string) (args : list string)
    (fs : gmap string Friend) :
  (∀ n, head args = Some n → friend_file n ≠ Elsewhere) →
  let run := AcceptFriend.main valid_url request_accepted now config myUrl args fs in
  (∀ n stem f, head args = Some n → n ≠ "" → friend_file n = InFriends stem →
     fs !! stem = Some f → status f = "pending" →
     let delivered :=
       valid_url (webhook_url f) &&
       request_accepted (webhook_url f) (Some ("Bearer " +:+ token f)) in
     AcceptFriend.saved run =
       <[stem := {| name := name f; webhook_url := webhook_url f; token := token f;
                    status := "paired"; paired_at := Some now;
                    last_heartbeat := last_heartbeat f;
                    last_message_at := last_message_at f;
                    conversation_history := conversation_history f |}]> fs ∧
     (delivered = true →
      AcceptFriend.exit_code run = 0%Z ∧
      ∃ payload, AcceptFriend.sent run = Some ("Bearer " +:+ token f, payload) ∧
                 body_from payload = Some (agentName config) ∧
                 body_webhook_url payload = Some myUrl) ∧
     (delivered = false →
      AcceptFriend.exit_code run = 1%Z ∧ AcceptFriend.sent run = None)) ∧
  ((∀ n stem f, head args = Some n → n ≠ "" → friend_file n = InFriends stem →
                fs !! stem = Some f → status f ≠ "pending") →
   AcceptFriend.saved run = fs ∧ AcceptFriend.sent run = None) ∧
  (∀ now',
     let again :=
       AcceptFriend.main valid_url request_accepted now' config myUrl args
         (AcceptFriend.saved run) in
     AcceptFriend.saved again = AcceptFriend.saved run ∧ AcceptFriend.sent again = None).
Proof.
  intros _. cbv zeta. unfold AcceptFriend.main, falsy, loadFriend, saveFriend.
  destruct (head args) as [n|] eqn:Hhead; simpl; [|by split_and!].
  case_bool_decide as Hn; simpl; [split_and!; try done; by intros ? ? ? [= <-]|].
  destruct (friend_file n) as [stem| |] eqn:Hfile.
  2,3: split_and!; try done; intros ? ? ? [= <-] _ ?; congruence.
  destruct (fs !! stem) as [f|] eqn:Hf; simpl.
  2:{ rewrite Hf. split_and!; try done. same_stem Hfile. congruence. }
  case_bool_decide as Hpaired; simpl.
  { rewrite Hf, (bool_decide_eq_true_2 _ Hpaired). simpl.
    split_and!; try done. same_stem Hfile. congruence. }
  case_bool_decide as Hpending; simpl.
  2:{ rewrite Hf, (bool_decide_eq_false_2 _ Hpaired), (bool_decide_eq_false_2 _ Hpending).
      simpl. split_and!; try done. same_stem Hfile. congruence. }
  split_and!.
  - same_stem Hfile. intros Hf' _. rewrite Hf in Hf'. injection Hf' as <-.
    destruct (valid_url (webhook_url f)),
             (request_accepted (webhook_url f) (Some ("Bearer " +:+ token f)));
      simpl; split_and!; try done.
    intros _. split; [done|]. eexists. split_and!; reflexivity.
  - intros Hnot. destruct (Hnot n stem f eq_refl Hn Hfile Hf Hpending).
  - intros now'.
    destruct (valid_url (webhook_url f)), (request_accepted (webhook_url f) _);
      simpl; rewrite lookup_insert_eq; done.
Qed.

(** X13. For a name that leads to no file outside [friends/],
    [cancel-request] succeeds (exit code 0) exactly when the name leads to
    a record that is pending; it then deletes that record and no other. In
    every other case (no name, no record, a paired record, any other
    status) it fails with code 1 and leaves the directory as it was. *)
Theorem cancel_succeeds_iff_pending (args : list string) (fs : gmap string Friend) :
  (∀ n, head args = Some n → friend_file n ≠ Elsewhere) →
  let result := CancelRequest.main args fs in
  (result.1 = 0%Z ↔
   ∃ n stem f, head args = Some n ∧ n ≠ "" ∧ friend_file n = InFriends stem ∧
               fs !! stem = Some f ∧ status f = "pending") ∧
  (result.1 = 0%Z →
   ∃ n stem, head args = Some n ∧ friend_file n = InFriends stem ∧
             result.2 = delete stem fs) ∧
  (result.1 ≠ 0%Z → result.1 = 1%Z ∧ result.2 = fs).
Proof.
  intros _. cbv zeta. unfold CancelRequest.main, falsy, loadFriend, deleteFriend.
  destruct (head args) as [n|] eqn:Hhead; simpl.
  2:{ split_and!; [split; [done|] | done | done]. by intros (? & ? & ? & ? & _). }
  case_bool_decide as Hn; simpl.
  { split_and!; [split; [done|]| done | done].
    by intros (? & ? & ? & [= <-] & ? & _). }
  destruct (friend_file n) as [stem| |] eqn:Hfile.
  2,3: split_and!; [split; [done|] | done | done];
       intros (? & ? & ? & [= <-] & _ & ? & _); congruence.
  destruct (fs !! stem) as [f|] eqn:Hf; simpl.
  2:{ split_and!; [split; [done|] | done | done].
      intros (? & ? & ? & [= <-] & _ & Hs & ? & _).
      rewrite Hfile in Hs. injection Hs as <-. congruence. }
  case_bool_decide as Hpaired; simpl.
  { split_and!; [split; [done|] | done | done].
    intros (? & ? & ? & [= <-] & _ & Hs & Hf' & ?).
    rewrite Hfile in Hs. injection Hs as <-. congruence. }
  case_bool_decide as Hpending; simpl.
  - split_and!; [split; [eauto 8|done] | eauto | done].
  - split_and!; [split; [done|] | done | done].
    intros (? & ? & ? & [= <-] & _ & Hs & Hf' & ?).
    rewrite Hfile in Hs. injection Hs as <-. congruence.
Qed.

(** X14. An address that does not parse is found out too late. Both
    scripts store the record before they build the URL of the request:
    [add-friend] with a well-formed name and an address that is no URL ends
    with code 1 and sends nothing, yet leaves a pending record for the name;
    [accept-friend] on a pending record whose address is no URL ends with
    code 1 and sends nothing, yet leaves the record paired, and from then on
    [pingFriend] throws on that record, which the heartbeat timer feeds it
    every 30 s. *)
Theorem unparsable_address_stored (valid_url : string → bool)
    (request_accepted : string → option string → bool) :
  (∀ (token : string) (config : Configuration) (myUrl n url : string)
     (fs : gmap string Friend),
     isValidName n = true → url ≠ "" → valid_url url = false →
     (∀ f, fs !! n = Some f → status f ≠ "paired") →
     agentName config ≠ "" → agentName config ≠ "unnamed-agent" →
     AddFriend.main valid_url request_accepted token config myUrl [n; url] fs =
       {| AddFriend.exit_code := 1; AddFriend.sent := None;
          AddFriend.saved :=
            <[n := {| name := n; webhook_url := url; token := token;
                      status := "pending"; paired_at := None; last_heartbeat := None;
                      last_message_at := None; conversation_history := Some [] |}]> fs |}) ∧
  (∀ (now now' : Z) (config : Configuration) (myUrl n stem : string) (f : Friend)
     (fs : gmap string Friend),
     n ≠ "" → friend_file n = InFriends stem → fs !! stem = Some f →
     status f = "pending" →
     webhook_url f ≠ "" → valid_url (webhook_url f) = false →
     let run := AcceptFriend.main valid_url request_accepted now config myUrl [n] fs in
     AcceptFriend.exit_code run = 1%Z ∧ AcceptFriend.sent run = None ∧
     ∃ f', AcceptFriend.saved run !! stem = Some f' ∧ status f' = "paired" ∧
           pingFriend valid_url request_accepted now' (Some f') (agentName config)
           = Thrown).
Proof.
  split.
  - intros token config myUrl n url fs Hvalid Hurl Hbad Hnot Hname Hunnamed.
    unfold AddFriend.main, falsy. simpl.
    assert (n ≠ "") as Hn by (by intros ->).
    pose proof (friend_file_valid n Hvalid) as Hfile.
    rewrite (bool_decide_eq_false_2 _ Hn), (bool_decide_eq_false_2 _ Hurl). simpl.
    rewrite Hvalid. simpl.
    rewrite (loadFriend_stem n n _ Hfile), (saveFriend_stem n n _ _ Hfile).
    assert (match fs !! n with
            | Some existing => bool_decide (status existing = "paired")
            | None => false
            end = false) as ->.
    { destruct (fs !! n) as [f|] eqn:Hf; [|done].
      apply bool_decide_eq_false_2. by apply Hnot. }
    rewrite (bool_decide_eq_false_2 _ Hname), (bool_decide_eq_false_2 _ Hunnamed). simpl.
    by rewrite Hbad.
  - intros now now' config myUrl n stem f fs Hn Hfile Hf Hs Hurl Hbad. cbv zeta.
    unfold AcceptFriend.main, falsy. simpl.
    rewrite (bool_decide_eq_false_2 _ Hn). simpl.
    rewrite (loadFriend_stem n stem _ Hfile), Hf, Hs. simpl.
    rewrite (saveFriend_stem n stem _ _ Hfile), Hbad. simpl. split_and!; try done.
    eexists. split; [apply lookup_insert_eq|]. split; [done|].
    unfold pingFriend, falsy. simpl.
    by rewrite (bool_decide_eq_false_2 _ Hurl), Hbad.
Qed.

End PairingScripts.

(** ** The pairing handshake *)
Section HandshakeFacts.
Context {P : NodePrimitives} {E : HostEffects}.
Import Auth Config Crypto Server Runs Effects Heartbeat Wire.

Lemma isValidName_nonempty (n : string) : isValidName n = true → n ≠ "".
Proof. by intros H ->. Qed.

Lemma friends_with_friends (st : State) (fs : gmap string Friend) :
  friends (with_friends st fs) = fs.
Proof. done. Qed.

(** X15. The handshake, from end to end. A runs [add-friend] for B, B's
    listener receives the pair request, B runs [accept-friend] for A, and
    A's listener receives the notification. When the two agents have valid
    names, neither holds a paired record of the other yet, the addresses
    parse and [transport.request] accepts the two requests, the token has
    at least 20 UTF-16 code units and no space, B's limit on pair requests
    admits A's address, and neither request is too large for the listener,
    then both requests are answered 200 and both sides end
    with a paired record of the other that holds the same token; B's record
    has the address A announced, and A's record the address B announced
    (the one A typed if B announced none). *)
Theorem pairing_handshake (valid_url : string → bool)
    (request_accepted : string → option string → bool) (too_large : Body → bool)
    (tok urlA urlB urlB' : string)
    (configA configB : Configuration) (fsA : gmap string Friend) (stA stB : State)
    (clockA clockB : Clock) (nowB : Z) (ipA ipB : string) :
  let a := agentName configA in
  let b := agentName configB in
  isValidName a = true → a ≠ "unnamed-agent" → isValidName b = true →
  urlA ≠ "" → valid_url urlA = true → urlB ≠ "" → valid_url urlB = true →
  request_accepted urlB None = true →
  request_accepted urlA (Some ("Bearer " +:+ tok)) = true →
  (20 ≤ code_unit_length tok)%nat → " "%char ∉ list_ascii_of_string tok →
  (∀ f, fsA !! b = Some f → status f ≠ "paired") →
  (∀ f, friends stB !! a = Some f → status f ≠ "paired") →
  (checkPairRequestLimit (t_limit clockB) ipA (pairRequestLimits stB)).1 = true →
  let add := AddFriend.main valid_url request_accepted tok configA urlA [b; urlB] fsA in
  ∃ request,
    AddFriend.sent add = Some request ∧
    (too_large request = false →
     let servedB :=
       handleRequest clockB configB
         (posted too_large "/pair-request" None ipA request) stB in
     statusCode servedB.1 = 200%Z ∧
     let accept := AcceptFriend.main valid_url request_accepted nowB configB urlB' [a] (friends servedB.2) in
     ∃ auth notice,
       AcceptFriend.sent accept = Some (auth, notice) ∧
       (too_large notice = false →
        let servedA :=
          handleRequest clockA configA
            (posted too_large "/pair-accept" (Some auth) ipB notice)
            (with_friends stA (AddFriend.saved add)) in
        statusCode servedA.1 = 200%Z ∧
        ∃ fa fb,
          AcceptFriend.saved accept !! a = Some fa ∧ friends servedA.2 !! b = Some fb ∧
          status fa = "paired" ∧ status fb = "paired" ∧
          token fa = tok ∧ token fb = tok ∧
          webhook_url fa = urlA ∧
          webhook_url fb = (if bool_decide (urlB' = "") then urlB else urlB'))).
Proof.
  intros a b Ha Hunnamed Hb HurlA HvalidA HurlB HvalidB HsendB HsendA Hlen Hsp
    HnotA HnotB Hlimit.
  pose proof (isValidName_nonempty a Ha) as Hane.
  pose proof (isValidName_nonempty b Hb) as Hbne.
  pose proof (friend_file_valid a Ha) as HfileA.
  pose proof (friend_file_valid b Hb) as HfileB.
  assert (tok ≠ "") as Htok by (intros ->; simpl in Hlen; lia).
  (* A: add-friend *)
  assert (∃ request,
            AddFriend.main valid_url request_accepted tok configA urlA [b; urlB] fsA =
              {| AddFriend.exit_code := 0; AddFriend.sent := Some request;
                 AddFriend.saved :=
                   <[b := {| name := b; webhook_url := urlB; token := tok;
                             status := "pending"; paired_at := None; last_heartbeat := None;
                             last_message_at := None; conversation_history := Some [] |}]> fsA |} ∧
            body_from request = Some a ∧ body_token request = Some tok ∧
            body_webhook_url request = Some urlA) as (request & Hadd & Hfrom & Htoken & Hurl).
  { exists {| body_from := Some a; body_token := Some tok;
              body_webhook_url := Some urlA; body_message := None;
              body_encrypted := false; body_message_type := None;
              body_timestamp := None |}.
    split; [|done].
    unfold AddFriend.main, falsy. simpl.
    rewrite (bool_decide_eq_false_2 _ Hbne), (bool_decide_eq_false_2 _ HurlB). simpl.
    rewrite Hb. simpl.
    rewrite (loadFriend_stem b b _ HfileB), (saveFriend_stem b b _ _ HfileB).
    assert (match fsA !! b with
            | Some existing => bool_decide (status existing = "paired")
            | None => false
            end = false) as ->.
    { destruct (fsA !! b) as [f|] eqn:Hf; [|done].
      apply bool_decide_eq_false_2. by apply HnotA. }
    fold a. rewrite (bool_decide_eq_false_2 _ Hane), (bool_decide_eq_false_2 _ Hunnamed).
    simpl. rewrite HvalidB, HsendB. simpl. reflexivity. }
  cbv zeta. rewrite Hadd. cbn [AddFriend.sent AddFriend.saved].
  exists request. split; [done|]. intros Hsize.
  (* B: the listener *)
  assert (handleRequest clockB configB (posted too_large "/pair-request" None ipA request) stB =
          (sendJSON 200 [("status", JString "pending");
                         ("message", JString ("Pair request received from " +:+ a))],
           with_friends
             (with_pairRequestLimits stB
                (checkPairRequestLimit (t_limit clockB) ipA (pairRequestLimits stB)).2)
             (<[a := requested a request]> (friends stB)))) as HservedB.
  { unfold handleRequest, posted. rewrite Hsize. simpl. unfold handlePairRequest. simpl.
    destruct (checkPairRequestLimit _ _ _) as [ok limits]. simpl in Hlimit. subst ok.
    simpl negb. cbv iota. rewrite Hfrom, Htoken, Hurl. unfold falsy.
    rewrite (bool_decide_eq_false_2 _ Hane), (bool_decide_eq_false_2 _ Htok),
      (bool_decide_eq_false_2 _ HurlA).
    simpl. rewrite Ha. simpl.
    rewrite (loadFriend_stem a a _ HfileA), (saveFriend_stem a a _ _ HfileA).
    assert (match friends stB !! a with
            | Some existing => bool_decide (status existing = "paired")
            | None => false
            end = false) as ->.
    { destruct (friends stB !! a) as [f|] eqn:Hf; [|done].
      apply bool_decide_eq_false_2. by apply HnotB. }
    unfold requested. by rewrite Htoken, Hurl. }
  rewrite HservedB. cbv beta iota delta [fst snd]. split; [done|].
  (* B: accept-friend *)
  assert (∃ notice,
            AcceptFriend.main valid_url request_accepted nowB configB urlB' [a]
              (<[a := requested a request]> (friends stB)) =
              {| AcceptFriend.exit_code := 0;
                 AcceptFriend.sent := Some ("Bearer " +:+ tok, notice);
                 AcceptFriend.saved :=
                   <[a := {| name := a; webhook_url := urlA; token := tok;
                             status := "paired"; paired_at := Some nowB;
                             last_heartbeat := None; last_message_at := None;
                             conversation_history := Some [] |}]>
                     (<[a := requested a request]> (friends stB)) |} ∧
            body_from notice = Some b ∧ body_webhook_url notice = Some urlB')
    as (notice & Haccept & Hnfrom & Hnurl).
  { exists {| body_from := Some b; body_token := None;
              body_webhook_url := Some urlB'; body_message := None;
              body_encrypted := false; body_message_type := None;
              body_timestamp := None |}.
    split; [|done].
    unfold AcceptFriend.main, falsy. simpl.
    rewrite (bool_decide_eq_false_2 _ Hane). simpl.
    rewrite (loadFriend_stem a a _ HfileA), lookup_insert_eq. unfold requested. simpl.
    rewrite (saveFriend_stem a a _ _ HfileA), Htoken, Hurl. simpl.
    by rewrite HvalidA, HsendA. }
  rewrite friends_with_friends, Haccept. cbn [AcceptFriend.sent AcceptFriend.saved].
  exists ("Bearer " +:+ tok), notice. split; [done|]. intros Hsize'.
  (* A: the listener *)
  set (pendingB := {| name := b; webhook_url := urlB; token := tok;
                      status := "pending"; paired_at := None; last_heartbeat := None;
                      last_message_at := None; conversation_history := Some [] |}).
  assert (handleRequest clockA configA
            (posted too_large "/pair-accept" (Some ("Bearer " +:+ tok)) ipB notice)
            (with_friends stA (<[b := pendingB]> fsA)) =
          (sendJSON 200 [("status", JString "paired");
                         ("message", JString ("Now paired with " +:+ b))],
           with_friends (with_friends stA (<[b := pendingB]> fsA))
             (<[b := {| name := b;
                        webhook_url := if bool_decide (urlB' = "") then urlB else urlB';
                        token := tok; status := "paired";
                        paired_at := Some (t_saved clockA);
                        last_heartbeat := None; last_message_at := None;
                        conversation_history := Some [] |}]>
                (<[b := pendingB]> fsA)))) as HservedA.
  { unfold handleRequest, posted. rewrite Hsize'. simpl. unfold handlePairAccept. simpl.
    rewrite Hnfrom, Hnurl. unfold falsy.
    rewrite (bool_decide_eq_false_2 _ Hbne). simpl.
    rewrite (loadFriend_stem b b _ HfileB), lookup_insert_eq. simpl.
    rewrite (verifyBearerToken_stored_token _ Hlen Hsp). simpl.
    by rewrite (saveFriend_stem b b _ _ HfileB). }
  rewrite HservedA. cbv beta iota delta [fst snd]. split; [done|]. eexists _, _.
  split; [apply lookup_insert_eq|].
  split; [simpl; apply lookup_insert_eq|]. simpl. by split_and!.
Qed.

End HandshakeFacts.

(** ** A message from the sender's script to the receiver's history *)
Section DeliveryFacts.
Context {P : NodePrimitives} {L : NodePrimitivesLaws P} {E : HostEffects}.
Import Auth Config Crypto Server Runs Effects Wire.





End DeliveryFacts.

(** ** Groups *)
Section GroupFacts.
Context {P : NodePrimitives} {L : NodePrimitivesLaws P} {E : HostEffects}.
Import Config Crypto Server Effects Group.

Lemma Promise_all_Normal {A} (promises : list (completion A)) :
  (∀ p, p ∈ promises → ∃ a, p = Normal a) →
  ∃ values, Promise_all promises = Normal values ∧ promises = Normal <$> values.
Proof.
  induction promises as [|p rest IH]; intros Hall; [by exists []|].
  destruct (Hall p) as [a ->]; [left|].
  destruct IH as (values & Hvalues & ->); [intros q Hq; apply Hall; by right|].
  exists (a :: values). simpl. by rewrite Hvalues.
Qed.

Lemma Promise_all_Thrown {A} (promises : list (completion A)) :
  Thrown ∈ promises → Promise_all promises = Thrown.
Proof.
  induction promises as [|p rest IH]; intros Hin; [by apply elem_of_nil in Hin|].
  apply elem_of_cons in Hin as [<-|Hin]; [done|].
  simpl. destruct p; simpl; [|done]. by rewrite IH.
Qed.

(** What the promise of [sendToFriend] resolves to. *)
Lemma sendToFriend_resolves (valid_url : string → bool)
    (request_accepted : string → option string → bool) (now : Z) (iv : list byte)
    (answer : Answer) (m message : string) (config : Configuration)
    (fs : gmap string Friend) (o : Outcome) :
  (sendToFriend valid_url request_accepted now iv answer m message config fs).2 = Normal o →
  friend o = m ∧
  (success o = true ↔ not_paired m fs = false ∧ ∃ d, answer = Answered 200 d).
Proof.
  unfold sendToFriend, not_paired.
  destruct (loadFriend m fs) as [f|]; simpl.
  2:{ intros [= <-]. simpl. split; [done|]. split; [done|]. by intros [? _]. }
  destruct (negb (bool_decide (status f = "paired"))); simpl.
  { intros [= <-]. simpl. split; [done|]. split; [done|]. by intros [? _]. }
  destruct (negb (valid_url (webhook_url f)) || _); simpl; [done|].
  intros [= <-]. destruct answer as [e| |code d]; simpl.
  - split; [done|]. split; [done|]. by intros [_ [? ?]].
  - split; [done|]. split; [done|]. by intros [_ [? ?]].
  - case_bool_decide as Hcode; simpl.
    + subst code. split; [done|]. split; [eauto|done].
    + split; [done|]. split; [done|]. intros [_ [? [= ? ?]]]. done.
Qed.

(** When it rejects. *)
Lemma sendToFriend_rejects (valid_url : string → bool)
    (request_accepted : string → option string → bool) (now : Z) (iv : list byte)
    (answer : Answer) (m message : string) (config : Configuration)
    (fs : gmap string Friend) :
  (sendToFriend valid_url request_accepted now iv answer m message config fs).2 = Thrown ↔
  ∃ f, loadFriend m fs = Some f ∧ status f = "paired" ∧
       deliverable valid_url request_accepted f = false.
Proof.
  unfold sendToFriend, deliverable.
  destruct (loadFriend m fs) as [f|]; simpl; [|split; [done|by intros (? & ? & _)]].
  case_bool_decide as Hs; simpl.
  - rewrite <- negb_andb.
    destruct (valid_url (webhook_url f) && _) eqn:Hv; simpl.
    + split; [done|]. intros (? & [= <-] & _ & ?). congruence.
    + split; [eauto|done].
  - split; [done|]. intros (? & [= <-] & ? & _). done.
Qed.

Lemma broadcast_lookup (valid_url : string → bool)
    (request_accepted : string → option string → bool) (now : nat → Z)
    (iv : nat → list byte) (answer : nat → Answer) (message : string)
    (config : Configuration) (fs : gmap string Friend) (l : list string)
    (i : nat) (m : string) :
  l !! i = Some m →
  imap (λ i m, sendToFriend valid_url request_accepted (now i) (iv i) (answer i)
                 m message config fs) l !! i
  = Some (sendToFriend valid_url request_accepted (now i) (iv i) (answer i)
            m message config fs).
Proof. intros H. by rewrite list_lookup_imap, H. Qed.

(** X17. A broadcast. [group send] on a stored group with a message, a
    well-formed string as command-line arguments are, to members whose
    names lead to no file outside [friends/]. If, for every paired member,
    the address parses and [transport.request] accepts the request, the run
    ends with code 0: a member that is not a paired friend is sent nothing;
    a paired member is sent the message encrypted under its own token, with
    its own token as bearer, so that it decrypts under that token and no
    other member's token is used for it; and there is one result per
    member, in the order of the group, which reports success exactly for
    the paired members whose listener answered 200. If the URL or the
    request of one paired member throws, the run ends with code 1, reports
    nothing, and no member is sent anything. *)
Theorem group_broadcast (valid_url : string → bool)
    (request_accepted : string → option string → bool) (now : nat → Z)
    (iv : nat → list byte) (answer : nat → Answer) (config : Configuration)
    (args : list string) (fs : gmap string Friend) (groups : gmap string GroupData)
    (gname : string) (g : GroupData) :
  let message := String.concat " " (drop 2 args) in
  args !! 1%nat = Some gname → gname ≠ "" → message ≠ "" →
  isWellFormed message = true →
  groups !! gname = Some g →
  (∀ m, m ∈ members g → friend_file m ≠ Elsewhere) →
  (∀ i, length (iv i) = 12%nat) →
  let out := send valid_url request_accepted now iv answer config args fs groups in
  ((∀ m f, m ∈ members g → loadFriend m fs = Some f → status f = "paired" →
           deliverable valid_url request_accepted f = true) →
   exit_code out = 0%Z ∧
   (∀ i m, members g !! i = Some m → not_paired m fs = true →
           requests out !! i = Some None) ∧
   (∀ i m f, members g !! i = Some m → loadFriend m fs = Some f → status f = "paired" →
             ∃ payload c,
               requests out !! i = Some (Some ("Bearer " +:+ token f, payload)) ∧
               body_from payload = Some (agentName config) ∧
               body_message payload = Some c ∧ body_encrypted payload = true ∧
               decryptMessage c (token f) = Some message) ∧
   ∃ rs, results out = Some rs ∧ length rs = length (members g) ∧
         ∀ i m, members g !! i = Some m →
                ∃ o, rs !! i = Some o ∧ friend o = m ∧
                     (success o = true ↔
                      not_paired m fs = false ∧ ∃ d, answer i = Answered 200 d)) ∧
  ((∃ m f, m ∈ members g ∧ loadFriend m fs = Some f ∧ status f = "paired" ∧
           deliverable valid_url request_accepted f = false) →
   exit_code out = 1%Z ∧ results out = None ∧ requests out = []).
Proof.
  intros message Hname Hne Hmsg Hwf Hg _ Hiv.
  set (promises :=
         imap (λ i m, sendToFriend valid_url request_accepted (now i) (iv i) (answer i)
                        m message config fs)
           (members g)).
  assert (send valid_url request_accepted now iv answer config args fs groups =
          match Promise_all promises.*2 with
          | Normal results =>
              {| exit_code := 0; requests := promises.*1; results := Some results |}
          | Thrown => {| exit_code := 1; requests := []; results := None |}
          end) as Hsend.
  { unfold send, falsy, loadGroup. rewrite Hname. fold message.
    rewrite (bool_decide_eq_false_2 _ Hne), (bool_decide_eq_false_2 _ Hmsg). simpl.
    by rewrite Hg. }
  cbv zeta. rewrite Hsend. split.
  - intros Hvalid.
    destruct (Promise_all_Normal promises.*2) as (rs & Hall & Hrs).
    { intros p Hp. apply list_elem_of_fmap in Hp as ([r p'] & -> & Hp). simpl.
      apply list_elem_of_lookup in Hp as [i Hp]. unfold promises in Hp.
      rewrite list_lookup_imap in Hp.
      destruct (members g !! i) as [m|] eqn:Hm; [|done]. simpl in Hp.
      destruct p' as [o|]; [eauto|]. exfalso.
      assert ((sendToFriend valid_url request_accepted (now i) (iv i) (answer i)
                 m message config fs).2
              = Thrown) as Hthrown by (injection Hp as Hp; by rewrite Hp).
      apply sendToFriend_rejects in Hthrown as (f & Hf & Hs & Hv).
      rewrite (Hvalid m f) in Hv; [done| |done|done].
      by apply list_elem_of_lookup_2 in Hm. }
    rewrite Hall. simpl. split_and!; [done|..].
    + intros i m Hm Hnot. rewrite list_lookup_fmap. unfold promises.
      rewrite (broadcast_lookup _ _ _ _ _ _ _ _ _ _ _ Hm). simpl.
      unfold sendToFriend. unfold not_paired in Hnot.
      destruct (loadFriend m fs) as [f|]; [|done]. by rewrite Hnot.
    + intros i m f Hm Hf Hs. rewrite list_lookup_fmap. unfold promises.
      rewrite (broadcast_lookup _ _ _ _ _ _ _ _ _ _ _ Hm). simpl.
      assert (deliverable valid_url request_accepted f = true) as Hv.
      { apply (Hvalid m f); [|done..]. by apply list_elem_of_lookup_2 in Hm. }
      unfold deliverable in Hv. apply andb_true_iff in Hv as [Hv Hv'].
      unfold sendToFriend. rewrite Hf, (bool_decide_eq_true_2 _ Hs), Hv, Hv'. simpl.
      eexists _, _. split_and!; try reflexivity.
      rewrite decryptMessage_encryptMessage_bytes by apply Hiv.
      by rewrite utf8_decode_encode.
    + exists rs. split; [done|].
      assert (length rs = length (members g)) as Hlen.
      { rewrite <- (length_fmap Normal rs), <- Hrs, length_fmap. unfold promises.
        by rewrite length_imap. }
      split; [done|]. intros i m Hm.
      assert (promises.*2 !! i =
              Some (sendToFriend valid_url request_accepted (now i) (iv i) (answer i)
                      m message config fs).2)
        as Hp.
      { rewrite list_lookup_fmap. unfold promises.
        by rewrite (broadcast_lookup _ _ _ _ _ _ _ _ _ _ _ Hm). }
      rewrite Hrs, list_lookup_fmap in Hp.
      destruct (rs !! i) as [o|]; [|done]. simpl in Hp. injection Hp as Hp.
      exists o. split; [done|].
      by apply (sendToFriend_resolves _ _ _ _ _ _ _ _ _ _ (eq_sym Hp)).
  - intros (m & f & Hm & Hf & Hs & Hv).
    apply list_elem_of_lookup in Hm as [i Hm].
    rewrite Promise_all_Thrown; [done|].
    apply list_elem_of_lookup. exists i. rewrite list_lookup_fmap. unfold promises.
    rewrite (broadcast_lookup _ _ _ _ _ _ _ _ _ _ _ Hm). simpl. f_equal.
    apply sendToFriend_rejects. eauto.
Qed.

End GroupFacts.

Section GroupMembership.
Context {P : NodePrimitives}.
Import Config Group.



End GroupMembership.

(** ** The bounds of the restart delay *)
Section WatchdogBounds.
Import Watchdog.

(** X19. Whatever the child does, however long each of its runs lasts,
    every restart is scheduled no sooner than 1 s and no later than 60 s
    after the exit. *)
Theorem restart_delay_bounds (runtimes : list Z) :
  Forall (λ delay, 1000 ≤ delay ≤ 60000)%Z (supervise runtimes initial).
Proof.
  assert (1000 ≤ restartDelay initial ≤ 60000)%Z as Hw
    by (simpl; unfold MIN_RESTART_DELAY; lia).
  revert Hw. generalize initial.
  induction runtimes as [|runtime rest IH]; intros w Hw; [constructor|].
  rewrite supervise_cons. unfold on_exit, RESET_AFTER_MS, MIN_RESTART_DELAY, MAX_RESTART_DELAY.
  destruct (runtime >? 300000)%Z; simpl; constructor; try lia; apply IH; simpl; lia.
Qed.

End WatchdogBounds.

(** ** Escaping for Telegram *)
Section EscapeFacts.
Import Telegram.

(** Replacing [c] by a text without [c] leaves no [c]. *)
Lemma replace_all_removes (c : ascii) (by_ s : string) :
  c ∉ list_ascii_of_string by_ → c ∉ list_ascii_of_string (replace_all c by_ s).
Proof.
  intros Hby. induction s as [|x s IH]; simpl; [apply not_elem_of_nil|].
  case_bool_decide as Hx.
  - rewrite list_ascii_of_string_app. apply not_elem_of_app. done.
  - simpl. apply not_elem_of_cons. split; [congruence|done].
Qed.

(** Replacing brings in no character that is in neither text. *)
Lemma replace_all_keeps_out (c d : ascii) (by_ s : string) :
  d ∉ list_ascii_of_string by_ → d ∉ list_ascii_of_string s →
  d ∉ list_ascii_of_string (replace_all c by_ s).
Proof.
  intros Hby. induction s as [|x s IH]; simpl; [done|].
  intros [Hx Hs]%not_elem_of_cons. case_bool_decide.
  - rewrite list_ascii_of_string_app. apply not_elem_of_app. auto.
  - simpl. apply not_elem_of_cons. auto.
Qed.

(** Replacing a character that does not occur changes nothing. *)
Lemma replace_all_absent (c : ascii) (by_ s : string) :
  c ∉ list_ascii_of_string s → replace_all c by_ s = s.
Proof.
  induction s as [|x s IH]; simpl; [done|].
  intros [Hx Hs]%not_elem_of_cons.
  rewrite bool_decide_eq_false_2 by congruence. by rewrite IH.
Qed.

(** X20. What [escapeHtml] returns contains neither [<] nor [>],
    whatever the text; and a text without [&], [<] and [>] is returned as
    it is. *)
Theorem escapeHtml_safe (text : string) :
  ("<"%char ∉ list_ascii_of_string (escapeHtml text)) ∧
  (">"%char ∉ list_ascii_of_string (escapeHtml text)) ∧
  (("&"%char ∉ list_ascii_of_string text) → ("<"%char ∉ list_ascii_of_string text) →
   (">"%char ∉ list_ascii_of_string text) → escapeHtml text = text).
Proof.
  unfold escapeHtml, falsy. case_bool_decide as Hempty.
  { subst text. simpl. split_and!; try done; apply not_elem_of_nil. }
  split_and!.
  - apply replace_all_keeps_out; [by apply (bool_decide_unpack _)|].
    apply replace_all_removes. by apply (bool_decide_unpack _).
  - apply replace_all_removes. by apply (bool_decide_unpack _).
  - intros Hamp Hlt Hgt. by rewrite (replace_all_absent "&"), (replace_all_absent "<"),
      (replace_all_absent ">").
Qed.

End EscapeFacts.

(** ** Generated tokens *)
Section TokenFacts.
Context {P : NodePrimitives}.
Import Auth AuthToken.

Lemma hex_digit_no_space (k : nat) : nth k hex_digits "0"%char ≠ " "%char.
Proof. do 16 (destruct k as [|k]; [by vm_compute|]). by destruct k. Qed.

Lemma hex_digit_ascii (k : nat) : (nat_of_ascii (nth k hex_digits "0"%char) <? 128) = true.
Proof. do 16 (destruct k as [|k]; [by vm_compute|]). by destruct k. Qed.

Lemma to_hex_ascii (buf : list byte) : is_ascii (to_hex buf) = true.
Proof.
  induction buf as [|b rest IH]; [done|]. simpl to_hex.
  rewrite is_ascii_app, IH, andb_true_r. unfold hex_of_byte.
  by rewrite !is_ascii_cons, !hex_digit_ascii.
Qed.

Lemma hex_of_byte_shape (b : byte) :
  String.length (hex_of_byte b) = 2 ∧ " "%char ∉ list_ascii_of_string (hex_of_byte b).
Proof.
  split; [done|]. unfold hex_of_byte. cbn [list_ascii_of_string].
  apply not_elem_of_cons. split; [apply not_eq_sym, hex_digit_no_space|].
  apply not_elem_of_cons. split; [apply not_eq_sym, hex_digit_no_space|].
  apply not_elem_of_nil.
Qed.

Lemma to_hex_shape (buf : list byte) :
  String.length (to_hex buf) = 2 * length buf ∧
  " "%char ∉ list_ascii_of_string (to_hex buf).
Proof.
  induction buf as [|b rest [IHlen IHsp]]; simpl to_hex.
  - split; [done|]. simpl. apply not_elem_of_nil.
  - destruct (hex_of_byte_shape b) as [Hlen Hsp]. split.
    + rewrite string_length_app, Hlen, IHlen. simpl length. lia.
    + rewrite list_ascii_of_string_app. by apply not_elem_of_app.
Qed.

(** X21. A token that [generatePairToken] makes from 32 random bytes has
    64 characters and passes the bearer check when it is the stored token
    and is presented after [Bearer ]: the format test of the check (at
    least 20 characters, no space) never refuses a token this code has
    generated. *)
Theorem generatePairToken_accepted (random : list byte) :
  length random = 32 →
  String.length (generatePairToken random) = 64 ∧
  verifyBearerToken (Some ("Bearer " +:+ generatePairToken random))
    (generatePairToken random) = Valid.
Proof.
  intros Hlen. unfold generatePairToken.
  destruct (to_hex_shape random) as [Hhex Hsp]. rewrite Hlen in Hhex.
  split; [done|]. apply verifyBearerToken_stored_token; [|done].
  rewrite (is_ascii_length _ (to_hex_ascii random)). lia.
Qed.

End TokenFacts.

(** ** The reply script after a delivery *)
Section ReplyFacts.
Context {P : NodePrimitives} {E : HostEffects}.
Import Auth Config Crypto Server Runs.





End ReplyFacts.


(** ** Whom auto-chat talks to *)
Section AutoChatFacts.
Context {P : NodePrimitives} {E : HostEffects}.
Import Config Heartbeat Effects AutoChat.




End AutoChatFacts.

(** ** The MIME type of a file *)
Section MimeFacts.
Import SendFile.

Lemma mimes_nonempty (ext m : string) : mimes !! ext = Some m → m ≠ "".
Proof.
  intros H.
  assert (map_Forall (λ _ m, bool_decide (m ≠ "") = true) mimes) as Hall.
  { apply map_Forall_to_list. vm_compute. repeat constructor. }
  eapply bool_decide_eq_true_1, (Hall ext m H).
Qed.

Lemma mimes_no_prototype_key (ext : string) :
  ext ∈ Object_prototype_keys → mimes !! ext = None.
Proof.
  intros H. unfold Object_prototype_keys in H.
  repeat (apply elem_of_cons in H as [->|H]; [by vm_compute|]).
  by apply elem_of_nil in H.
Qed.

(** X24. [getMimeType] returns a string, the MIME type of the table or
    [application/octet-stream] for an extension that is not in it, for every
    extension except the keys of [Object.prototype] ([constructor],
    [__proto__], ...): for exactly those it returns the inherited member,
    which is no string. *)
Theorem getMimeType_cases (ext : string) :
  (getMimeType ext = InheritedMember ↔ ext ∈ Object_prototype_keys) ∧
  (ext ∉ Object_prototype_keys →
   getMimeType ext = MimeString (default "application/octet-stream" (mimes !! ext))).
Proof.
  unfold getMimeType, get_property. split.
  - split.
    + destruct (mimes !! ext) as [m|]; [simpl; by case_bool_decide|].
      by case_bool_decide.
    + intros Hk. rewrite (mimes_no_prototype_key ext Hk).
      by rewrite bool_decide_eq_true_2.
  - intros Hk. destruct (mimes !! ext) as [m|] eqn:Hm; simpl.
    + by rewrite (bool_decide_eq_false_2 _ (mimes_nonempty ext m Hm)).
    + by rewrite bool_decide_eq_false_2.
Qed.

End MimeFacts.

(** ** Runs of the further properties on the sample primitives *)
Section FurtherRuns.
Import Auth Config Crypto Server Runs Effects Wire Heartbeat Sample.

(** The side conditions on a sample request: it is no file message, and
    its sender leads to a file of [friends/]. *)
Ltac sample_no_file := intros ? [= <-]; done.

Ltac sample_sender :=
  let H := fresh in
  intros ? ? [= <-] H; simpl in H; injection H as <-; by vm_compute.

Ltac sample_request := split; [sample_no_file | sample_sender].

(** The stored token of 64 digits, presented after [Bearer ]. *)
Lemma verifyBearerToken_Valid_iff_witness :
  verifyBearerToken (Some ("Bearer " +:+ Sample.token64)) Sample.token64 = Valid.
Proof.
  apply (@verifyBearerToken_Valid_iff Sample.primitives primitives_laws
           (Some ("Bearer " +:+ Sample.token64)) Sample.token64).
  - reflexivity.
  - by intros s [= <-].
  - split_and!; [reflexivity | vm_compute; lia | by apply (bool_decide_unpack _)].
Defined.


(** A paired [bob], a pair request in his name with another token, and a
    message without header: he stays paired, with his token. *)
Lemma paired_stays_paired_witness :
  ∃ f',
    friends
      (serve_all Sample.config
         [ (Sample.clock 0, Sample.post_pair_request "bob" "ffffffffffffffffffffffff");
           (Sample.clock 1,
            Sample.post_message None (Normal (Some (Sample.body (Some "bob") (Some "hi"))))) ]
         (Sample.state {[ "bob" := Sample.friend "bob" Sample.token64 "paired" ]})).2
    !! "bob" = Some f' ∧
    status f' = "paired" ∧ token f' = Sample.token64 ∧ name f' = "bob".
Proof.
  apply (paired_stays_paired Sample.config _
           (Sample.state {[ "bob" := Sample.friend "bob" Sample.token64 "paired" ]})
           "bob" (Sample.friend "bob" Sample.token64 "paired")).
  - done.
  - repeat (apply Forall_cons; split; [sample_request|]). by apply Forall_nil.
  - reflexivity.
  - reflexivity.
Defined.

(** From the empty directory, the record a pair request leaves. *)
Lemma serve_all_well_formed_witness :
  well_formed "bob" (Sample.friend "bob" Sample.token64 "pending").
Proof.
  apply (serve_all_well_formed Sample.config
           [ (Sample.clock 0, Sample.post_pair_request "bob" Sample.token64) ]
           (Sample.state ∅)).
  - done.
  - repeat (apply Forall_cons; split; [sample_request|]). by apply Forall_nil.
  - intros k f H. simpl in H. by rewrite lookup_empty in H.
  - by vm_compute.
Defined.

(** A message of the paired [bob] changes his record: it carried his
    token. *)
Lemma paired_record_needs_token_witness :
  let req :=
    Sample.post_message (Some ("Bearer " +:+ Sample.token64))
      (Normal (Some (Sample.body (Some "bob") (Some "hi")))) in
  verifyBearerToken (authorization req) Sample.token64 = Valid ∧
  ∃ body from, parsed req = Normal (Some body) ∧ body_from body = Some from ∧
               friend_file from = InFriends "bob".
Proof.
  pose proof (@paired_record_needs_token Sample.primitives primitives_laws Sample.host
                (Sample.clock 5) Sample.config
                (Sample.post_message (Some ("Bearer " +:+ Sample.token64))
                   (Normal (Some (Sample.body (Some "bob") (Some "hi")))))
                (Sample.state {[ "bob" := Sample.friend "bob" Sample.token64 "paired" ]})
                "bob" (Sample.friend "bob" Sample.token64 "paired")) as H.
  destruct H as (Hv & Hfrom & _);
    [done | sample_no_file | sample_sender | reflexivity | reflexivity | by vm_compute |].
  split; [exact Hv | exact Hfrom].
Defined.

(** The same message moves his counter. *)
Lemma rate_limit_needs_token_witness :
  let req :=
    Sample.post_message (Some ("Bearer " +:+ Sample.token64))
      (Normal (Some (Sample.body (Some "bob") (Some "hi")))) in
  let st := Sample.state {[ "bob" := Sample.friend "bob" Sample.token64 "paired" ]} in
  ∃ stem f, friend_file "bob" = InFriends stem ∧ friends st !! stem = Some f ∧
            pathname req = "/message" ∧
            verifyBearerToken (authorization req) (token f) = Valid.
Proof.
  pose proof (@rate_limit_needs_token Sample.primitives primitives_laws Sample.host
                (Sample.clock 5) Sample.config
                (Sample.post_message (Some ("Bearer " +:+ Sample.token64))
                   (Normal (Some (Sample.body (Some "bob") (Some "hi")))))
                (Sample.state {[ "bob" := Sample.friend "bob" Sample.token64 "paired" ]})
                "bob") as H.
  destruct H as (stem & f & Hfile & Hf & Hpath & Hv & _);
    [sample_sender | by vm_compute |].
  exists stem, f. by split_and!.
Defined.

(** A pending [bob] with the token of 64 digits; a pair request in his
    name with another token. *)
Lemma pending_record_taken_over_witness :
  let req := Sample.post_pair_request "bob" "ffffffffffffffffffffffff" in
  let st := Sample.state {[ "bob" := Sample.friend "bob" Sample.token64 "pending" ]} in
  let taken := handleRequest (Sample.clock 0) Sample.config req st in
  statusCode taken.1 = 200%Z ∧
  friends taken.2 !! "bob" = Some (Sample.friend "bob" "ffffffffffffffffffffffff" "pending").
Proof.
  pose proof (@pending_record_taken_over Sample.primitives primitives_laws Sample.host
                (Sample.clock 0) Sample.config
                (Sample.post_pair_request "bob" "ffffffffffffffffffffffff")
                (Sample.state {[ "bob" := Sample.friend "bob" Sample.token64 "pending" ]})
                {| body_from := Some "bob"; body_token := Some "ffffffffffffffffffffffff";
                   body_webhook_url := Some "https://bob.example";
                   body_message := None; body_encrypted := false;
                   body_message_type := None; body_timestamp := None |}
                "bob" (Sample.friend "bob" Sample.token64 "pending")) as H.
  cbv zeta in *.
  destruct H as (Hcode & Hrecord & _);
    [reflexivity | done | reflexivity | reflexivity | reflexivity | reflexivity
    | reflexivity | reflexivity | reflexivity | reflexivity | reflexivity | done
    | reflexivity | reflexivity |].
  split; [exact Hcode | exact Hrecord].
Defined.

(** Why the tokens of the take-over are well-formed strings: two tokens
    of twenty lone surrogates each, U+D800 in the one and U+D801 in the
    other, differ, yet [Buffer.from] gives both the bytes of twenty U+FFFD,
    and the bearer check accepts the one for the other. *)
Example lone_surrogate_tokens_not_told_apart :
  let surrogate (low : nat) :=
    String (ascii_of_nat 237) (String (ascii_of_nat 160) (String (ascii_of_nat low) "")) in
  let stored := String.concat "" (replicate 20 (surrogate 128)) in
  let presented := String.concat "" (replicate 20 (surrogate 129)) in
  bool_decide (stored = presented) = false ∧
  code_unit_length presented = 20 ∧
  verifyBearerToken (Some ("Bearer " +:+ presented)) stored = Valid.
Proof. by vm_compute. Qed.

(** Seven pair requests from one address within seven milliseconds. *)
Lemma pair_request_limit_witness :
  let first := (Sample.clock 0, Sample.post_pair_request "bob" Sample.token64) in
  let rest :=
    (λ t : Z, (Sample.clock t, Sample.post_pair_request "bob" Sample.token64)) <$>
      [1; 2; 3; 4; 5; 6]%Z in
  drop 5 (serve_all Sample.config (first :: rest) (Sample.state ∅)).1
  = replicate (length (first :: rest) - 5) 429%Z ∧
  (serve_all Sample.config (first :: rest) (Sample.state ∅)).2
  = (serve_all Sample.config (take 5 (first :: rest)) (Sample.state ∅)).2.
Proof.
  apply (pair_request_limit Sample.config "203.0.113.7" (Sample.clock 0)
           (Sample.post_pair_request "bob" Sample.token64)
           ((λ t : Z, (Sample.clock t, Sample.post_pair_request "bob" Sample.token64)) <$>
              [1; 2; 3; 4; 5; 6]%Z)
           (Sample.state ∅)).
  - by apply (bool_decide_unpack _).
  - reflexivity.
  - cbn [fmap list_fmap].
    repeat (apply Forall_cons; split;
            [unfold pair_request_from; simpl; split_and!; first [lia | reflexivity]|]).
    by apply Forall_nil.
Defined.


(** A pending request from [bob], accepted at time 7, and again at 9. *)
Lemma accept_friend_pairs_once_witness :
  let fs := {[ "bob" := Sample.friend "bob" Sample.token64 "pending" ]} in
  let run :=
    AcceptFriend.main (λ _, true) (λ _ _, true) 7 Sample.config "https://alice.example"
      ["bob"] fs in
  AcceptFriend.saved run =
    {[ "bob" := {| name := "bob"; webhook_url := "https://bob.example";
                   token := Sample.token64; status := "paired"; paired_at := Some 7%Z;
                   last_heartbeat := None; last_message_at := None;
                   conversation_history := Some [] |} ]} ∧
  AcceptFriend.saved
    (AcceptFriend.main (λ _, true) (λ _ _, true) 9 Sample.config "https://alice.example"
       ["bob"] (AcceptFriend.saved run)) = AcceptFriend.saved run.
Proof.
  pose proof (accept_friend_pairs_once (λ _, true) (λ _ _, true) 7 Sample.config
                "https://alice.example" ["bob"]
                {[ "bob" := Sample.friend "bob" Sample.token64 "pending" ]}) as H.
  cbv zeta in *. destruct H as (Hpair & _ & Hagain).
  { intros n [= <-]. by vm_compute. }
  split.
  - destruct (Hpair "bob" "bob" (Sample.friend "bob" Sample.token64 "pending"))
      as [Hsaved _]; [reflexivity | done | by vm_compute | reflexivity | reflexivity |].
    rewrite Hsaved. by vm_compute.
  - apply (Hagain 9%Z).
Defined.

(** Cancelling the pending request of [bob], named by a path. *)
Lemma cancel_succeeds_iff_pending_witness :
  let fs := {[ "bob" := Sample.friend "bob" Sample.token64 "pending" ]} in
  ∃ n stem, head ["./bob"] = Some n ∧ friend_file n = InFriends stem ∧
            (CancelRequest.main ["./bob"] fs).2 = delete stem fs.
Proof.
  pose proof (cancel_succeeds_iff_pending ["./bob"]
                {[ "bob" := Sample.friend "bob" Sample.token64 "pending" ]}) as H.
  cbv zeta in *. destruct H as (_ & Hdeleted & _).
  { intros n [= <-]. by vm_compute. }
  apply Hdeleted. by vm_compute.
Defined.

(** [alice] adds [bob], [bob] accepts. *)
Lemma pairing_handshake_witness :
  let bob :=
    {| agentName := "bob"; friendMode := "manual";
       maxExchangesPerConvo := 6; cooldownMinutes := 30 |} in
  let add :=
    AddFriend.main (λ _, true) (λ _ _, true) Sample.token64 Sample.config
      "https://alice.example" ["bob"; "https://bob.example"] ∅ in
  ∃ request,
    AddFriend.sent add = Some request ∧
    statusCode
      (handleRequest (Sample.clock 1) bob
         (posted (λ _, false) "/pair-request" None "203.0.113.7" request)
         (Sample.state ∅)).1 = 200%Z.
Proof.
  pose proof (pairing_handshake (λ _, true) (λ _ _, true) (λ _, false) Sample.token64
                "https://alice.example" "https://bob.example" "https://bob.example"
                Sample.config
                {| agentName := "bob"; friendMode := "manual";
                   maxExchangesPerConvo := 6; cooldownMinutes := 30 |}
                ∅ (Sample.state ∅) (Sample.state ∅) (Sample.clock 3) (Sample.clock 1) 2
                "203.0.113.7" "203.0.113.9") as H.
  cbv zeta in *.
  destruct H as (request & Hsent & Hserved).
  - reflexivity.
  - done.
  - reflexivity.
  - done.
  - reflexivity.
  - done.
  - reflexivity.
  - reflexivity.
  - reflexivity.
  - vm_compute. lia.
  - by apply (bool_decide_unpack _).
  - intros f H. by rewrite lookup_empty in H.
  - intros f H. simpl in H. by rewrite lookup_empty in H.
  - reflexivity.
  - exists request. split; [exact Hsent | exact (proj1 (Hserved eq_refl))].
Defined.


(** A group of two, one of them not a friend. *)
Lemma group_broadcast_witness :
  let out :=
    Group.send (λ _, true) (λ _ _, true) (λ _, 7%Z) (λ _, replicate 12 x00)
      (λ _, Group.Answered 200 "ok") Sample.config ["send"; "team"; "hi"; "all"]
      {[ "bob" := Sample.friend "bob" Sample.token64 "paired" ]}
      {[ "team" := {| Group.group_name := "team"; Group.members := ["bob"; "carol"];
                      Group.created_at := 0; Group.created_by := "alice" |} ]} in
  Group.requests out !! 1 = Some None ∧ Group.exit_code out = 0%Z.
Proof.
  pose proof (@group_broadcast Sample.primitives primitives_laws
                (λ _, true) (λ _ _, true) (λ _, 7%Z) (λ _, replicate 12 x00)
                (λ _, Group.Answered 200 "ok") Sample.config ["send"; "team"; "hi"; "all"]
                {[ "bob" := Sample.friend "bob" Sample.token64 "paired" ]}
                {[ "team" := {| Group.group_name := "team"; Group.members := ["bob"; "carol"];
                                Group.created_at := 0; Group.created_by := "alice" |} ]}
                "team"
                {| Group.group_name := "team"; Group.members := ["bob"; "carol"];
                   Group.created_at := 0; Group.created_by := "alice" |}) as H.
  cbv zeta in *.
  destruct H as (Hall & _).
  - reflexivity.
  - done.
  - done.
  - reflexivity.
  - reflexivity.
  - intros m Hm. simpl in Hm.
    apply elem_of_cons in Hm as [->|Hm]; [by vm_compute|].
    apply list_elem_of_singleton in Hm as ->. by vm_compute.
  - reflexivity.
  - destruct Hall as (Hcode & Hnone & _); [done|].
    split; [|exact Hcode]. apply (Hnone 1 "carol"); reflexivity.
Defined.


(** The token made from 32 zero bytes. *)
Lemma generatePairToken_accepted_witness :
  String.length (AuthToken.generatePairToken (replicate 32 x00)) = 64 ∧
  verifyBearerToken
    (Some ("Bearer " +:+ AuthToken.generatePairToken (replicate 32 x00)))
    (AuthToken.generatePairToken (replicate 32 x00)) = Valid.
Proof. apply (generatePairToken_accepted (replicate 32 x00)). reflexivity. Defined.



End FurtherRuns.
